(** * fxtrades: the trading journal's persistence and statistics layer

    A shallow embedding of [src/tradejournal/src/main.js].

    - JavaScript numbers are IEEE 754 binary64 values: Rocq's primitive
      [float], whose operations the kernel evaluates and whose
      specification is [SpecFloat] instantiated at [prec = 53],
      [emax = 1024].
    - JavaScript strings are modelled by [string] (the ASCII subset).
    - The program's globals, the page and the SQLite file form one [State];
      every function of the script is a computation in the monad [M], which
      threads that state and carries JavaScript's exceptions.
    - An [async] function runs to completion: the script awaits one storage
      call at a time, and no other handler runs in between.
    - The script is loaded in a window that has [window.__TAURI__]; without
      it the first statements throw and nothing of the script is defined.
    - [console.log] / [console.error] output is not modelled. *)

From Stdlib Require Import ZArith Lia Bool List String Ascii Floats.
From Stdlib Require Import Sorting.Permutation Sorting.Sorted.
From Stdlib Require Import Decimal DecimalString.
From Stdlib Require QArith Qround Qabs DecimalN DecimalPos.
From stdpp Require Import base option list strings sorting gmap.
Import QArith_base(Q, Qmake, Qplus, Qmult, Qdiv, Qeq, Qnum, Qden, inject_Z).
Import Qround(Qfloor).
Import Qabs(Qabs).

#[local] Open Scope string_scope.
#[local] Open Scope Z_scope.

(** ** JavaScript numbers *)

Module Num.

Definition Number := float.

Definition NaN : Number := PrimFloat.nan.
Definition Infinity : Number := PrimFloat.infinity.

(** [ToBoolean] on a number: [+0], [-0] and [NaN] are falsy. *)
Definition truthy (x : Number) : bool := negb (PrimFloat.is_zero x || PrimFloat.is_nan x).

(** [x || d] where [x] is a number. *)
Definition or_else {A} (inj : Number -> A) (x : Number) (d : A) : A :=
  if truthy x then inj x else d.

(** [𝔽(n)] for a natural number such as an array length. *)
Definition of_Z (n : Z) : Number :=
  SF2Prim (binary_normalize prec emax n 0 false).

Definition of_nat (n : nat) : Number := of_Z (Z.of_nat n).

(** *** Decimal digits *)

(** The decimal representation of a non-negative integer; ["0"] for zero. *)
Definition decimal (n : Z) : string :=
  NilZero.string_of_uint (N.to_uint (Z.to_N n)).

Fixpoint zeros (k : nat) : string :=
  match k with
  | O => ""
  | S k => String "0" (zeros k)
  end.

(** *** [Number.prototype.toFixed]

    ECMA-262 21.1.3.3, for [0 <= f <= 100].  [round_half_up m e f] is the
    integer [n] for which [n / 10^f - m * 2^e] is closest to zero, the
    larger one when two are equally close. *)

Definition round_half_up (m e : Z) (f : nat) : Z :=
  let scaled := m * 10 ^ Z.of_nat f in
  match e with
  | Zneg p => (2 * scaled + 2 ^ Zpos p) / 2 ^ (Zpos p + 1)
  | _ => scaled * 2 ^ e
  end.

(** Steps 11.b-11.c: the digits of [n] with a point before the last [f]. *)
Definition fixed_digits (f : nat) (n : Z) : string :=
  let m := decimal n in
  match f with
  | O => m
  | _ =>
      let m := zeros (S f - String.length m) ++ m in
      let k := String.length m in
      substring 0 (k - f) m ++ "." ++ substring (k - f) f m
  end.

(** [Number::toString] for a finite [x >= 10^21], whose value is the
    integer [X]: the shortest digit string [s] (of [k] digits) and the
    exponent [n] with [𝔽(s * 10^(n-k)) = x], closest to [X] when several
    [s] of that length qualify, in exponential notation. *)

Fixpoint digits10 (fuel : nat) (X : Z) : Z :=
  match fuel with
  | O => 0
  | S fuel => if X <? 10 then 1 else 1 + digits10 fuel (X / 10)
  end.

Definition roundtrips (x : Number) (v : Z) : bool :=
  Leibniz.eqb (of_Z v) x.

(** The candidates [(s, n)] with [k] digits, nearest to [X] first. *)
Definition candidates (x : Number) (X : Z) (k : Z) : list (Z * Z) :=
  let d := digits10 400 X in
  let at_exp (n : Z) : list (Z * Z) :=
    let p := 10 ^ (n - k) in
    let lo := X / p in
    let hi := lo + 1 in
    let ok s := (10 ^ (k - 1) <=? s) && (s <? 10 ^ k) && roundtrips x (s * p) in
    let near := if (X - lo * p <? hi * p - X) then [lo; hi]
                else if (hi * p - X <? X - lo * p) then [hi; lo]
                else if Z.even lo then [lo; hi] else [hi; lo] in
    List.map (fun s => (s, n)) (List.filter ok near) in
  at_exp d ++ at_exp (d + 1).

Fixpoint shortest (x : Number) (X : Z) (k : Z) (fuel : nat) : option (Z * Z) :=
  match fuel with
  | O => None
  | S fuel =>
      match candidates x X k with
      | c :: _ => Some c
      | [] => shortest x X (k + 1) fuel
      end
  end.

Definition toString_large (X : Z) (x : Number) : string :=
  match shortest x X 1 17 with
  | Some (s, n) =>
      let ds := decimal s in
      let e := decimal (n - 1) in
      match ds with
      | String a "" => String a "" ++ "e+" ++ e
      | String a b => String a "" ++ "." ++ b ++ "e+" ++ e
      | "" => ""
      end
  | None => ""
  end.

Definition toFixed (f : nat) (x : Number) : string :=
  match Prim2SF x with
  | S754_nan => "NaN"
  | S754_infinity s => if s then "-Infinity" else "Infinity"
  | S754_zero _ => fixed_digits f 0
  | S754_finite s m e =>
      let sign := if s then "-" else "" in
      if PrimFloat.leb 1e21%float (PrimFloat.abs x)
      then sign ++ toString_large (Zpos m * 2 ^ e) (PrimFloat.abs x)
      else sign ++ fixed_digits f (round_half_up (Zpos m) e f)
  end.

(** *** [parseFloat]

    ECMA-262 19.2.4: leading white space is skipped, the longest prefix
    that is a [StrDecimalLiteral] is read, and its mathematical value is
    rounded to the nearest binary64 value (ties to even); [NaN] when no
    prefix qualifies. *)

Definition is_space (c : ascii) : bool :=
  let n := N_of_ascii c in
  ((9 <=? n) && (n <=? 13) || (n =? 32))%N.

Definition digit_of (c : ascii) : option Z :=
  let n := N_of_ascii c in
  if ((48 <=? n) && (n <=? 57))%N then Some (Z.of_N n - 48) else None.

Fixpoint skip_spaces (s : string) : string :=
  match s with
  | String c rest => if is_space c then skip_spaces rest else s
  | EmptyString => s
  end.

(** The longest run of decimal digits at the head of [s], appended to the
    digits [acc] read so far: the value, the number of digits read, and
    the rest of the string. *)
Fixpoint read_digits (s : string) (acc : Z) (count : Z) : Z * Z * string :=
  match s with
  | String c rest =>
      match digit_of c with
      | Some d => read_digits rest (10 * acc + d) (count + 1)
      | None => (acc, count, s)
      end
  | EmptyString => (acc, count, s)
  end.

(** [ExponentPart], when one is present at the head of [s]. *)
Definition read_exponent (s : string) : Z :=
  match s with
  | String c rest =>
      if (c =? "e")%char || (c =? "E")%char then
        let '(neg, rest) :=
          match rest with
          | String "-" r => (true, r)
          | String "+" r => (false, r)
          | _ => (false, rest)
          end in
        let '(v, count, _) := read_digits rest 0 0 in
        if count =? 0 then 0 else if neg then - v else v
      else 0
  | EmptyString => 0
  end.

(** The binary64 value nearest to [(-1)^neg * m * 10^e], for [m >= 0]. *)
Definition of_decimal (neg : bool) (m e : Z) : Number :=
  match m, e with
  | Z0, _ => if neg then PrimFloat.neg_zero else PrimFloat.zero
  | Zpos p, Zneg k =>
      SF2Prim (SFdiv prec emax (S754_finite neg p 0)
                               (S754_finite false (10 ^ k)%positive 0))
  | _, _ => SF2Prim (binary_normalize prec emax
                       ((if neg then - m else m) * 10 ^ e) 0 false)
  end.

Definition starts_with (p s : string) : bool :=
  String.prefix p s.

Definition parseFloat (input : string) : Number :=
  let trimmed := skip_spaces input in
  let '(neg, body) :=
    match trimmed with
    | String "-" r => (true, r)
    | String "+" r => (false, r)
    | _ => (false, trimmed)
    end in
  if starts_with "Infinity" body
  then (if neg then PrimFloat.neg_infinity else Infinity)
  else
    let '(int, ni, rest) := read_digits body 0 0 in
    let '(mant, nf, rest) :=
      match rest with
      | String "." r =>
          let '(mant, n, r') := read_digits r int 0 in
          if (ni =? 0) && (n =? 0) then (int, 0, rest) else (mant, n, r')
      | _ => (int, 0, rest)
      end in
    if (ni =? 0) && (nf =? 0) then NaN
    else of_decimal neg mant (read_exponent rest - nf).

(** *** [Number.prototype.toLocaleString], in one locale

    An instance for the examples, after ECMA-402 under [en-US] with the
    default options: at most three fraction digits, trailing zeros dropped,
    the integer digits in groups of three.  It rounds the exact binary
    value half away from zero and prints every integer digit; the host
    rounds the shortest decimal that denotes the number and prints the
    digits past the seventeenth as zeros, so the two differ on numbers with
    more than seventeen significant digits and on those within a rounding
    error of a tie.  The script's result depends on the host's locale in
    any case. *)

Definition pad (k : nat) (s : string) : string :=
  zeros (k - String.length s) ++ s.

Fixpoint grouped (fuel : nat) (n : Z) : string :=
  match fuel with
  | O => decimal n
  | S fuel =>
      if n <? 1000 then decimal n
      else grouped fuel (n / 1000) ++ "," ++ pad 3 (decimal (n mod 1000))
  end.

Fixpoint strip_zeros (s : string) : string :=
  match s with
  | EmptyString => ""
  | String c rest =>
      match strip_zeros rest with
      | EmptyString => if (c =? "0")%char then "" else String c ""
      | rest' => String c rest'
      end
  end.

Definition toLocaleString_en (x : Number) : string :=
  match Prim2SF x with
  | S754_nan => "NaN"
  | S754_infinity s => if s then "-∞" else "∞"
  | S754_zero s => if s then "-0" else "0"
  | S754_finite s m e =>
      let n := round_half_up (Zpos m) e 3 in
      let frac := strip_zeros (pad 3 (decimal (n mod 1000))) in
      (if s then "-" else "") ++ grouped 400 (n / 1000)
        ++ (if String.eqb frac "" then "" else "." ++ frac)
  end.

End Num.

Import Num.

(** ** The objects of the script *)

(** [{ name, currency }], built by the profile form and by [loadProfile]. *)
Module Profile.
Record t := mk { name : string; currency : string }.
End Profile.

(** The object the account form hands to [saveAccount]. *)
Module AccountFields.
Record t := mk {
  name : string;
  type : string;
  initialBalance : Number;
  currentBalance : Number;
  broker : string;
  leverage : string;
  instruments : string
}.
End AccountFields.

(** An element of the global [accounts], mapped from a row. *)
Module Account.
Record t := mk {
  id : Z;
  name : string;
  type : string;
  initialBalance : Number;
  currentBalance : Number;
  broker : string;
  leverage : string;
  instruments : string
}.
End Account.

(** The object the trade form hands to [saveTrade]; [exitPrice] is a
    number or [null]. *)
Module TradeFields.
Record t := mk {
  accountId : Z;
  symbol : string;
  type : string;
  entryPrice : Number;
  exitPrice : option Number;
  takeProfit : Number;
  stopLoss : Number;
  lotSize : Number;
  volume : Number;
  profit : Number;
  commission : Number;
  rrRatio : string;
  strategy : string;
  session : string;
  duration : string;
  date : string
}.
End TradeFields.

(** An element of the global [trades], mapped from a row. *)
Module Trade.
Record t := mk {
  id : Z;
  accountId : Z;
  symbol : string;
  type : string;
  entryPrice : Number;
  exitPrice : option Number;
  takeProfit : Number;
  stopLoss : Number;
  lotSize : Number;
  volume : Number;
  profit : Number;
  commission : Number;
  rrRatio : string;
  strategy : string;
  session : string;
  duration : string;
  date : string
}.
End Trade.

(** ** The storage engine *)

(** Modelled from the spec: the SQL plugin and the SQLite file behind the
    global [db] are not part of the script.  Section 6 of the specification
    gives the three tables and the two operations the script consumes, a
    parameterized write returning affected-row metadata and a parameterized
    read returning an ordered sequence of rows, both failing with a storage
    error.  A row of [profile]; the columns hold what the script binds. *)
Module ProfileRow.
Record t := mk {
  id : Z;
  name : string;
  email : string;
  experience : string;
  currency : string;
  timezone : string
}.
End ProfileRow.

(** Modelled from the spec: a row of [accounts]. *)
Module AccountRow.
Record t := mk {
  id : Z;
  name : string;
  type : string;
  initial_balance : Number;
  current_balance : Number;
  broker : string;
  leverage : string;
  instruments : string
}.
End AccountRow.

(** Modelled from the spec: a row of [trades]; [exit_price] may be [NULL]. *)
Module TradeRow.
Record t := mk {
  id : Z;
  account_id : Z;
  symbol : string;
  type : string;
  entry_price : Number;
  exit_price : option Number;
  take_profit : Number;
  stop_loss : Number;
  lot_size : Number;
  volume : Number;
  profit : Number;
  commission : Number;
  rr_ratio : string;
  strategy : string;
  session : string;
  duration : string;
  date : string
}.
End TradeRow.

(** Modelled from the spec: the store and the statements the script issues
    against it, with SQLite's meaning; bound values are persisted as they
    are. *)
Module Store.

(** The three tables, each in insertion order, and the condition of the
    storage: [fault = Some msg] while every statement fails with [msg]
    (connection lost, file unavailable). *)
Record t := mk {
  profile : list ProfileRow.t;
  accounts : list AccountRow.t;
  trades : list TradeRow.t;
  fault : option string
}.

Definition empty : t := mk [] [] [] None.

Definition with_fault (f : option string) (st : t) : t :=
  mk (profile st) (accounts st) (trades st) f.

(** What [execute] resolves to. *)
Record QueryResult := result { rowsAffected : Z; lastInsertId : Z }.

(** [INTEGER PRIMARY KEY AUTOINCREMENT]: one more than the largest key. *)
Definition next_id (ids : list Z) : Z := 1 + fold_right Z.max 0 ids.

(** [INSERT OR REPLACE INTO profile (id, name, email, experience, currency,
    timezone) VALUES (...)]: the row with the same primary key, if any, is
    deleted and the new row is inserted. *)
Definition insert_or_replace_profile (row : ProfileRow.t) (st : t)
  : QueryResult * t :=
  (result 1 (ProfileRow.id row),
   mk (filter (fun r => ProfileRow.id r <> ProfileRow.id row) (profile st)
         ++ [row])
      (accounts st) (trades st) (fault st)).

(** [INSERT INTO accounts (name, ...) VALUES (...)]; the [id] of [row] is
    assigned by the store. *)
Definition insert_account (row : Z -> AccountRow.t) (st : t)
  : QueryResult * t :=
  let id := next_id (List.map AccountRow.id (accounts st)) in
  (result 1 id,
   mk (profile st) (accounts st ++ [row id]) (trades st) (fault st)).

(** [INSERT INTO trades (account_id, ...) VALUES (...)]. *)
Definition insert_trade (row : Z -> TradeRow.t) (st : t)
  : QueryResult * t :=
  let id := next_id (List.map TradeRow.id (trades st)) in
  (result 1 id,
   mk (profile st) (accounts st) (trades st ++ [row id]) (fault st)).

(** [SELECT * FROM profile WHERE id = ?]. *)
Definition select_profile (id : Z) (st : t) : list ProfileRow.t :=
  filter (fun r => ProfileRow.id r = id) (profile st).

(** [ORDER BY id DESC]. *)
Definition id_desc (r1 r2 : AccountRow.t) : Prop :=
  AccountRow.id r2 <= AccountRow.id r1.

#[global] Instance id_desc_dec : RelDecision id_desc.
Proof. intros r1 r2. unfold id_desc. apply _. Defined.

(** [SELECT * FROM accounts ORDER BY id DESC]. *)
Definition select_accounts (st : t) : list AccountRow.t :=
  merge_sort id_desc (accounts st).

(** [ORDER BY date DESC]: [date] is a text column, compared bytewise. *)
Definition date_desc (r1 r2 : TradeRow.t) : Prop :=
  String.le (TradeRow.date r2) (TradeRow.date r1).

#[global] Instance date_desc_dec : RelDecision date_desc.
Proof. intros r1 r2. unfold date_desc. apply _. Defined.

(** [SELECT * FROM trades WHERE account_id = ? ORDER BY date DESC]. *)
Definition select_trades (account_id : Z) (st : t) : list TradeRow.t :=
  merge_sort date_desc
    (filter (fun r => TradeRow.account_id r = account_id) (trades st)).

End Store.

(** ** The page *)

(** What an element shows: text, one of the two empty-state fragments, or
    one of the two generated fragments, represented by the data its template
    is filled with. *)
Inductive Content :=
| Text (s : string)
| NoAccounts
| NoTrades
| AccountCards (currency : string) (cards : list (Account.t * bool))
| TradeRows (rows : list Trade.t).

Record Element := mkElement {
  value : string;
  defaultValue : string;
  form : option string;
  content : Content;
  className : string;
  display : string
}.

Definition blank : Element := mkElement "" "" None (Text "") "" "".

Definition field (form : string) (default : string) : Element :=
  mkElement default default (Some form) (Text "") "" "".

Definition with_value (v : string) (el : Element) : Element :=
  mkElement v (defaultValue el) (form el) (content el) (className el) (display el).

Definition with_content (c : Content) (el : Element) : Element :=
  mkElement (value el) (defaultValue el) (form el) c (className el) (display el).

Definition with_className (c : string) (el : Element) : Element :=
  mkElement (value el) (defaultValue el) (form el) (content el) c (display el).

Definition with_display (d : string) (el : Element) : Element :=
  mkElement (value el) (defaultValue el) (form el) (content el) (className el) d.

Fixpoint unwords (ws : list string) : string :=
  match ws with
  | [] => ""
  | [w] => w
  | w :: ws => w ++ " " ++ unwords ws
  end.

Definition has_token (c : string) (ws : list string) : bool :=
  existsb (String.eqb c) ws.

(** The token set of a [class] attribute: its words, split at ASCII white
    space (tab, line feed, form feed, carriage return, space), each kept
    once, at its first place. *)
Definition is_class_space (c : ascii) : bool :=
  let n := N_of_ascii c in
  ((n =? 9) || (n =? 10) || (n =? 12) || (n =? 13) || (n =? 32))%N.

Definition add_token (c : string) (ws : list string) : list string :=
  if String.eqb c "" || has_token c ws then ws else (ws ++ [c])%list.

Fixpoint token_set_from (cur : string) (s : string) (seen : list string) : list string :=
  match s with
  | EmptyString => add_token cur seen
  | String a rest =>
      if is_class_space a then token_set_from "" rest (add_token cur seen)
      else token_set_from (cur ++ String a "") rest seen
  end.

Definition token_set (s : string) : list string := token_set_from "" s [].

(** [classList.add(c)]: the token is appended to the set unless it is in
    it, and the attribute is written again from the set, the tokens one
    space apart. *)
Definition add_class (c : string) (el : Element) : Element :=
  with_className (unwords (add_token c (token_set (className el)))) el.

(** [classList.remove(c)]: the token is taken out of the set, and the
    attribute is written again from the set. *)
Definition remove_class (c : string) (el : Element) : Element :=
  with_className
    (unwords (List.filter (fun w => negb (String.eqb c w)) (token_set (className el)))) el.

(** [form.reset()] on one element of the page. *)
Definition reset_field (form_id : string) (el : Element) : Element :=
  if decide (form el = Some form_id) then with_value (defaultValue el) el else el.

(** ** Exceptions and the state of the program *)

Inductive JsError :=
| TypeError (msg : string)
| Error (msg : string)
| StorageError (msg : string).

(** [error.message] *)
Definition message (e : JsError) : string :=
  match e with
  | TypeError msg | Error msg | StorageError msg => msg
  end.

(** The functions registered with [addEventListener]. *)
Inductive Listener :=
| ProfileSubmit
| AccountSubmit
| TradeSubmit
| CalculateRR.

(** The object [Database.load] resolves to. *)
Record Connection := connect { path : string }.

Record State := mkState {
  (** the environment: [window.__TAURI_PLUGIN_SQL__] and the SQLite file *)
  sqlPlugin : bool;
  store : Store.t;
  (** the script's globals *)
  db : option Connection;
  currentProfile : option Profile.t;
  currentAccount : option Account.t;
  accounts : list Account.t;
  trades : list Trade.t;
  (** the page *)
  document : gmap string Element;
  listeners : list (string * string * Listener);
  alerts : list string
}.

Definition set_store (v : Store.t) (s : State) : State :=
  mkState (sqlPlugin s) v (db s) (currentProfile s) (currentAccount s)
    (accounts s) (trades s) (document s) (listeners s) (alerts s).

Definition set_db (v : option Connection) (s : State) : State :=
  mkState (sqlPlugin s) (store s) v (currentProfile s) (currentAccount s)
    (accounts s) (trades s) (document s) (listeners s) (alerts s).

Definition set_currentProfile (v : option Profile.t) (s : State) : State :=
  mkState (sqlPlugin s) (store s) (db s) v (currentAccount s)
    (accounts s) (trades s) (document s) (listeners s) (alerts s).

Definition set_currentAccount (v : option Account.t) (s : State) : State :=
  mkState (sqlPlugin s) (store s) (db s) (currentProfile s) v
    (accounts s) (trades s) (document s) (listeners s) (alerts s).

Definition set_accounts (v : list Account.t) (s : State) : State :=
  mkState (sqlPlugin s) (store s) (db s) (currentProfile s) (currentAccount s)
    v (trades s) (document s) (listeners s) (alerts s).

Definition set_trades (v : list Trade.t) (s : State) : State :=
  mkState (sqlPlugin s) (store s) (db s) (currentProfile s) (currentAccount s)
    (accounts s) v (document s) (listeners s) (alerts s).

Definition set_document (v : gmap string Element) (s : State) : State :=
  mkState (sqlPlugin s) (store s) (db s) (currentProfile s) (currentAccount s)
    (accounts s) (trades s) v (listeners s) (alerts s).

Definition set_listeners (v : list (string * string * Listener)) (s : State) : State :=
  mkState (sqlPlugin s) (store s) (db s) (currentProfile s) (currentAccount s)
    (accounts s) (trades s) (document s) v (alerts s).

Definition set_alerts (v : list string) (s : State) : State :=
  mkState (sqlPlugin s) (store s) (db s) (currentProfile s) (currentAccount s)
    (accounts s) (trades s) (document s) (listeners s) v.

(** ** The monad of the script

    A computation runs from a state to a completion, normal or abrupt, and
    the state it leaves: what was assigned before a [throw] stays assigned. *)

Inductive Completion (A : Type) :=
| Normal (a : A)
| Throw (e : JsError).
Arguments Normal {A} a.
Arguments Throw {A} e.

Definition M (A : Type) : Type := State -> Completion A * State.

#[global] Instance M_ret : MRet M := fun A a s => (Normal a, s).

#[global] Instance M_bind : MBind M := fun A B f m s =>
  match m s with
  | (Normal a, s') => f a s'
  | (Throw e, s') => (Throw e, s')
  end.

Definition throw {A} (e : JsError) : M A := fun s => (Throw e, s).

(** [try { body } catch (error) { handler }] *)
Definition try_catch {A} (body : M A) (handler : JsError -> M A) : M A :=
  fun s =>
    match body s with
    | (Normal a, s') => (Normal a, s')
    | (Throw e, s') => handler e s'
    end.

Definition gets {A} (f : State -> A) : M A := fun s => (Normal (f s), s).

Definition modify (f : State -> State) : M unit := fun s => (Normal tt, f s).

(** The state a computation leaves, whatever its completion. *)
Definition exec {A} (m : M A) (s : State) : State := snd (m s).

(** *** Host functions *)

Definition alert (text : string) : M unit :=
  modify (fun s => set_alerts (alerts s ++ [text]) s).

Definition getElementById (id : string) : M (option Element) :=
  gets (fun s => document s !! id).

(** A property access on [document.getElementById(id)], which throws when
    the element is missing.  The engine's message goes on to name the
    property read or set; the model keeps the part all accesses share. *)
Definition element (id : string) : M Element :=
  o ← getElementById id;
  match o with
  | Some el => mret el
  | None => throw (TypeError "Cannot read properties of null")
  end.

Definition update (id : string) (f : Element -> Element) : M unit :=
  el ← element id;
  modify (fun s => set_document (<[id := f el]> (document s)) s).

Definition get_value (id : string) : M string :=
  el ← element id; mret (value el).

Definition set_textContent (id : string) (text : string) : M unit :=
  update id (with_content (Text text)).

Definition addEventListener (id type : string) (l : Listener) : M unit :=
  modify (fun s => set_listeners (listeners s ++ [(id, type, l)]) s).

(** *** The global [db] *)

(** Modelled from the spec: [Database.load] belongs to the SQL plugin.  It
    fails with the storage's error while the storage is at fault. *)
Definition Database_load (p : string) : M Connection :=
  st ← gets store;
  match Store.fault st with
  | Some msg => throw (StorageError msg)
  | None => mret (connect p)
  end.

(** Modelled from the spec: [db.select] belongs to the SQL plugin.  A call
    on the undefined [db] is a [TypeError]; a call on a connection fails
    with the storage's error while the storage is at fault, and otherwise
    answers the query from the store. *)
Definition db_select {R} (query : Store.t -> R) : M R :=
  conn ← gets db;
  match conn with
  | None => throw (TypeError "Cannot read properties of undefined (reading 'select')")
  | Some _ =>
      st ← gets store;
      match Store.fault st with
      | Some msg => throw (StorageError msg)
      | None => mret (query st)
      end
  end.

(** Modelled from the spec: [db.execute], as [db.select], runs the
    statement on the store. *)
Definition db_execute (statement : Store.t -> Store.QueryResult * Store.t)
  : M Store.QueryResult :=
  conn ← gets db;
  match conn with
  | None => throw (TypeError "Cannot read properties of undefined (reading 'execute')")
  | Some _ =>
      st ← gets store;
      match Store.fault st with
      | Some msg => throw (StorageError msg)
      | None =>
          let '(res, st') := statement st in
          modify (set_store st');; mret res
      end
  end.

(** ** The script *)

Section Script.

(** [Number.prototype.toLocaleString] depends on the host's locale. *)
Variable toLocaleString : Number -> string.

Definition showMainApp : M unit :=
  update "profileSetup" (remove_class "active");;
  update "mainApp" (add_class "active");;
  profile ← gets currentProfile;
  match profile with
  | None => throw (TypeError "Cannot read properties of null (reading 'name')")
  | Some p =>
      set_textContent "displayName" (Profile.name p);;
      set_textContent "displayEmail" "";;
      set_textContent "userAvatar"
        match Profile.name p with
        | String c _ => String (Ascii.ascii_of_N
            (let n := N_of_ascii c in
             if ((97 <=? n) && (n <=? 122))%N then n - 32 else n)%N) ""
        | EmptyString => ""
        end
  end.

Definition openAccountModal : M unit :=
  update "accountModal" (add_class "active").

Definition closeAccountModal : M unit :=
  update "accountModal" (remove_class "active").

Definition renderAccounts : M unit :=
  _ ← element "accountsGrid";
  accs ← gets accounts;
  if (length accs =? 0)%nat then
    update "accountsGrid" (with_content NoAccounts)
  else
    current ← gets currentAccount;
    profile ← gets currentProfile;
    match profile with
    | None => throw (TypeError "Cannot read properties of null (reading 'currency')")
    | Some p =>
        let active acc :=
          match current with
          | Some c => Account.id c =? Account.id acc
          | None => false
          end in
        update "accountsGrid" (with_content
          (AccountCards (Profile.currency p)
             (List.map (fun acc => (acc, active acc)) accs)))
    end.

Definition renderTrades : M unit :=
  _ ← element "tradesBody";
  ts ← gets trades;
  if (length ts =? 0)%nat then
    update "tradesBody" (with_content NoTrades)
  else
    update "tradesBody" (with_content (TradeRows ts)).

(** *** Statistics *)

Definition totalPnL (ts : list Trade.t) : Number :=
  fold_left (fun sum t => (sum + Trade.profit t)%float) ts 0%float.

Definition wins (ts : list Trade.t) : nat :=
  length (List.filter (fun t => PrimFloat.ltb 0 (Trade.profit t)) ts).

Definition winRate (ts : list Trade.t) : string :=
  toFixed 1 (of_nat (wins ts) / of_nat (length ts) * 100)%float.

Definition totalVolume (ts : list Trade.t) : Number :=
  fold_left (fun sum t => (sum + Trade.volume t)%float) ts 0%float.

Definition updateStats : M unit :=
  ts ← gets trades;
  if (length ts =? 0)%nat then mret tt
  else
    profile ← gets currentProfile;
    match profile with
    | None => throw (TypeError "Cannot read properties of null (reading 'currency')")
    | Some p =>
        set_textContent "totalPnL"
          (Profile.currency p ++ " " ++ toFixed 2 (totalPnL ts));;
        update "totalPnL" (with_className
          (if PrimFloat.leb 0 (totalPnL ts) then "value positive" else "value negative"));;
        set_textContent "totalTrades" (decimal (Z.of_nat (length ts)));;
        set_textContent "winRate" (winRate ts ++ "%");;
        set_textContent "totalVolume" (toLocaleString (totalVolume ts))
    end.

(** *** Database functions *)

(** The values [saveProfile] binds, as the row the store inserts: the key
    is the constant 1, and three columns are always empty. *)
Definition profile_row (profile : Profile.t) : ProfileRow.t :=
  ProfileRow.mk 1 (Profile.name profile) "" "" (Profile.currency profile) "".

(** The [catch] block logs and throws the error again. *)
Definition saveProfile (profile : Profile.t) : M Store.QueryResult :=
  try_catch
    (conn ← gets db;
     match conn with
     | None => throw (Error "Database is not initialized")
     | Some _ => db_execute (Store.insert_or_replace_profile (profile_row profile))
     end)
    (fun error => throw error).

Definition loadProfile : M (option Profile.t) :=
  try_catch
    (result ← db_select (Store.select_profile 1);
     match result with
     | row :: _ =>
         mret (Some (Profile.mk (ProfileRow.name row) (ProfileRow.currency row)))
     | [] => mret None
     end)
    (fun e => mret None).

(** The values [saveAccount] binds, as the row the store inserts;
    [account.instruments || ''] is the string itself. *)
Definition account_row (account : AccountFields.t) (id : Z) : AccountRow.t :=
  AccountRow.mk id
    (AccountFields.name account)
    (AccountFields.type account)
    (AccountFields.initialBalance account)
    (AccountFields.currentBalance account)
    (AccountFields.broker account)
    (AccountFields.leverage account)
    (AccountFields.instruments account).

Definition saveAccount (account : AccountFields.t) : M unit :=
  _ ← db_execute (Store.insert_account (account_row account));
  mret tt.

(** The values [saveTrade] binds, as the row the store inserts; on the
    four text fields [|| ''] changes nothing. *)
Definition trade_row (trade : TradeFields.t) (id : Z) : TradeRow.t :=
  TradeRow.mk id
    (TradeFields.accountId trade)
    (TradeFields.symbol trade)
    (TradeFields.type trade)
    (TradeFields.entryPrice trade)
    (TradeFields.exitPrice trade)
    (TradeFields.takeProfit trade)
    (TradeFields.stopLoss trade)
    (TradeFields.lotSize trade)
    (TradeFields.volume trade)
    (TradeFields.profit trade)
    (TradeFields.commission trade)
    (TradeFields.rrRatio trade)
    (TradeFields.strategy trade)
    (TradeFields.session trade)
    (TradeFields.duration trade)
    (TradeFields.date trade).

Definition saveTrade (trade : TradeFields.t) : M unit :=
  _ ← db_execute (Store.insert_trade (trade_row trade));
  mret tt.

Definition account_of_row (row : AccountRow.t) : Account.t :=
  Account.mk (AccountRow.id row) (AccountRow.name row) (AccountRow.type row)
    (AccountRow.initial_balance row) (AccountRow.current_balance row)
    (AccountRow.broker row) (AccountRow.leverage row) (AccountRow.instruments row).

Definition loadAccounts : M unit :=
  try_catch
    (result ← db_select Store.select_accounts;
     modify (set_accounts (List.map account_of_row result));;
     renderAccounts)
    (fun error => mret tt).

Definition trade_of_row (row : TradeRow.t) : Trade.t :=
  Trade.mk (TradeRow.id row) (TradeRow.account_id row) (TradeRow.symbol row)
    (TradeRow.type row) (TradeRow.entry_price row) (TradeRow.exit_price row)
    (TradeRow.take_profit row) (TradeRow.stop_loss row) (TradeRow.lot_size row)
    (TradeRow.volume row) (TradeRow.profit row) (TradeRow.commission row)
    (TradeRow.rr_ratio row) (TradeRow.strategy row) (TradeRow.session row)
    (TradeRow.duration row) (TradeRow.date row).

Definition loadTrades (accountId : Z) : M unit :=
  try_catch
    (result ← db_select (Store.select_trades accountId);
     modify (set_trades (List.map trade_of_row result));;
     renderTrades)
    (fun error => mret tt).

(** The row [testDatabase] writes, under the key 999. *)
Definition test_row : ProfileRow.t :=
  ProfileRow.mk 999 "TestUser" "test@test.com" "beginner" "USD" "UTC".

(** [Object.keys(db)] throws on the undefined [db] as the first [select]
    does, and the [catch] block answers [false] either way. *)
Definition testDatabase : M bool :=
  try_catch
    (_ ← db_select (fun _ => tt);
     _ ← db_execute (Store.insert_or_replace_profile test_row);
     _ ← db_select (Store.select_profile 999);
     mret true)
    (fun error => mret false).

(** *** Start-up *)

(** The connection [Database.load] resolves to has its [execute] method,
    so the check that follows the assignment never throws. *)
Definition initDB : M bool :=
  try_catch
    (plugin ← gets sqlPlugin;
     if negb plugin
     then throw (Error "SQL plugin not loaded. Check tauri.conf.json and Cargo.toml")
     else
       conn ← Database_load "sqlite:trading_journal.db";
       modify (set_db (Some conn));;
       mret true)
    (fun error =>
       alert ("Failed to initialize database: " ++ message error);;
       mret false).

Definition init : M unit :=
  dbReady ← initDB;
  if negb dbReady then mret tt
  else
    profile ← loadProfile;
    match profile with
    | Some p =>
        modify (set_currentProfile (Some p));;
        showMainApp;;
        loadAccounts;;
        updateStats
    | None => mret tt
    end.

(** *** Profile form *)

Definition onProfileSubmit : M unit :=
  try_catch
    (userName ← getElementById "userName";
     currency ← getElementById "currency";
     match userName, currency with
     | Some userName, Some currency =>
         if (String.eqb (value userName) "" || String.eqb (value currency) "")%bool
         then throw (Error "Please fill in all required fields")
         else
           conn ← gets db;
           match conn with
           | None => throw (Error "Database not initialized. Please refresh the page.")
           | Some _ =>
               let profile := Profile.mk (value userName) (value currency) in
               _ ← saveProfile profile;
               modify (set_currentProfile (Some profile));;
               showMainApp;;
               loadAccounts
           end
     | _, _ => throw (Error "Form fields not found")
     end)
    (fun error =>
       let errorMessage :=
         if String.eqb (message error) "" then "Unknown error occurred"
         else message error in
       alert ("Failed to save profile: " ++ errorMessage)).

Definition setupProfileForm : M unit :=
  form ← getElementById "profileForm";
  match form with
  | None => mret tt
  | Some _ => addEventListener "profileForm" "submit" ProfileSubmit
  end.

(** *** Account form *)

Definition reset (form_id : string) : M unit :=
  _ ← element form_id;
  modify (fun s => set_document (reset_field form_id <$> document s) s).

(** The object literal of the submit handler. *)
Definition readAccountForm : M AccountFields.t :=
  name ← get_value "accountName";
  type ← get_value "accountType";
  initialBalance ← get_value "initialBalance";
  currentBalance ← get_value "initialBalance";
  broker ← get_value "broker";
  leverage ← get_value "leverage";
  instruments ← get_value "instruments";
  mret (AccountFields.mk name type (parseFloat initialBalance)
          (parseFloat currentBalance) broker leverage instruments).

Definition onAccountSubmit : M unit :=
  try_catch
    (account ← readAccountForm;
     saveAccount account;;
     loadAccounts;;
     closeAccountModal;;
     reset "accountForm")
    (fun error => alert ("Failed to save account: " ++ message error)).

Definition setupAccountForm : M unit :=
  form ← getElementById "accountForm";
  match form with
  | None => mret tt
  | Some _ => addEventListener "accountForm" "submit" AccountSubmit
  end.

Definition selectAccount (id : Z) : M unit :=
  accs ← gets accounts;
  modify (set_currentAccount (List.find (fun a => Account.id a =? id) accs));;
  loadTrades id;;
  renderAccounts;;
  update "tradesSection" (with_display "block").

(** *** Trade form *)

Definition openTradeModal : M unit :=
  current ← gets currentAccount;
  match current with
  | None => alert "Please select an account first"
  | Some _ => update "tradeModal" (add_class "active")
  end.

Definition closeTradeModal : M unit :=
  update "tradeModal" (remove_class "active").

(** The object literal of the submit handler; [now] is what
    [new Date().toISOString()] gives. *)
Definition readTradeForm (account : Account.t) (now : string) : M TradeFields.t :=
  symbol ← get_value "symbol";
  type ← get_value "tradeType";
  entryPrice ← get_value "entryPrice";
  exitPrice ← get_value "exitPrice";
  takeProfit ← get_value "takeProfit";
  stopLoss ← get_value "stopLoss";
  lotSize ← get_value "lotSize";
  volume ← get_value "volume";
  profit ← get_value "profit";
  commission ← get_value "commission";
  rrRatio ← get_value "rrRatio";
  strategy ← get_value "strategy";
  session ← get_value "session";
  duration ← get_value "duration";
  mret (TradeFields.mk (Account.id account) symbol type
          (parseFloat entryPrice)
          (or_else Some (parseFloat exitPrice) None)
          (parseFloat takeProfit)
          (parseFloat stopLoss)
          (parseFloat lotSize)
          (parseFloat volume)
          (parseFloat profit)
          (or_else id (parseFloat commission) 0%float)
          rrRatio strategy session duration now).

Definition onTradeSubmit (now : string) : M unit :=
  current ← gets currentAccount;
  match current with
  | None => alert "Please select an account first"
  | Some account =>
      try_catch
        (trade ← readTradeForm account now;
         saveTrade trade;;
         loadTrades (Account.id account);;
         updateStats;;
         closeTradeModal;;
         reset "tradeForm")
        (fun error => alert ("Failed to save trade: " ++ message error))
  end.

Definition setupTradeForm : M unit :=
  form ← getElementById "tradeForm";
  match form with
  | None => mret tt
  | Some _ => addEventListener "tradeForm" "submit" TradeSubmit
  end.

Definition calculateRR : M unit :=
  entry ← get_value "entryPrice";
  tp ← get_value "takeProfit";
  sl ← get_value "stopLoss";
  let entry := parseFloat entry in
  let tp := parseFloat tp in
  let sl := parseFloat sl in
  if truthy entry && truthy tp && truthy sl then
    let risk := PrimFloat.abs (entry - sl)%float in
    let reward := PrimFloat.abs (tp - entry)%float in
    let ratio := toFixed 2 (reward / risk)%float in
    update "rrRatio" (with_value ("1:" ++ ratio))
  else mret tt.

(** *** Events *)

(** The [DOMContentLoaded] listener. *)
Definition onDOMContentLoaded : M unit :=
  init;;
  _ ← testDatabase;
  setupProfileForm;;
  setupAccountForm;;
  setupTradeForm;;
  mapM (fun id =>
          el ← getElementById id;
          match el with
          | Some _ => addEventListener id "input" CalculateRR
          | None => mret tt
          end)
       ["entryPrice"; "takeProfit"; "stopLoss"];;
  mret tt.

(** The handlers named by [onclick] attributes. *)
Inductive Inline :=
| SelectAccount (id : Z)
| OpenAccountModal
| CloseAccountModal
| OpenTradeModal
| CloseTradeModal.

Definition inline (h : Inline) : M unit :=
  match h with
  | SelectAccount id => selectAccount id
  | OpenAccountModal => openAccountModal
  | CloseAccountModal => closeAccountModal
  | OpenTradeModal => openTradeModal
  | CloseTradeModal => closeTradeModal
  end.

Definition listener (now : string) (l : Listener) : M unit :=
  match l with
  | ProfileSubmit => onProfileSubmit
  | AccountSubmit => onAccountSubmit
  | TradeSubmit => onTradeSubmit now
  | CalculateRR => calculateRR
  end.

(** The listeners registered on [id] for [type] run in registration order;
    an exception one of them leaves uncaught ends that listener only. *)
Definition dispatch (id type now : string) (s : State) : State :=
  fold_left (fun s '(id', type', l) =>
               if (String.eqb id' id && String.eqb type' type)%bool
               then exec (listener now l) s else s)
    (listeners s) s.

(** What happens to the program, one event at a time: the page is loaded
    in a window (the globals start afresh, the SQLite file stays), the user
    submits a form at time [now], edits a field, clicks, or the storage
    changes condition.  Each handler runs to completion. *)
Inductive Event :=
| PageLoad (plugin : bool) (page : gmap string Element)
| Submit (form : string) (now : string)
| Input (id : string) (text : string)
| Click (h : Inline)
| StorageFault (f : option string).

Definition boot (plugin : bool) (page : gmap string Element) (st : Store.t) : State :=
  mkState plugin st None None None [] [] page [] [].

Definition handle (ev : Event) (s : State) : State :=
  match ev with
  | PageLoad plugin page => exec onDOMContentLoaded (boot plugin page (store s))
  | Submit form now => dispatch form "submit" now s
  | Input id text =>
      match document s !! id with
      | Some el =>
          dispatch id "input" ""
            (set_document (<[id := with_value text el]> (document s)) s)
      | None => s
      end
  | Click h => exec (inline h) s
  | StorageFault f => set_store (Store.with_fault f (store s)) s
  end.

Definition run (evs : list Event) (s : State) : State :=
  fold_left (fun s ev => handle ev s) evs s.

(** Before the first launch: no window, and a store with empty tables. *)
Definition initial : State := boot false ∅ Store.empty.

Definition reachable (s : State) : Prop := exists evs, s = run evs initial.

End Script.

(** ** The specification's aggregates

    Section 4.4 of the specification, in its own words: sums, a count and
    a rate over the sequence of trades, in exact arithmetic, rounded for
    display to two and to one decimal place; then the figures the same
    words give in binary64 arithmetic, rounded at every operation; and what
    a decimal numeral on the page denotes.  Sections 3 and 6 name the
    fields of a trade and the columns of its row. *)

Module Spec.

(** *** The figures in exact arithmetic, as the specification words them *)

(** The number a binary64 value stands for ([NaN] and the infinities stand
    for none; they are given 0). *)
Definition exact (x : Number) : Q :=
  match Prim2SF x with
  | S754_finite s m e =>
      let n := if s then Zneg m else Zpos m in
      match e with
      | Zneg p => Qmake n (2 ^ p)
      | _ => Qmake (n * 2 ^ e) 1
      end
  | _ => Qmake 0 1
  end.

(** [sum(q for q in qs)] *)
Definition sum (qs : list Q) : Q := foldr Qplus (Qmake 0 1) qs.

(** [count(q > 0)] *)
Definition count_positive (qs : list Q) : nat :=
  length (List.filter (fun q => 0 <? Qnum q) qs).

Definition totalPnL (ts : list Trade.t) : Q :=
  sum ((fun t => exact (Trade.profit t)) <$> ts).

Definition totalVolume (ts : list Trade.t) : Q :=
  sum ((fun t => exact (Trade.volume t)) <$> ts).

Definition tradeCount (ts : list Trade.t) : nat := length ts.

(** [count(trade.profit > 0) / count(trades) * 100] *)
Definition winRate (ts : list Trade.t) : Q :=
  Qmult
    (Qdiv (inject_Z (Z.of_nat (count_positive ((fun t => exact (Trade.profit t)) <$> ts))))
          (inject_Z (Z.of_nat (tradeCount ts))))
    (inject_Z 100).

(** The decimal numeral with the digits of [n], the last [f] of them after
    the point, and a minus sign when [neg]. *)
Definition decimal_of (neg : bool) (n : Z) (f : nat) : Q :=
  Qmake (if neg then - n else n) (Z.to_pos (10 ^ Z.of_nat f)).

(** [q] rounded to [f] decimal places: the multiple of [10^-f] nearest to
    [q], the one farther from zero when two are equally near. *)
Definition rounded (f : nat) (q : Q) : Q :=
  decimal_of (Qnum q <? 0)
    (Qfloor (Qplus (Qmult (Qabs q) (inject_Z (10 ^ Z.of_nat f))) (Qmake 1 2))) f.

(** The running sum from [acc] over [xs] incurs no rounding: every
    binary64 addition gives the exact sum of its operands. *)
Fixpoint unrounded_from (acc : Number) (xs : list Number) : Prop :=
  match xs with
  | [] => True
  | x :: xs =>
      Qeq (exact (acc + x)%float) (Qplus (exact acc) (exact x))
      /\ unrounded_from (acc + x)%float xs
  end.

Definition unrounded (xs : list Number) : Prop := unrounded_from 0%float xs.

(** *** Reading a decimal numeral *)

(** The text before the first point, and the text after it. *)
Fixpoint split_point (s : string) : string * option string :=
  match s with
  | EmptyString => (EmptyString, None)
  | String c rest =>
      if (c =? ".")%char then (EmptyString, Some rest)
      else let '(a, b) := split_point rest in (String c a, b)
  end.

(** The digits of an unsigned numeral as a number, and how many of them
    follow the point. *)
Definition read_unsigned (s : string) : option (Z * nat) :=
  let '(int, frac) := split_point s in
  let frac := match frac with Some frac => frac | None => EmptyString end in
  match int with
  | EmptyString => None
  | _ =>
      match NilEmpty.uint_of_string (int ++ frac) with
      | Some d => Some (Z.of_N (N.of_uint d), String.length frac)
      | None => None
      end
  end.

(** The number a decimal numeral such as [-12.50] denotes. *)
Definition read (s : string) : option Q :=
  match read_unsigned s with
  | Some (n, f) => Some (decimal_of false n f)
  | None =>
      match s with
      | String "-" r =>
          match read_unsigned r with
          | Some (n, f) => Some (decimal_of true n f)
          | None => None
          end
      | _ => None
      end
  end.

(** *** The figures in binary64 arithmetic *)

(** The sum of [xs] taken from the left, starting at 0, every addition
    rounded to binary64. *)
Definition sum64 (xs : list Number) : Number :=
  fold_left (fun acc x => (acc + x)%float) xs 0%float.

(** The number of values above zero. *)
Definition wins64 (xs : list Number) : nat :=
  length (List.filter (fun x => PrimFloat.ltb 0 x) xs).

(** [w / n * 100], the quotient and the product each rounded to binary64. *)
Definition rate64 (w n : nat) : Number :=
  (of_nat w / of_nat n * 100)%float.

(** A zero or a finite number: neither [NaN] nor an infinity. *)
Definition is_number (x : Number) : bool :=
  match Prim2SF x with
  | S754_zero _ | S754_finite _ _ _ => true
  | _ => false
  end.

(** A zero or a finite number below [10^21], which [toFixed] prints in
    fixed notation. *)
Definition in_fixed_range (x : Number) : bool :=
  match Prim2SF x with
  | S754_zero _ | S754_finite _ _ _ => negb (PrimFloat.leb 1e21%float (PrimFloat.abs x))
  | _ => false
  end.

(** *** The fetched trades and the stored rows *)

(** The trade [t] is the row [r], column for column. *)
Definition same_trade (t : Trade.t) (r : TradeRow.t) : Prop :=
  Trade.id t = TradeRow.id r /\
  Trade.accountId t = TradeRow.account_id r /\
  Trade.symbol t = TradeRow.symbol r /\
  Trade.type t = TradeRow.type r /\
  Trade.entryPrice t = TradeRow.entry_price r /\
  Trade.exitPrice t = TradeRow.exit_price r /\
  Trade.takeProfit t = TradeRow.take_profit r /\
  Trade.stopLoss t = TradeRow.stop_loss r /\
  Trade.lotSize t = TradeRow.lot_size r /\
  Trade.volume t = TradeRow.volume r /\
  Trade.profit t = TradeRow.profit r /\
  Trade.commission t = TradeRow.commission r /\
  Trade.rrRatio t = TradeRow.rr_ratio r /\
  Trade.strategy t = TradeRow.strategy r /\
  Trade.session t = TradeRow.session r /\
  Trade.duration t = TradeRow.duration r /\
  Trade.date t = TradeRow.date r.

(** The row [r] holds, column for column, the fields [f] that [insertTrade]
    was called with; its key is the store's. *)
Definition inserted_as (f : TradeFields.t) (r : TradeRow.t) : Prop :=
  TradeRow.account_id r = TradeFields.accountId f /\
  TradeRow.symbol r = TradeFields.symbol f /\
  TradeRow.type r = TradeFields.type f /\
  TradeRow.entry_price r = TradeFields.entryPrice f /\
  TradeRow.exit_price r = TradeFields.exitPrice f /\
  TradeRow.take_profit r = TradeFields.takeProfit f /\
  TradeRow.stop_loss r = TradeFields.stopLoss f /\
  TradeRow.lot_size r = TradeFields.lotSize f /\
  TradeRow.volume r = TradeFields.volume f /\
  TradeRow.profit r = TradeFields.profit f /\
  TradeRow.commission r = TradeFields.commission f /\
  TradeRow.rr_ratio r = TradeFields.rrRatio f /\
  TradeRow.strategy r = TradeFields.strategy f /\
  TradeRow.session r = TradeFields.session f /\
  TradeRow.duration r = TradeFields.duration f /\
  TradeRow.date r = TradeFields.date f.

(** The row [r1] may come before [r2] in descending order of [date]: the
    date of [r2], a text, is not the later one. *)
Definition date_descending (r1 r2 : TradeRow.t) : Prop :=
  String.le (TradeRow.date r2) (TradeRow.date r1).

End Spec.

(** ** Notions the properties are stated with *)

(** What the element [id] shows. *)
Definition shown (s : State) (id : string) : option Content :=
  content <$> document s !! id.

(** What the field [id] holds; the empty string when it is missing. *)
Definition field_value (s : State) (id : string) : string :=
  from_option value "" (document s !! id).

(** The fields the account form's handler reads. *)
Definition account_form : list string :=
  ["accountName"; "accountType"; "initialBalance"; "broker"; "leverage";
   "instruments"].

(** The fields the trade form's handler reads. *)
Definition trade_form : list string :=
  ["symbol"; "tradeType"; "entryPrice"; "exitPrice"; "takeProfit"; "stopLoss";
   "lotSize"; "volume"; "profit"; "commission"; "rrRatio"; "strategy";
   "session"; "duration"].

(** The connection is open and the storage in service. *)
Definition in_service (s : State) : Prop :=
  is_Some (db s) /\ Store.fault (store s) = None.

(** The connection is open and the storage fails with [msg]. *)
Definition out_of_service (msg : string) (s : State) : Prop :=
  is_Some (db s) /\ Store.fault (store s) = Some msg.

(** [op] ends with whatever exception the storage call [call] ends with. *)
Definition surfaces {A B} (call : M A) (op : M B) : Prop :=
  forall s e s', call s = (Throw e, s') -> op s = (Throw e, s').

(** [op] completes normally, with [b], when the storage call [call] throws. *)
Definition swallows {A B} (call : M A) (op : M B) (b : B) : Prop :=
  forall s e s', call s = (Throw e, s') -> op s = (Normal b, s').

(** [t1] may be listed before [t2]: its date is not the earlier one. *)
Definition newest_first (t1 t2 : Trade.t) : Prop :=
  String.le (Trade.date t2) (Trade.date t1).

(** The fields [calculateRR] reads and the one it writes. *)
Definition rr_form : list string :=
  ["entryPrice"; "takeProfit"; "stopLoss"; "rrRatio"].

(** A number that is neither a zero nor [NaN]. *)
Definition SF_nonzero (x : spec_float) : Prop :=
  match x with
  | S754_finite _ _ _ | S754_infinity _ => True
  | _ => False
  end.

(** The primary keys in the [profile] table. *)
Definition profile_keys (st : Store.t) : list Z :=
  ProfileRow.id <$> Store.profile st.

(** The primary key of [profile] is unique, and only the keys the script
    writes occur. *)
Definition profile_table_ok (st : Store.t) : Prop :=
  NoDup (profile_keys st) /\ forall k, k ∈ profile_keys st -> k = 1 \/ k = 999.

(** A property of the store that every statement of the script keeps. *)
Class StoreInvariant (Q : Store.t -> Prop) : Prop := {
  invariant_empty : Q Store.empty;
  invariant_profile : forall p st,
    Q st -> Q (snd (Store.insert_or_replace_profile (profile_row p) st));
  invariant_test_row : forall st,
    Q st -> Q (snd (Store.insert_or_replace_profile test_row st));
  invariant_account : forall row st, Q st -> Q (snd (Store.insert_account row st));
  invariant_trade : forall row st, Q st -> Q (snd (Store.insert_trade row st));
  invariant_fault : forall f st, Q st -> Q (Store.with_fault f st)
}.

(** A computation keeps the property [P] of the state, however it ends. *)
Definition preserves {A} (P : State -> Prop) (m : M A) : Prop :=
  forall s, P s -> P (snd (m s)).

(** A property that the page and the alerts have no part in. *)
Class Frame (P : State -> Prop) : Prop := {
  frame_document : forall v s, P s -> P (set_document v s);
  frame_alerts : forall v s, P s -> P (set_alerts v s)
}.

(** A property that, of the whole state, only the store has a part in. *)
Class StoreOnly (P : State -> Prop) : Prop := {
  store_only_frame :: Frame P;
  frame_listeners : forall v s, P s -> P (set_listeners v s);
  frame_db : forall v s, P s -> P (set_db v s);
  frame_currentProfile : forall v s, P s -> P (set_currentProfile v s);
  frame_currentAccount : forall v s, P s -> P (set_currentAccount v s);
  frame_accounts : forall v s, P s -> P (set_accounts v s);
  frame_trades : forall v s, P s -> P (set_trades v s)
}.

(** A text without a decimal point. *)
Fixpoint no_point (s : string) : bool :=
  match s with
  | EmptyString => true
  | String c rest => negb (c =? ".")%char && no_point rest
  end.

(** The connection [initDB] opens. *)
Definition connection : Connection := connect "sqlite:trading_journal.db".

(** The state with one more alert. *)
Definition alerted (text : string) (s : State) : State :=
  set_alerts (alerts s ++ [text]) s.


(** The account and trade tables of [st'] are those of [st] with rows added
    at the end. *)
Definition extends (st st' : Store.t) : Prop :=
  Store.accounts st `prefix_of` Store.accounts st' /\
  Store.trades st `prefix_of` Store.trades st'.

(** The primary keys in the [accounts] table. *)
Definition account_keys (st : Store.t) : list Z :=
  AccountRow.id <$> Store.accounts st.

(** Every account the script holds, and every trade the store holds, is
    under the key of a stored account. *)
Definition linked (s : State) : Prop :=
  (forall a, a ∈ accounts s -> Account.id a ∈ account_keys (store s)) /\
  (forall a, currentAccount s = Some a -> Account.id a ∈ account_keys (store s)) /\
  (forall r, r ∈ Store.trades (store s) -> TradeRow.account_id r ∈ account_keys (store s)).

(** The keys of the [accounts] table grow with the position of the row. *)
Definition keys_ascending (st : Store.t) : Prop :=
  StronglySorted (fun r1 r2 => AccountRow.id r1 < AccountRow.id r2) (Store.accounts st).

(** Whenever [m] completes normally, its result satisfies [R]. *)
Definition returns {A} (R : A -> Prop) (m : M A) : Prop :=
  forall s a s', m s = (Normal a, s') -> R a.

(** The four elements of the statistics panel. *)
Definition statistics : list string :=
  ["totalPnL"; "totalTrades"; "winRate"; "totalVolume"].

(** The elements the [DOMContentLoaded] listener looks for, with the
    listener it registers on each. *)
Definition registrations : list (string * string * Listener) :=
  [ ("profileForm", "submit", ProfileSubmit);
    ("accountForm", "submit", AccountSubmit);
    ("tradeForm", "submit", TradeSubmit);
    ("entryPrice", "input", CalculateRR);
    ("takeProfit", "input", CalculateRR);
    ("stopLoss", "input", CalculateRR) ].

(** The elements [ids] are on the page. *)
Definition present (ids : list string) (s : State) : Prop :=
  forall id, id ∈ ids -> is_Some (document s !! id).

(** ** A page and a session, for the examples *)

Module Example.

Definition page : gmap string Element :=
  list_to_map
    ((fun id => (id, blank)) <$>
       ["profileSetup"; "mainApp"; "displayName"; "displayEmail"; "userAvatar";
        "profileForm"; "accountForm"; "tradeForm"; "accountModal"; "tradeModal";
        "accountsGrid"; "tradesSection"; "tradesBody";
        "totalPnL"; "totalTrades"; "winRate"; "totalVolume"])
  ∪ list_to_map
    ((fun id => (id, field "profileForm" "")) <$> ["userName"; "currency"])
  ∪ list_to_map
    ((fun id => (id, field "accountForm" "")) <$>
       ["accountName"; "accountType"; "initialBalance"; "broker"; "leverage";
        "instruments"])
  ∪ list_to_map
    ((fun id => (id, field "tradeForm" "")) <$>
       ["symbol"; "tradeType"; "entryPrice"; "exitPrice"; "takeProfit";
        "stopLoss"; "lotSize"; "volume"; "profit"; "commission"; "rrRatio";
        "strategy"; "session"; "duration"]).

(** First launch, then the profile form. *)
Definition setup : list Event :=
  [ PageLoad true page;
    Input "userName" "ann"; Input "currency" "USD"; Submit "profileForm" "" ].

(** An account is created and selected. *)
Definition open_account : list Event :=
  [ Input "accountName" "Main"; Input "accountType" "live";
    Input "initialBalance" "1000"; Input "broker" "X";
    Input "leverage" "1:50"; Submit "accountForm" "";
    Click (SelectAccount 1) ].

(** Two trades, with profits [+50] and [-20]. *)
Definition two_trades : list Event :=
  [ Input "symbol" "EURUSD"; Input "tradeType" "buy";
    Input "entryPrice" "1.1"; Input "takeProfit" "1.2"; Input "stopLoss" "1.05";
    Input "lotSize" "1"; Input "volume" "1.5"; Input "profit" "50";
    Submit "tradeForm" "2024-01-01T10:00:00.000Z";
    Input "symbol" "EURUSD"; Input "tradeType" "sell";
    Input "entryPrice" "1.1"; Input "takeProfit" "1.0"; Input "stopLoss" "1.2";
    Input "lotSize" "1"; Input "volume" "2.5"; Input "profit" "-20";
    Input "commission" "n/a";
    Submit "tradeForm" "2024-01-02T10:00:00.000Z" ].

Definition started : State :=
  Eval vm_compute in run toLocaleString_en setup initial.

Definition selected : State :=
  Eval vm_compute in run toLocaleString_en open_account started.

Definition traded : State :=
  Eval vm_compute in run toLocaleString_en two_trades selected.

(** The storage goes out of service. *)
Definition faulty : State :=
  Eval vm_compute in handle toLocaleString_en (StorageFault (Some "disk I/O error")) traded.

(** The account of the session, as [loadAccounts] maps it. *)
Definition main_account : Account.t :=
  Account.mk 1 "Main" "live" 1000%float 1000%float "X" "1:50" "".

(** The trade form filled in with no exit price and a commission that is
    not a number. *)
Definition no_exit : State :=
  Eval vm_compute in
    run toLocaleString_en
      [ Input "symbol" "EURUSD"; Input "tradeType" "buy";
        Input "entryPrice" "1.1"; Input "commission" "n/a";
        Input "profit" "5" ] selected.

(** The trade form filled in with an exit price of zero. *)
Definition zero_exit : State :=
  Eval vm_compute in
    run toLocaleString_en
      [ Input "symbol" "EURUSD"; Input "tradeType" "buy";
        Input "entryPrice" "1.1"; Input "exitPrice" "0.0";
        Input "profit" "-1.1" ] selected.

(** The account form filled in with a balance that is not a number. *)
Definition no_balance : State :=
  Eval vm_compute in
    run toLocaleString_en
      [ Input "accountName" "Swing"; Input "accountType" "demo";
        Input "initialBalance" "n/a"; Input "broker" "Y" ] selected.

(** The three prices of the trade form all at the same value. *)
Definition flat : State :=
  Eval vm_compute in
    run toLocaleString_en
      [ Input "entryPrice" "1.5"; Input "takeProfit" "1.5";
        Input "stopLoss" "1.5" ] selected.

(** The stop at the entry price, the target above it. *)
Definition no_risk : State :=
  Eval vm_compute in
    run toLocaleString_en
      [ Input "entryPrice" "1.5"; Input "takeProfit" "1.75";
        Input "stopLoss" "1.50" ] selected.


(** The profile form left empty on the first launch. *)
Definition first_launch : State :=
  Eval vm_compute in handle toLocaleString_en (PageLoad true page) initial.

(** No account selected, the storage out of service. *)
Definition unselected : State :=
  Eval vm_compute in
    run toLocaleString_en [StorageFault (Some "disk I/O error")] started.

(** A second account is created. *)
Definition second_account : list Event :=
  [ Input "accountName" "Swing"; Input "accountType" "demo";
    Input "initialBalance" "250"; Input "broker" "Y";
    Submit "accountForm" "" ].

(** Two accounts, the first one selected. *)
Definition two_accounts : State :=
  Eval vm_compute in run toLocaleString_en second_account selected.

(** A trade with the profit [profit], on the account of the session. *)
Definition trade_with (profit : Number) : Trade.t :=
  Trade.mk 0 1 "EURUSD" "buy" 1%float None 1%float 1%float 1%float 1%float profit
    0%float "" "" "" "" "".

(** Three trades whose middle profit the running sum absorbs. *)
Definition absorbed : State :=
  set_trades (trade_with <$> [1e16; 1; -1e16]%float) traded.

(** Eighty trades, twenty-three of them with a profit. *)
Definition eighty : State :=
  set_trades (replicate 23 (trade_with 1%float) ++ replicate 57 (trade_with (-1)%float))%list
    traded.

(** A third trade for the account of the session, as the form's handler
    hands it to [saveTrade]. *)
Definition third_trade : TradeFields.t :=
  TradeFields.mk 1 "GBPUSD" "buy" 1.25%float (Some 1.5%float) 1.5%float 1%float
    1%float 1%float 40%float 0%float "1:1.00" "" "" "" "2024-01-03T10:00:00.000Z".

End Example.

(** ** The number model on known values *)

Example parseFloat_values :
  parseFloat "1.5" = 1.5%float /\
  parseFloat "  -12.5e1 pips" = (-125)%float /\
  parseFloat "0.1" = (1 / 10)%float /\
  parseFloat ".5" = 0.5%float /\
  parseFloat "5.e3" = 5000%float /\
  parseFloat "9007199254740993" = 9007199254740992%float /\
  parseFloat "1e400" = Infinity /\
  parseFloat "-Infinity" = PrimFloat.neg_infinity /\
  parseFloat "-0" = PrimFloat.neg_zero /\
  parseFloat "" = NaN /\
  parseFloat "n/a" = NaN /\
  parseFloat "." = NaN.
Proof. vm_compute. repeat split. Qed.

Example toFixed_values :
  toFixed 2 7%float = "7.00" /\
  toFixed 1 50%float = "50.0" /\
  toFixed 1 6.25%float = "6.3" /\
  toFixed 0 2.5%float = "3" /\
  toFixed 2 (parseFloat "1.005") = "1.00" /\
  toFixed 2 (parseFloat "-0.001") = "-0.00" /\
  toFixed 2 PrimFloat.neg_zero = "0.00" /\
  toFixed 2 (0 / 0)%float = "NaN" /\
  toFixed 2 (1 / 0)%float = "Infinity" /\
  toFixed 2 1e21%float = "1e+21" /\
  toFixed 2 1180591620717411303424%float = "1.1805916207174113e+21".
Proof. vm_compute. repeat split. Qed.

(** ** Running the monad *)

Lemma bind_unfold {A B} (m : M A) (f : A -> M B) (s : State) :
  (m ≫= f) s =
  match m s with
  | (Normal a, s') => f a s'
  | (Throw e, s') => (Throw e, s')
  end.
Proof. reflexivity. Qed.

Lemma bind_normal {A B} (m : M A) (f : A -> M B) (s s' : State) (a : A) :
  m s = (Normal a, s') -> (m ≫= f) s = f a s'.
Proof. intros H. rewrite bind_unfold, H. reflexivity. Qed.

Lemma bind_throw {A B} (m : M A) (f : A -> M B) (s s' : State) (e : JsError) :
  m s = (Throw e, s') -> (m ≫= f) s = (Throw e, s').
Proof. intros H. rewrite bind_unfold, H. reflexivity. Qed.

Lemma element_Some (id : string) (s : State) (el : Element) :
  document s !! id = Some el -> element id s = (Normal el, s).
Proof.
  intros H. unfold element, getElementById, gets.
  rewrite bind_unfold, H. reflexivity.
Qed.

Lemma update_Some (id : string) (f : Element -> Element) (s : State) (el : Element) :
  document s !! id = Some el ->
  update id f s = (Normal tt, set_document (<[id := f el]> (document s)) s).
Proof.
  intros H. unfold update.
  rewrite (bind_normal _ _ _ _ _ (element_Some _ _ _ H)). reflexivity.
Qed.

Lemma get_value_Some (id : string) (s : State) (el : Element) :
  document s !! id = Some el -> get_value id s = (Normal (value el), s).
Proof.
  intros H. unfold get_value.
  rewrite (bind_normal _ _ _ _ _ (element_Some _ _ _ H)). reflexivity.
Qed.

Lemma try_catch_bind_normal {A B} (m : M A) (f : A -> M B) (h : JsError -> M B)
    (s s' : State) (a : A) :
  m s = (Normal a, s') -> try_catch (m ≫= f) h s = try_catch (f a) h s'.
Proof. intros H. unfold try_catch. rewrite (bind_normal _ _ _ _ _ H). reflexivity. Qed.

(** ** Preservation of a property of the state *)

Section Preserves.

Context (P : State -> Prop).

Lemma preserves_ret {A} (a : A) : preserves P (mret a).
Proof. intros s H. exact H. Qed.

Lemma preserves_throw {A} (e : JsError) : preserves P (throw (A := A) e).
Proof. intros s H. exact H. Qed.

Lemma preserves_gets {A} (f : State -> A) : preserves P (gets f).
Proof. intros s H. exact H. Qed.

Lemma preserves_bind {A B} (m : M A) (f : A -> M B) :
  preserves P m -> (forall a, preserves P (f a)) -> preserves P (m ≫= f).
Proof.
  intros Hm Hf s H. rewrite bind_unfold.
  specialize (Hm s H). destruct (m s) as [[a|e] s']; [apply Hf|]; exact Hm.
Qed.

Lemma preserves_try_catch {A} (body : M A) (handler : JsError -> M A) :
  preserves P body -> (forall e, preserves P (handler e)) ->
  preserves P (try_catch body handler).
Proof.
  intros Hm Hf s H. unfold try_catch.
  specialize (Hm s H). destruct (body s) as [[a|e] s']; [|apply Hf]; exact Hm.
Qed.

Lemma preserves_modify (f : State -> State) :
  (forall s, P s -> P (f s)) -> preserves P (modify f).
Proof. intros Hf s H. apply Hf, H. Qed.

End Preserves.

Create HintDb preserves.

#[export] Hint Resolve preserves_ret preserves_throw preserves_gets : preserves.
#[export] Hint Extern 0 (Frame _) => typeclasses eauto : preserves.
#[export] Hint Extern 0 (StoreOnly _) => typeclasses eauto : preserves.

Ltac stable :=
  intros;
  repeat first
    [ assumption
    | apply frame_document | apply frame_alerts | apply frame_listeners
    | apply frame_db | apply frame_currentProfile | apply frame_currentAccount
    | apply frame_accounts | apply frame_trades ].

(** One step through the structure of a computation: a lemma already
    proved for the function at hand, or the rule of its outermost form. *)
Ltac preserves_step :=
  first
    [ assumption
    | solve [eauto 3 with preserves]
    | lazymatch goal with
      | |- preserves _ (mret _) => apply preserves_ret
      | |- preserves _ (throw _) => apply preserves_throw
      | |- preserves _ (gets _) => apply preserves_gets
      | |- preserves _ (modify _) => apply preserves_modify; solve [stable]
      | |- preserves _ (mbind _ _) => apply preserves_bind; [|intros ?]
      | |- preserves _ (try_catch _ _) => apply preserves_try_catch; [|intros ?]
      | |- preserves _ (match ?x with _ => _ end) => destruct x
      | |- preserves _ (let _ := _ in _) => cbv zeta
      end ].

Ltac preserves := repeat preserves_step.

Section Frame.

Context (toLocaleString : Number -> string).
Context (P : State -> Prop) `{!Frame P}.

Lemma preserves_alert (text : string) : preserves P (alert text).
Proof. unfold alert. preserves. Qed.

Lemma preserves_getElementById (id : string) : preserves P (getElementById id).
Proof. unfold getElementById. preserves. Qed.

Lemma preserves_element (id : string) : preserves P (element id).
Proof. unfold element. pose proof (preserves_getElementById id). preserves. Qed.

Lemma preserves_update (id : string) (f : Element -> Element) :
  preserves P (update id f).
Proof. unfold update. pose proof (preserves_element id). preserves. Qed.

Lemma preserves_get_value (id : string) : preserves P (get_value id).
Proof. unfold get_value. pose proof (preserves_element id). preserves. Qed.

Lemma preserves_set_textContent (id text : string) :
  preserves P (set_textContent id text).
Proof. apply preserves_update. Qed.

Hint Resolve preserves_alert preserves_getElementById preserves_element
  preserves_update preserves_get_value preserves_set_textContent : preserves.

Lemma preserves_showMainApp : preserves P showMainApp.
Proof. unfold showMainApp. preserves. Qed.

Lemma preserves_openAccountModal : preserves P openAccountModal.
Proof. unfold openAccountModal. preserves. Qed.

Lemma preserves_closeAccountModal : preserves P closeAccountModal.
Proof. unfold closeAccountModal. preserves. Qed.

Lemma preserves_openTradeModal : preserves P openTradeModal.
Proof. unfold openTradeModal. preserves. Qed.

Lemma preserves_closeTradeModal : preserves P closeTradeModal.
Proof. unfold closeTradeModal. preserves. Qed.

Lemma preserves_renderAccounts : preserves P renderAccounts.
Proof. unfold renderAccounts. preserves. Qed.

Lemma preserves_renderTrades : preserves P renderTrades.
Proof. unfold renderTrades. preserves. Qed.

Lemma preserves_updateStats : preserves P (updateStats toLocaleString).
Proof. unfold updateStats. preserves. Qed.

Lemma preserves_reset (form_id : string) : preserves P (reset form_id).
Proof. unfold reset. preserves. Qed.

Lemma preserves_readAccountForm : preserves P readAccountForm.
Proof. unfold readAccountForm. preserves. Qed.

Lemma preserves_readTradeForm (account : Account.t) (now : string) :
  preserves P (readTradeForm account now).
Proof. unfold readTradeForm. preserves. Qed.

Lemma preserves_calculateRR : preserves P calculateRR.
Proof. unfold calculateRR. preserves. Qed.

Lemma preserves_db_select {R} (query : Store.t -> R) : preserves P (db_select query).
Proof. unfold db_select. preserves. Qed.

End Frame.

#[export] Hint Resolve preserves_alert preserves_getElementById preserves_element
  preserves_update preserves_get_value preserves_set_textContent
  preserves_showMainApp preserves_openAccountModal preserves_closeAccountModal
  preserves_openTradeModal preserves_closeTradeModal preserves_renderAccounts
  preserves_renderTrades preserves_updateStats preserves_reset
  preserves_readAccountForm preserves_readTradeForm preserves_calculateRR
  preserves_db_select : preserves.

(** ** Properties of the store alone *)

#[export] Instance store_only (Q : Store.t -> Prop) : StoreOnly (fun s => Q (store s)).
Proof. split; [split|..]; intros v s H; exact H. Qed.

#[export] Instance store_eq_only (st : Store.t) : StoreOnly (fun s => store s = st).
Proof. exact (store_only (fun x => x = st)). Qed.

#[export] Instance frame_trades_store (ts : list Trade.t) (st : Store.t) :
  Frame (fun s => trades s = ts /\ store s = st).
Proof. split; intros v s H; exact H. Qed.

Section StoreOnly.

Context (toLocaleString : Number -> string).
Context (P : State -> Prop) `{!StoreOnly P}.

Lemma preserves_loadProfile : preserves P loadProfile.
Proof. unfold loadProfile. preserves. Qed.

Lemma preserves_loadAccounts : preserves P loadAccounts.
Proof. unfold loadAccounts. preserves. Qed.

Lemma preserves_loadTrades (accountId : Z) : preserves P (loadTrades accountId).
Proof. unfold loadTrades. preserves. Qed.

Lemma preserves_addEventListener (id type : string) (l : Listener) :
  preserves P (addEventListener id type l).
Proof. unfold addEventListener. preserves. Qed.

Lemma preserves_setupProfileForm : preserves P setupProfileForm.
Proof. unfold setupProfileForm. pose proof preserves_addEventListener. preserves. Qed.

Lemma preserves_setupAccountForm : preserves P setupAccountForm.
Proof. unfold setupAccountForm. pose proof preserves_addEventListener. preserves. Qed.

Lemma preserves_setupTradeForm : preserves P setupTradeForm.
Proof. unfold setupTradeForm. pose proof preserves_addEventListener. preserves. Qed.

Lemma preserves_selectAccount (id : Z) : preserves P (selectAccount id).
Proof. unfold selectAccount. pose proof preserves_loadTrades. preserves. Qed.

Lemma preserves_inline (h : Inline) : preserves P (inline h).
Proof. pose proof preserves_selectAccount. destruct h; cbn [inline]; preserves. Qed.

End StoreOnly.

#[export] Hint Resolve preserves_loadProfile preserves_loadAccounts
  preserves_loadTrades preserves_addEventListener preserves_setupProfileForm
  preserves_setupAccountForm preserves_setupTradeForm preserves_selectAccount
  preserves_inline : preserves.

(** ** The store behind [db] *)

Lemma db_select_in_service {R} (query : Store.t -> R) (s : State) :
  in_service s -> db_select query s = (Normal (query (store s)), s).
Proof.
  intros [[conn Hdb] Hfault]. unfold db_select.
  rewrite bind_unfold. unfold gets at 1. rewrite Hdb.
  rewrite bind_unfold. unfold gets at 1. rewrite Hfault. reflexivity.
Qed.

Lemma db_execute_in_service
    (statement : Store.t -> Store.QueryResult * Store.t) (s : State) :
  in_service s ->
  db_execute statement s
  = (Normal (fst (statement (store s))), set_store (snd (statement (store s))) s).
Proof.
  intros [[conn Hdb] Hfault]. unfold db_execute.
  rewrite bind_unfold. unfold gets at 1. rewrite Hdb.
  rewrite bind_unfold. unfold gets at 1. rewrite Hfault.
  destruct (statement (store s)) as [res st']. reflexivity.
Qed.

Lemma db_select_out_of_service {R} (query : Store.t -> R) (msg : string) (s : State) :
  out_of_service msg s -> db_select query s = (Throw (StorageError msg), s).
Proof.
  intros [[conn Hdb] Hfault]. unfold db_select.
  rewrite bind_unfold. unfold gets at 1. rewrite Hdb.
  rewrite bind_unfold. unfold gets at 1. rewrite Hfault. reflexivity.
Qed.

Lemma db_execute_out_of_service
    (statement : Store.t -> Store.QueryResult * Store.t) (msg : string) (s : State) :
  out_of_service msg s -> db_execute statement s = (Throw (StorageError msg), s).
Proof.
  intros [[conn Hdb] Hfault]. unfold db_execute.
  rewrite bind_unfold. unfold gets at 1. rewrite Hdb.
  rewrite bind_unfold. unfold gets at 1. rewrite Hfault. reflexivity.
Qed.

(** *** The write operations *)

Lemma saveProfile_in_service (profile : Profile.t) (s : State) :
  in_service s ->
  saveProfile profile s
  = (Normal (Store.result 1 1),
     set_store (snd (Store.insert_or_replace_profile (profile_row profile) (store s))) s).
Proof.
  intros H. unfold saveProfile, try_catch.
  rewrite bind_unfold. unfold gets at 1.
  destruct H as [[conn Hdb] Hfault]. rewrite Hdb.
  rewrite db_execute_in_service by (split; [eauto|assumption]). reflexivity.
Qed.

Lemma saveAccount_in_service (account : AccountFields.t) (s : State) :
  in_service s ->
  saveAccount account s
  = (Normal tt,
     set_store (snd (Store.insert_account (account_row account) (store s))) s).
Proof.
  intros H. unfold saveAccount.
  rewrite (bind_normal _ _ _ _ _ (db_execute_in_service _ _ H)). reflexivity.
Qed.

Lemma saveTrade_in_service (trade : TradeFields.t) (s : State) :
  in_service s ->
  saveTrade trade s
  = (Normal tt,
     set_store (snd (Store.insert_trade (trade_row trade) (store s))) s).
Proof.
  intros H. unfold saveTrade.
  rewrite (bind_normal _ _ _ _ _ (db_execute_in_service _ _ H)). reflexivity.
Qed.

Lemma saveProfile_out_of_service (profile : Profile.t) (msg : string) (s : State) :
  out_of_service msg s -> saveProfile profile s = (Throw (StorageError msg), s).
Proof.
  intros H. unfold saveProfile, try_catch.
  rewrite bind_unfold. unfold gets at 1.
  destruct H as [[conn Hdb] Hfault]. rewrite Hdb.
  rewrite db_execute_out_of_service with (msg := msg) by (split; [eauto|assumption]).
  reflexivity.
Qed.

Lemma saveAccount_out_of_service (account : AccountFields.t) (msg : string) (s : State) :
  out_of_service msg s -> saveAccount account s = (Throw (StorageError msg), s).
Proof.
  intros H. unfold saveAccount.
  rewrite (bind_throw _ _ _ _ _ (db_execute_out_of_service _ _ _ H)). reflexivity.
Qed.

Lemma saveTrade_out_of_service (trade : TradeFields.t) (msg : string) (s : State) :
  out_of_service msg s -> saveTrade trade s = (Throw (StorageError msg), s).
Proof.
  intros H. unfold saveTrade.
  rewrite (bind_throw _ _ _ _ _ (db_execute_out_of_service _ _ _ H)). reflexivity.
Qed.

(** *** The read operations *)

Lemma loadProfile_in_service (s : State) :
  in_service s ->
  loadProfile s
  = (Normal match Store.select_profile 1 (store s) with
            | row :: _ => Some (Profile.mk (ProfileRow.name row) (ProfileRow.currency row))
            | [] => None
            end, s).
Proof.
  intros H. unfold loadProfile, try_catch.
  rewrite (bind_normal _ _ _ _ _ (db_select_in_service _ _ H)).
  destruct (Store.select_profile 1 (store s)); reflexivity.
Qed.

Lemma loadProfile_out_of_service (msg : string) (s : State) :
  out_of_service msg s -> loadProfile s = (Normal None, s).
Proof.
  intros H. unfold loadProfile, try_catch.
  rewrite (bind_throw _ _ _ _ _ (db_select_out_of_service _ _ _ H)). reflexivity.
Qed.

Lemma loadAccounts_out_of_service (msg : string) (s : State) :
  out_of_service msg s -> loadAccounts s = (Normal tt, s).
Proof.
  intros H. unfold loadAccounts, try_catch.
  rewrite (bind_throw _ _ _ _ _ (db_select_out_of_service _ _ _ H)). reflexivity.
Qed.

Lemma loadTrades_out_of_service (accountId : Z) (msg : string) (s : State) :
  out_of_service msg s -> loadTrades accountId s = (Normal tt, s).
Proof.
  intros H. unfold loadTrades, try_catch.
  rewrite (bind_throw _ _ _ _ _ (db_select_out_of_service _ _ _ H)). reflexivity.
Qed.

(** The read operations complete normally, whatever happens inside. *)
Lemma loadAccounts_normal (s : State) : fst (loadAccounts s) = Normal tt.
Proof.
  unfold loadAccounts, try_catch.
  match goal with
  | |- fst (match ?m with _ => _ end) = _ => destruct m as [[[]|e] s']
  end; reflexivity.
Qed.

Lemma loadTrades_normal (accountId : Z) (s : State) :
  fst (loadTrades accountId s) = Normal tt.
Proof.
  unfold loadTrades, try_catch.
  match goal with
  | |- fst (match ?m with _ => _ end) = _ => destruct m as [[[]|e] s']
  end; reflexivity.
Qed.

Lemma loadTrades_in_service (accountId : Z) (s : State) :
  in_service s ->
  trades (exec (loadTrades accountId) s)
  = trade_of_row <$> Store.select_trades accountId (store s).
Proof.
  intros H. unfold exec, loadTrades, try_catch.
  rewrite (bind_normal _ _ _ _ _ (db_select_in_service _ _ H)).
  rewrite bind_unfold. cbn [modify].
  set (s1 := set_trades _ s).
  pose proof (preserves_renderTrades (fun s' => trades s' = trades s1)
                (Frame0 := ltac:(split; intros; assumption)) s1 eq_refl) as Hr.
  destruct (renderTrades s1) as [[[]|e] s2]; exact Hr.
Qed.

(** ** Decimal numerals *)

Lemma append_cons (c : ascii) (a b : string) : String c a ++ b = String c (a ++ b).
Proof. reflexivity. Qed.

Lemma append_nil (b : string) : "" ++ b = b.
Proof. reflexivity. Qed.

Lemma split_point_no_point (s : string) :
  no_point s = true -> Spec.split_point s = (s, None).
Proof.
  induction s as [|c s IH]; [reflexivity|]. cbn [no_point Spec.split_point].
  intros H. apply andb_true_iff in H as [Hc Hs].
  apply negb_true_iff in Hc. rewrite Hc, (IH Hs). reflexivity.
Qed.

Lemma split_point_app (a b : string) :
  no_point a = true -> Spec.split_point (a ++ String "." b) = (a, Some b).
Proof.
  induction a as [|c a IH]; [reflexivity|].
  rewrite append_cons. cbn [no_point Spec.split_point].
  intros H. apply andb_true_iff in H as [Hc Ha].
  apply negb_true_iff in Hc. rewrite Hc, (IH Ha). reflexivity.
Qed.

Lemma no_point_app (a b : string) :
  no_point (a ++ b) = no_point a && no_point b.
Proof.
  induction a as [|c a IH]; [reflexivity|].
  rewrite append_cons. cbn [no_point].
  rewrite IH, andb_assoc. reflexivity.
Qed.

Lemma no_point_substring (n m : nat) (s : string) :
  no_point s = true -> no_point (substring n m s) = true.
Proof.
  revert n m. induction s as [|c s IH]; intros n m H.
  - destruct n, m; reflexivity.
  - cbn [no_point] in H. apply andb_true_iff in H as [Hc Hs].
    destruct n as [|n]; [destruct m as [|m]|]; cbn [substring no_point].
    + reflexivity.
    + rewrite Hc. apply IH, Hs.
    + apply IH, Hs.
Qed.

Lemma no_point_zeros (k : nat) : no_point (zeros k) = true.
Proof. induction k as [|k IH]; [reflexivity|exact IH]. Qed.

Lemma no_point_uint (d : uint) : no_point (NilEmpty.string_of_uint d) = true.
Proof. induction d; cbn [NilEmpty.string_of_uint no_point]; try reflexivity; assumption. Qed.

Lemma no_point_decimal (n : Z) : no_point (decimal n) = true.
Proof.
  unfold decimal, NilZero.string_of_uint.
  destruct (N.to_uint (Z.to_N n)); try reflexivity; apply no_point_uint.
Qed.

Lemma length_append (a b : string) :
  String.length (a ++ b) = (String.length a + String.length b)%nat.
Proof.
  induction a as [|c a IH]; [reflexivity|].
  rewrite append_cons. cbn [String.length]. rewrite IH. reflexivity.
Qed.

Lemma length_zeros (k : nat) : String.length (zeros k) = k.
Proof. induction k as [|k IH]; [reflexivity|]. cbn. rewrite IH. reflexivity. Qed.

Lemma append_empty (a : string) : a ++ "" = a.
Proof.
  induction a as [|c a IH]; [reflexivity|]. rewrite append_cons, IH. reflexivity.
Qed.

Lemma length_empty (a : string) : String.length a = 0%nat -> a = "".
Proof. destruct a; [reflexivity|discriminate]. Qed.

Lemma substring_split (a b : nat) (s : string) :
  (a + b)%nat = String.length s ->
  substring 0 a s ++ substring a b s = s
  /\ String.length (substring 0 a s) = a
  /\ String.length (substring a b s) = b.
Proof.
  revert a b. induction s as [|c s IH]; intros a b H.
  - cbn in H. assert (a = 0%nat) as -> by lia. assert (b = 0%nat) as -> by lia.
    repeat split.
  - cbn [String.length] in H. destruct a as [|a].
    + destruct b as [|b]; [discriminate|]. cbn [substring]. rewrite append_nil.
      destruct (IH (String.length s) 0%nat ltac:(lia)) as (H1 & H2 & H3).
      apply length_empty in H3. rewrite H3, append_empty in H1.
      assert (b = String.length s) as -> by (cbn in H; lia).
      rewrite H1. cbn [String.length]. repeat split.
    + destruct (IH a b ltac:(lia)) as (H1 & H2 & H3).
      cbn [substring String.length]. rewrite append_cons.
      rewrite H1, H2, H3. repeat split.
Qed.

(** The digits of [n], read back. *)
Lemma decimal_nonempty (n : Z) : decimal n <> "".
Proof.
  unfold decimal, NilZero.string_of_uint.
  pose proof (DecimalN.Unsigned.of_to (Z.to_N n)) as H.
  destruct (N.to_uint (Z.to_N n)) eqn:E; cbn [NilEmpty.string_of_uint]; discriminate.
Qed.

Lemma uint_of_decimal (n : Z) :
  NilEmpty.uint_of_string (decimal n) = Some (N.to_uint (Z.to_N n)).
Proof.
  unfold decimal, NilZero.string_of_uint.
  destruct (N.to_uint (Z.to_N n)) eqn:E; try (rewrite <- E at 1; rewrite E; apply NilEmpty.usu).
  exfalso. destruct (Z.to_N n) as [|p]; [discriminate|].
  cbn in E. apply (DecimalPos.Unsigned.to_uint_nonnil p), E.
Qed.

Lemma uint_of_zeros (k : nat) (s : string) :
  NilEmpty.uint_of_string (zeros k ++ s)
  = Nat.iter k D0 <$> NilEmpty.uint_of_string s.
Proof.
  induction k as [|k IH]; cbn [zeros Nat.iter].
  - rewrite append_nil. destruct (NilEmpty.uint_of_string s); reflexivity.
  - rewrite append_cons. cbn [NilEmpty.uint_of_string]. rewrite IH.
    destruct (NilEmpty.uint_of_string s); reflexivity.
Qed.

Lemma of_uint_zeros (k : nat) (d : uint) : N.of_uint (Nat.iter k D0 d) = N.of_uint d.
Proof. induction k as [|k IH]; [reflexivity|exact IH]. Qed.

Lemma read_padded (k : nat) (n : Z) :
  0 <= n ->
  exists d, NilEmpty.uint_of_string (zeros k ++ decimal n) = Some d
            /\ Z.of_N (N.of_uint d) = n.
Proof.
  intros Hn. rewrite uint_of_zeros, uint_of_decimal. eexists. split; [reflexivity|].
  rewrite of_uint_zeros, DecimalN.Unsigned.of_to. apply Z2N.id, Hn.
Qed.

Lemma read_unsigned_parts (s int : string) (frac : option string) (d : uint) :
  Spec.split_point s = (int, frac) -> int <> "" ->
  NilEmpty.uint_of_string (int ++ match frac with Some frac => frac | None => "" end) = Some d ->
  Spec.read_unsigned s = Some (Z.of_N (N.of_uint d), String.length (match frac with Some frac => frac | None => "" end)).
Proof.
  intros Hs Hne Hd. unfold Spec.read_unsigned. rewrite Hs.
  destruct int as [|c r]; [congruence|]. rewrite Hd. reflexivity.
Qed.

Lemma read_fixed_digits (f : nat) (n : Z) :
  0 <= n -> Spec.read_unsigned (fixed_digits f n) = Some (n, f).
Proof.
  intros Hn. unfold fixed_digits.
  destruct f as [|f].
  - destruct (read_padded 0 n Hn) as (d & Hd & Hv). cbn [zeros] in Hd.
    rewrite append_nil in Hd.
    rewrite (read_unsigned_parts (decimal n) (decimal n) None d).
    + rewrite Hv. reflexivity.
    + apply split_point_no_point, no_point_decimal.
    + apply decimal_nonempty.
    + cbv iota. rewrite append_empty. exact Hd.
  - cbv zeta.
    set (M := zeros (S (S f) - String.length (decimal n)) ++ decimal n).
    assert (HM : (S (S f) <= String.length M)%nat)
      by (unfold M; rewrite length_append, length_zeros; lia).
    destruct (substring_split (String.length M - S f) (S f) M ltac:(lia)) as (H1 & H2 & H3).
    assert (Hnp : no_point M = true)
      by (unfold M; rewrite no_point_app, no_point_zeros, no_point_decimal; reflexivity).
    destruct (read_padded (S (S f) - String.length (decimal n)) n Hn) as (d & Hd & Hv).
    fold M in Hd.
    rewrite (read_unsigned_parts _ (substring 0 (String.length M - S f) M)
               (Some (substring (String.length M - S f) (S f) M)) d).
    + cbv iota. rewrite Hv, H3. reflexivity.
    + apply split_point_app, no_point_substring, Hnp.
    + intros E. rewrite E in H2. cbn [String.length] in H2. lia.
    + cbv iota. rewrite H1. exact Hd.
Qed.

Lemma read_unsigned_minus (s : string) : Spec.read_unsigned (String "-" s) = None.
Proof.
  unfold Spec.read_unsigned. cbn [Spec.split_point].
  change ("-" =? ".")%char with false. cbv iota.
  destruct (Spec.split_point s) as [int frac].
  rewrite append_cons. cbn [NilEmpty.uint_of_string].
  destruct (NilEmpty.uint_of_string (int ++ match frac with Some frac => frac | None => "" end)); reflexivity.
Qed.

Lemma read_fixed (neg : bool) (f : nat) (n : Z) :
  0 <= n ->
  Spec.read ((if neg then "-" else "") ++ fixed_digits f n) = Some (Spec.decimal_of neg n f).
Proof.
  intros Hn. unfold Spec.read. destruct neg.
  - change ("-" ++ fixed_digits f n) with (String "-" (fixed_digits f n)).
    rewrite read_unsigned_minus, (read_fixed_digits f n Hn). reflexivity.
  - rewrite append_nil, (read_fixed_digits f n Hn). reflexivity.
Qed.

(** ** [toFixed] rounds to the nearest decimal *)

Lemma round_half_up_nonneg (m : positive) (e : Z) (f : nat) :
  0 <= round_half_up (Zpos m) e f.
Proof.
  unfold round_half_up. destruct e as [|p|p].
  - rewrite Z.mul_1_r. apply Z.mul_nonneg_nonneg; [lia|]. apply Z.pow_nonneg. lia.
  - apply Z.mul_nonneg_nonneg; [|apply Z.pow_nonneg; lia].
    apply Z.mul_nonneg_nonneg; [lia|]. apply Z.pow_nonneg. lia.
  - apply Z.div_pos; [|apply Z.pow_pos_nonneg; lia].
    assert (0 <= 10 ^ Z.of_nat f) by (apply Z.pow_nonneg; lia).
    assert (0 <= 2 ^ Zpos p) by (apply Z.pow_nonneg; lia). nia.
Qed.

Lemma units_finite (s : bool) (m : positive) (e : Z) (f : nat) :
  let q := match e with
           | Zneg p => Qmake (if s then Zneg m else Zpos m) (2 ^ p)
           | _ => Qmake ((if s then Zneg m else Zpos m) * 2 ^ e) 1
           end in
  Qfloor (Qplus (Qmult (Qabs q) (inject_Z (10 ^ Z.of_nat f))) (Qmake 1 2))
  = round_half_up (Zpos m) e f
  /\ (Qnum q <? 0) = s.
Proof.
  cbv zeta. unfold round_half_up.
  assert (H10 : 0 <= 10 ^ Z.of_nat f) by (apply Z.pow_nonneg; lia).
  assert (Habs : forall k, 0 < k -> Z.abs ((if s then Z.neg m else Z.pos m) * k) = Zpos m * k)
    by (intros k Hk; destruct s; rewrite Z.abs_mul; lia).
  destruct e as [|p|p];
    unfold Qabs.Qabs, Qmult, Qplus, Qfloor, inject_Z;
    cbn [QArith_base.Qnum QArith_base.Qden].
  - split.
    + rewrite (Habs (2 ^ 0) ltac:(reflexivity)).
      change (Z.pos (1 * 1)) with 1. change (Z.pos (1 * 1 * 2)) with 2.
      symmetry. apply (Z.div_unique _ 2 _ 1); lia.
    + destruct s; reflexivity.
  - assert (Hp : 0 < 2 ^ Zpos p) by (apply Z.pow_pos_nonneg; lia).
    split.
    + rewrite (Habs _ Hp).
      change (Z.pos (1 * 1)) with 1. change (Z.pos (1 * 1 * 2)) with 2.
      symmetry. apply (Z.div_unique _ 2 _ 1); lia.
    + destruct s; [apply Z.ltb_lt|apply Z.ltb_ge]; lia.
  - split.
    + replace (Z.abs (if s then Z.neg m else Z.pos m)) with (Zpos m)
        by (destruct s; reflexivity).
      rewrite !Pos2Z.inj_mul, Pos2Z.inj_pow, Z.pow_add_r by lia.
      f_equal; lia.
    + destruct s; reflexivity.
Qed.

Lemma toFixed_rounds (f : nat) (x : Number) :
  Spec.in_fixed_range x = true ->
  Spec.read (toFixed f x) = Some (Spec.rounded f (Spec.exact x)).
Proof.
  unfold Spec.in_fixed_range, toFixed, Spec.rounded, Spec.exact.
  destruct (Prim2SF x) as [sg|sg| |sg m e]; try discriminate.
  - intros _. pose proof (read_fixed false f 0 ltac:(lia)) as H0.
    cbv iota in H0. rewrite append_nil in H0. rewrite H0. reflexivity.
  - intros H. apply negb_true_iff in H. rewrite H. cbv zeta.
    rewrite (read_fixed sg f _ (round_half_up_nonneg m e f)).
    destruct (units_finite sg m e f) as [Hu Hs]. cbv zeta in Hu, Hs.
    rewrite Hu, Hs. reflexivity.
Qed.

(** ** The statistics aggregator *)

Lemma totalPnL_sum64 (ts : list Trade.t) :
  totalPnL ts = Spec.sum64 (Trade.profit <$> ts).
Proof.
  unfold totalPnL, Spec.sum64.
  generalize 0%float. induction ts as [|t ts IH]; intros acc; [reflexivity|].
  cbn [fold_left fmap list_fmap]. apply IH.
Qed.

Lemma totalVolume_sum64 (ts : list Trade.t) :
  totalVolume ts = Spec.sum64 (Trade.volume <$> ts).
Proof.
  unfold totalVolume, Spec.sum64.
  generalize 0%float. induction ts as [|t ts IH]; intros acc; [reflexivity|].
  cbn [fold_left fmap list_fmap]. apply IH.
Qed.

Lemma wins_wins64 (ts : list Trade.t) : wins ts = Spec.wins64 (Trade.profit <$> ts).
Proof.
  unfold wins, Spec.wins64. induction ts as [|t ts IH]; [reflexivity|].
  cbn [List.filter fmap list_fmap].
  destruct (PrimFloat.ltb 0 (Trade.profit t)); cbn [length]; rewrite IH; reflexivity.
Qed.

Lemma winRate_rate64 (ts : list Trade.t) :
  winRate ts = toFixed 1 (Spec.rate64 (Spec.wins64 (Trade.profit <$> ts)) (length ts)).
Proof. unfold winRate, Spec.rate64. rewrite wins_wins64. reflexivity. Qed.

Lemma ltb_exact (x : Number) :
  Spec.is_number x = true -> PrimFloat.ltb 0 x = (0 <? Qnum (Spec.exact x)).
Proof.
  unfold Spec.is_number, Spec.exact. rewrite FloatAxioms.ltb_spec.
  change (Prim2SF 0) with (S754_zero false).
  destruct (Prim2SF x) as [sg|sg| |sg m e]; try discriminate; intros _.
  - reflexivity.
  - unfold SFltb, SFcompare.
    destruct e as [|p|p]; cbn [QArith_base.Qnum]; destruct sg; try reflexivity.
    + symmetry. apply Z.ltb_ge.
      assert (0 < 2 ^ Zpos p) by (apply Z.pow_pos_nonneg; lia). lia.
    + symmetry. apply Z.ltb_lt.
      assert (0 < 2 ^ Zpos p) by (apply Z.pow_pos_nonneg; lia). lia.
Qed.

Lemma wins64_exact (xs : list Number) :
  Forall (fun x => Spec.is_number x = true) xs ->
  Spec.wins64 xs = Spec.count_positive (Spec.exact <$> xs).
Proof.
  unfold Spec.wins64, Spec.count_positive.
  induction 1 as [|x xs Hx _ IH]; [reflexivity|].
  cbn [List.filter fmap list_fmap]. rewrite (ltb_exact x Hx).
  destruct (0 <? Qnum (Spec.exact x)); cbn [length]; rewrite IH; reflexivity.
Qed.

Lemma rounded_wd (f : nat) (p q : Q) : Qeq p q -> Spec.rounded f p = Spec.rounded f q.
Proof.
  intros H. unfold Spec.rounded.
  assert (Hsign : (Qnum p <? 0) = (Qnum q <? 0)).
  { unfold Qeq in H.
    destruct (Z.ltb_spec (Qnum p) 0), (Z.ltb_spec (Qnum q) 0); try reflexivity; nia. }
  assert (Hfloor : Qfloor (Qplus (Qmult (Qabs p) (inject_Z (10 ^ Z.of_nat f))) (Qmake 1 2))
                   = Qfloor (Qplus (Qmult (Qabs q) (inject_Z (10 ^ Z.of_nat f)))
                               (Qmake 1 2))).
  { apply Qround.Qfloor_comp. apply QArith_base.Qplus_comp; [|apply QArith_base.Qeq_refl].
    apply QArith_base.Qmult_comp; [|apply QArith_base.Qeq_refl].
    apply Qabs.Qabs_wd, H. }
  rewrite Hsign, Hfloor. reflexivity.
Qed.

Lemma sum64_exact (xs : list Number) (acc : Number) :
  Spec.unrounded_from acc xs ->
  Qeq (Spec.exact (fold_left (fun acc x => (acc + x)%float) xs acc))
      (Qplus (Spec.exact acc) (Spec.sum (Spec.exact <$> xs))).
Proof.
  revert acc. induction xs as [|x xs IH]; intros acc H.
  - cbn [fold_left fmap list_fmap Spec.sum foldr].
    apply QArith_base.Qeq_sym, QArith_base.Qplus_0_r.
  - destruct H as [Hx Hxs]. cbn [fold_left fmap list_fmap Spec.sum foldr].
    eapply QArith_base.Qeq_trans; [apply (IH _ Hxs)|].
    eapply QArith_base.Qeq_trans;
      [apply QArith_base.Qplus_comp; [exact Hx|apply QArith_base.Qeq_refl]|].
    apply QArith_base.Qeq_sym, QArith_base.Qplus_assoc.
Qed.

Lemma sum64_unrounded (xs : list Number) :
  Spec.unrounded xs -> Qeq (Spec.exact (Spec.sum64 xs)) (Spec.sum (Spec.exact <$> xs)).
Proof.
  intros H. eapply QArith_base.Qeq_trans; [apply (sum64_exact xs 0%float H)|].
  apply QArith_base.Qplus_0_l.
Qed.

Lemma toFixed_nan (f : nat) (x : Number) : PrimFloat.is_nan x = true -> toFixed f x = "NaN".
Proof.
  unfold PrimFloat.is_nan, toFixed. rewrite FloatAxioms.eqb_spec.
  destruct (Prim2SF x) as [sg|sg| |sg m e]; try reflexivity.
  - destruct sg; discriminate.
  - destruct sg; discriminate.
  - unfold SFeqb, SFcompare. rewrite Z.compare_refl, Pos.compare_cont_refl.
    destruct sg; discriminate.
Qed.

Lemma round_half_up_nearest (m : Z) (p : positive) (f : nat) :
  let n := round_half_up m (Zneg p) f in
  (- 2 ^ Zpos p <= 2 * (m * 10 ^ Z.of_nat f - n * 2 ^ Zpos p) < 2 ^ Zpos p)%Z.
Proof.
  cbv zeta. unfold round_half_up.
  set (S := (m * 10 ^ Z.of_nat f)%Z). set (P := (2 ^ Zpos p)%Z).
  assert (HP : (0 < P)%Z) by (apply Z.pow_pos_nonneg; lia).
  replace (2 ^ (Zpos p + 1))%Z with (2 * P)%Z
    by (unfold P; rewrite Z.pow_add_r by lia; lia).
  pose proof (Z.div_mod (2 * S + P) (2 * P) ltac:(lia)) as Hdiv.
  pose proof (Z.mod_pos_bound (2 * S + P) (2 * P) ltac:(lia)) as Hmod.
  nia.
Qed.

(** C1: on the empty trade collection [updateStats] returns at once: it
    completes normally and leaves the whole state, the four statistics
    elements included, as it was. *)
Theorem updateStats_empty (toLocaleString : Number -> string) (s : State) :
  trades s = [] -> updateStats toLocaleString s = (Normal tt, s).
Proof.
  intros H. unfold updateStats. rewrite bind_unfold. unfold gets. rewrite H.
  reflexivity.
Qed.

Lemma updateStats_empty_witness :
  updateStats toLocaleString_en (set_trades [] Example.traded)
  = (Normal tt, set_trades [] Example.traded)
  /\ shown (set_trades [] Example.traded) "totalPnL" = Some (Text "USD 30.00").
Proof.
  split; [apply updateStats_empty|]; reflexivity.
Defined.

(** Against C2 as stated: the figures shown are not always those of the
    exact sum and the exactly rounded rate.  For the profits
    [1e16, 1, -1e16] the total shown is 0.00 where the sum, 1, gives 1.00;
    for 23 winning trades of 80 the rate shown is 28.7 where
    [23 / 80 * 100 = 28.75] rounds to 28.8. *)
Lemma rounded_sums_differ :
  (Trade.profit <$> trades Example.absorbed = [1e16; 1; -1e16]%float /\
   shown (exec (updateStats toLocaleString_en) Example.absorbed) "totalPnL"
     = Some (Text "USD 0.00") /\
   Spec.read "0.00" = Some (Spec.decimal_of false 0 2) /\
   Spec.rounded 2 (Spec.totalPnL (trades Example.absorbed))
     = Spec.decimal_of false 100 2) /\
  (Spec.tradeCount (trades Example.eighty) = 80%nat /\
   Spec.count_positive
     ((fun t => Spec.exact (Trade.profit t)) <$> trades Example.eighty) = 23%nat /\
   shown (exec (updateStats toLocaleString_en) Example.eighty) "winRate"
     = Some (Text "28.7%") /\
   Spec.read "28.7" = Some (Spec.decimal_of false 287 1) /\
   Spec.rounded 1 (Spec.winRate (trades Example.eighty))
     = Spec.decimal_of false 288 1).
Proof. vm_compute. repeat split. Qed.

(** C2, amended: on a non-empty sequence of trades, with a profile loaded
    and the four statistics elements on the page, [updateStats] completes
    normally and shows the number of trades, and three figures computed in
    binary64 arithmetic: the sum of the profits and the sum of the volumes,
    each taken from the left and rounded at every addition, and the win
    rate [wins / count * 100], the quotient and the product rounded, where
    [wins] counts the profits above zero (the exact count whenever the
    profits are numbers).  The total is printed to two decimals and the
    rate to one: for a number below [10^21] the numeral shown denotes the
    multiple of [1/100] (of [1/10]) nearest to the binary64 figure, ties
    away from zero; a total that is [NaN] is shown as [NaN].  The total
    shown is the exact sum, rounded, whenever no addition of the running
    sum rounds, and the rate shown is the exact rate, rounded, whenever the
    binary64 rate is the exact one; so it is for the profits [10, -3],
    which give 7.00 and 50.0. *)
Theorem updateStats_nonempty
    (toLocaleString : Number -> string) (s : State) (p : Profile.t) :
  trades s <> [] ->
  currentProfile s = Some p ->
  (forall id, id ∈ ["totalPnL"; "totalTrades"; "winRate"; "totalVolume"] ->
              is_Some (document s !! id)) ->
  let ts := trades s in
  let total := Spec.sum64 (Trade.profit <$> ts) in
  let rate := Spec.rate64 (Spec.wins64 (Trade.profit <$> ts)) (length ts) in
  let volume := Spec.sum64 (Trade.volume <$> ts) in
  (exists s',
    updateStats toLocaleString s = (Normal tt, s') /\
    shown s' "totalPnL" = Some (Text (Profile.currency p ++ " " ++ toFixed 2 total)) /\
    shown s' "winRate" = Some (Text (toFixed 1 rate ++ "%")) /\
    shown s' "totalVolume" = Some (Text (toLocaleString volume)) /\
    shown s' "totalTrades" = Some (Text (decimal (Z.of_nat (length ts))))) /\
  Spec.read (decimal (Z.of_nat (length ts)))
    = Some (Spec.decimal_of false (Z.of_nat (Spec.tradeCount ts)) 0) /\
  (Spec.in_fixed_range total = true ->
   Spec.read (toFixed 2 total) = Some (Spec.rounded 2 (Spec.exact total))) /\
  (Spec.in_fixed_range rate = true ->
   Spec.read (toFixed 1 rate) = Some (Spec.rounded 1 (Spec.exact rate))) /\
  (PrimFloat.is_nan total = true -> toFixed 2 total = "NaN") /\
  (Forall (fun t => Spec.is_number (Trade.profit t) = true) ts ->
   Spec.wins64 (Trade.profit <$> ts)
   = Spec.count_positive ((fun t => Spec.exact (Trade.profit t)) <$> ts)) /\
  (Spec.unrounded (Trade.profit <$> ts) ->
   Spec.rounded 2 (Spec.exact total) = Spec.rounded 2 (Spec.totalPnL ts)) /\
  (Qeq (Spec.exact rate) (Spec.winRate ts) ->
   Spec.rounded 1 (Spec.exact rate) = Spec.rounded 1 (Spec.winRate ts)) /\
  (forall t1 t2 : Trade.t,
    ts = [t1; t2] -> Trade.profit t1 = 10%float -> Trade.profit t2 = (-3)%float ->
    total = 7%float /\
    Spec.rounded 2 (Spec.exact total) = Spec.rounded 2 (Spec.totalPnL ts) /\
    Spec.read (toFixed 2 total) = Some (Spec.decimal_of false 700 2) /\
    Spec.rounded 1 (Spec.exact rate) = Spec.rounded 1 (Spec.winRate ts) /\
    Spec.read (toFixed 1 rate) = Some (Spec.decimal_of false 500 1)).
Proof.
  intros Hne Hp Hdoc ts total rate volume. split_and!.
  - destruct (Hdoc "totalPnL") as [e1 H1]; [set_solver|].
    destruct (Hdoc "totalTrades") as [e2 H2]; [set_solver|].
    destruct (Hdoc "winRate") as [e3 H3]; [set_solver|].
    destruct (Hdoc "totalVolume") as [e4 H4]; [set_solver|].
    unfold updateStats. rewrite bind_unfold. unfold gets at 1.
    subst total rate volume ts.
    destruct (trades s) as [|t ts] eqn:Hts; [congruence|].
    cbn [length Nat.eqb]. rewrite bind_unfold. unfold gets at 1. rewrite Hp.
    unfold set_textContent.
    erewrite bind_normal by (apply update_Some; exact H1).
    erewrite bind_normal
      by (apply update_Some; cbn [document set_document]; apply lookup_insert_eq).
    erewrite bind_normal by (apply update_Some; cbn [document set_document];
      rewrite !lookup_insert_ne by done; exact H2).
    erewrite bind_normal by (apply update_Some; cbn [document set_document];
      rewrite !lookup_insert_ne by done; exact H3).
    erewrite update_Some by (cbn [document set_document];
      rewrite !lookup_insert_ne by done; exact H4).
    eexists. split; [reflexivity|].
    unfold shown. cbn [document set_document].
    rewrite totalPnL_sum64, winRate_rate64, totalVolume_sum64.
    split_and!.
    + rewrite !lookup_insert_ne by done. rewrite lookup_insert_eq. reflexivity.
    + rewrite !lookup_insert_ne by done. rewrite lookup_insert_eq. reflexivity.
    + rewrite lookup_insert_eq. reflexivity.
    + rewrite !lookup_insert_ne by done. rewrite lookup_insert_eq. reflexivity.
  - pose proof (read_fixed false 0 (Z.of_nat (length ts)) ltac:(lia)) as H.
    cbv iota in H. rewrite append_nil in H. exact H.
  - apply toFixed_rounds.
  - apply toFixed_rounds.
  - apply toFixed_nan.
  - intros Hnum. rewrite (wins64_exact (Trade.profit <$> ts)).
    + rewrite <- list_fmap_compose. reflexivity.
    + apply Forall_fmap. exact Hnum.
  - intros Hex. apply rounded_wd. unfold Spec.totalPnL.
    pose proof (sum64_unrounded _ Hex) as Hq.
    rewrite <- list_fmap_compose in Hq. exact Hq.
  - apply rounded_wd.
  - intros t1 t2 Hts H1 H2. subst total rate. rewrite Hts.
    unfold Spec.totalPnL, Spec.winRate, Spec.tradeCount.
    cbn [fmap list_fmap length]. rewrite H1, H2.
    split_and!; vm_compute; reflexivity.
Qed.

Lemma updateStats_nonempty_witness :
  let ts := trades Example.traded in
  let total := Spec.sum64 (Trade.profit <$> ts) in
  let rate := Spec.rate64 (Spec.wins64 (Trade.profit <$> ts)) (length ts) in
  let volume := Spec.sum64 (Trade.volume <$> ts) in
  (total = 30%float /\ rate = 50%float /\ volume = 4%float /\
   Spec.in_fixed_range total = true /\ Spec.in_fixed_range rate = true /\
   Spec.unrounded (Trade.profit <$> ts) /\ Qeq (Spec.exact rate) (Spec.winRate ts)) /\
  (exists s',
    updateStats toLocaleString_en Example.traded = (Normal tt, s') /\
    shown s' "totalPnL" = Some (Text ("USD" ++ " " ++ toFixed 2 total)) /\
    shown s' "winRate" = Some (Text (toFixed 1 rate ++ "%")) /\
    shown s' "totalVolume" = Some (Text (toLocaleString_en volume)) /\
    shown s' "totalTrades" = Some (Text (decimal (Z.of_nat (length ts))))) /\
  Spec.read (decimal (Z.of_nat (length ts)))
    = Some (Spec.decimal_of false (Z.of_nat (Spec.tradeCount ts)) 0) /\
  (Spec.in_fixed_range total = true ->
   Spec.read (toFixed 2 total) = Some (Spec.rounded 2 (Spec.exact total))) /\
  (Spec.in_fixed_range rate = true ->
   Spec.read (toFixed 1 rate) = Some (Spec.rounded 1 (Spec.exact rate))) /\
  (PrimFloat.is_nan total = true -> toFixed 2 total = "NaN") /\
  (Forall (fun t => Spec.is_number (Trade.profit t) = true) ts ->
   Spec.wins64 (Trade.profit <$> ts)
   = Spec.count_positive ((fun t => Spec.exact (Trade.profit t)) <$> ts)) /\
  (Spec.unrounded (Trade.profit <$> ts) ->
   Spec.rounded 2 (Spec.exact total) = Spec.rounded 2 (Spec.totalPnL ts)) /\
  (Qeq (Spec.exact rate) (Spec.winRate ts) ->
   Spec.rounded 1 (Spec.exact rate) = Spec.rounded 1 (Spec.winRate ts)) /\
  (forall t1 t2 : Trade.t,
    ts = [t1; t2] -> Trade.profit t1 = 10%float -> Trade.profit t2 = (-3)%float ->
    total = 7%float /\
    Spec.rounded 2 (Spec.exact total) = Spec.rounded 2 (Spec.totalPnL ts) /\
    Spec.read (toFixed 2 total) = Some (Spec.decimal_of false 700 2) /\
    Spec.rounded 1 (Spec.exact rate) = Spec.rounded 1 (Spec.winRate ts) /\
    Spec.read (toFixed 1 rate) = Some (Spec.decimal_of false 500 1)).
Proof.
  split; [vm_compute; repeat split|].
  apply (updateStats_nonempty toLocaleString_en Example.traded
           (Profile.mk "ann" "USD")).
  - intros H. vm_compute in H. discriminate.
  - reflexivity.
  - intros id Hid.
    repeat (apply elem_of_cons in Hid as [->|Hid]); [vm_compute; eauto ..|].
    apply elem_of_nil in Hid. destruct Hid.
Defined.

(** ** Error propagation *)

Lemma faulty_out_of_service : out_of_service "disk I/O error" Example.faulty.
Proof. split; [eexists|]; reflexivity. Qed.

(** Against C3 as stated: with the storage out of service, the account-list
    and the trade-list reads fail inside [loadAccounts] and [loadTrades],
    and both operations complete normally, the state untouched: the error
    does not reach the caller. *)
Lemma read_errors_swallowed :
  db_select Store.select_accounts Example.faulty
    = (Throw (StorageError "disk I/O error"), Example.faulty) /\
  loadAccounts Example.faulty = (Normal tt, Example.faulty) /\
  db_select (Store.select_trades 1) Example.faulty
    = (Throw (StorageError "disk I/O error"), Example.faulty) /\
  loadTrades 1 Example.faulty = (Normal tt, Example.faulty).
Proof.
  pose proof faulty_out_of_service as H.
  split_and!.
  - apply db_select_out_of_service, H.
  - apply (loadAccounts_out_of_service _ _ H).
  - apply db_select_out_of_service, H.
  - apply (loadTrades_out_of_service _ _ _ H).
Qed.

(** C3, amended: the write operations surface the storage call's exception
    to their caller unchanged ([saveProfile] once the connection exists; it
    reports a missing connection itself).  The read operations do not:
    [loadAccounts] and [loadTrades] catch whatever the storage call throws
    and complete normally, and [loadProfile] answers [null] both when the
    read throws and when it finds no profile row; a read leaves the state,
    the collections loaded before included, as it was. *)
Theorem storage_error_policy :
  (forall p s e s',
      is_Some (db s) ->
      db_execute (Store.insert_or_replace_profile (profile_row p)) s = (Throw e, s') ->
      saveProfile p s = (Throw e, s')) /\
  (forall a, surfaces (db_execute (Store.insert_account (account_row a))) (saveAccount a)) /\
  (forall t, surfaces (db_execute (Store.insert_trade (trade_row t))) (saveTrade t)) /\
  swallows (db_select Store.select_accounts) loadAccounts tt /\
  (forall id, swallows (db_select (Store.select_trades id)) (loadTrades id) tt) /\
  swallows (db_select (Store.select_profile 1)) loadProfile None /\
  (forall s s',
      db_select (Store.select_profile 1) s = (Normal [], s') ->
      loadProfile s = (Normal None, s')) /\
  (forall R (query : Store.t -> R) s, snd (db_select query s) = s).
Proof.
  split_and!.
  - intros p s e s' [conn Hdb] H. unfold saveProfile, try_catch.
    rewrite bind_unfold. unfold gets at 1. rewrite Hdb, H. reflexivity.
  - intros a s e s' H. unfold saveAccount. apply (bind_throw _ _ _ _ _ H).
  - intros t s e s' H. unfold saveTrade. apply (bind_throw _ _ _ _ _ H).
  - intros s e s' H. unfold loadAccounts, try_catch.
    rewrite (bind_throw _ _ _ _ _ H). reflexivity.
  - intros id s e s' H. unfold loadTrades, try_catch.
    rewrite (bind_throw _ _ _ _ _ H). reflexivity.
  - intros s e s' H. unfold loadProfile, try_catch.
    rewrite (bind_throw _ _ _ _ _ H). reflexivity.
  - intros s s' H. unfold loadProfile, try_catch.
    rewrite (bind_normal _ _ _ _ _ H). reflexivity.
  - intros R query s. unfold db_select.
    rewrite bind_unfold. unfold gets at 1. destruct (db s); [|reflexivity].
    rewrite bind_unfold. unfold gets at 1.
    destruct (Store.fault (store s)); reflexivity.
Qed.

Lemma storage_error_policy_witness :
  saveProfile (Profile.mk "ann" "EUR") Example.faulty
    = (Throw (StorageError "disk I/O error"), Example.faulty) /\
  saveAccount
      (AccountFields.mk "Swing" "demo" 500%float 500%float "Y" "1:30" "") Example.faulty
    = (Throw (StorageError "disk I/O error"), Example.faulty) /\
  loadProfile Example.faulty = (Normal None, Example.faulty).
Proof.
  destruct storage_error_policy as (Hp & Ha & _ & _ & _ & Hl & _ & _).
  split; [|split].
  - apply Hp; [eexists|]; reflexivity.
  - apply Ha. reflexivity.
  - apply (Hl _ (StorageError "disk I/O error")). reflexivity.
Defined.

(** ** The profile store *)

Lemma select_profile_replaced (row : ProfileRow.t) (st : Store.t) :
  Store.select_profile (ProfileRow.id row)
    (snd (Store.insert_or_replace_profile row st)) = [row].
Proof.
  unfold Store.select_profile, Store.insert_or_replace_profile.
  cbn [snd Store.profile].
  rewrite filter_app.
  replace (filter (fun r => ProfileRow.id r = ProfileRow.id row) [row]) with [row]
    by (cbn; rewrite decide_True by reflexivity; reflexivity).
  induction (Store.profile st) as [|r l IH]; [reflexivity|].
  rewrite filter_cons. destruct (decide (ProfileRow.id r <> ProfileRow.id row)).
  - rewrite filter_cons_False by assumption. exact IH.
  - exact IH.
Qed.

Lemma in_service_set_store (st : Store.t) (s : State) :
  in_service s -> Store.fault st = Store.fault (store s) ->
  in_service (set_store st s).
Proof. intros [Hdb Hf] Heq. split; [exact Hdb|]. cbn. congruence. Qed.

Lemma saveProfile_loadProfile (p : Profile.t) (s : State) :
  in_service s ->
  in_service (exec (saveProfile p) s) /\
  Store.select_profile 1 (store (exec (saveProfile p) s)) = [profile_row p] /\
  loadProfile (exec (saveProfile p) s) = (Normal (Some p), exec (saveProfile p) s).
Proof.
  intros H. unfold exec. rewrite (saveProfile_in_service _ _ H). cbn [snd].
  set (s1 := set_store _ s).
  assert (H1 : in_service s1) by (apply in_service_set_store; [exact H|reflexivity]).
  assert (Hsel : Store.select_profile 1 (store s1) = [profile_row p])
    by apply (select_profile_replaced (profile_row p)).
  split; [exact H1|]. split; [exact Hsel|].
  rewrite (loadProfile_in_service _ H1), Hsel. destruct p; reflexivity.
Qed.

(** C6: with the storage in service, [saveProfile] completes normally and
    [loadProfile] then returns exactly the saved name and currency; after
    a second [saveProfile] it returns the second pair, and the second row
    is the only one the fixed key selects. *)
Theorem profile_round_trip (s : State) (p p' : Profile.t) :
  in_service s ->
  let s1 := exec (saveProfile p) s in
  let s2 := exec (saveProfile p') s1 in
  fst (saveProfile p s) = Normal (Store.result 1 1) /\
  loadProfile s1 = (Normal (Some p), s1) /\
  fst (saveProfile p' s1) = Normal (Store.result 1 1) /\
  loadProfile s2 = (Normal (Some p'), s2) /\
  Store.select_profile 1 (store s2) = [profile_row p'].
Proof.
  intros H s1 s2.
  destruct (saveProfile_loadProfile p s H) as (H1 & _ & Hl1).
  destruct (saveProfile_loadProfile p' s1 H1) as (_ & Hs2 & Hl2).
  split_and!.
  - rewrite (saveProfile_in_service _ _ H). reflexivity.
  - exact Hl1.
  - rewrite (saveProfile_in_service _ _ H1). reflexivity.
  - exact Hl2.
  - exact Hs2.
Qed.

Lemma profile_round_trip_witness :
  let s1 := exec (saveProfile (Profile.mk "bea" "EUR")) Example.started in
  let s2 := exec (saveProfile (Profile.mk "cy" "GBP")) s1 in
  fst (saveProfile (Profile.mk "bea" "EUR") Example.started)
    = Normal (Store.result 1 1) /\
  loadProfile s1 = (Normal (Some (Profile.mk "bea" "EUR")), s1) /\
  fst (saveProfile (Profile.mk "cy" "GBP") s1) = Normal (Store.result 1 1) /\
  loadProfile s2 = (Normal (Some (Profile.mk "cy" "GBP")), s2) /\
  Store.select_profile 1 (store s2) = [profile_row (Profile.mk "cy" "GBP")].
Proof.
  apply (profile_round_trip Example.started).
  split; [eexists|]; reflexivity.
Defined.

(** ** Invariants of the store *)

Section StoreInvariant.

Context (toLocaleString : Number -> string).
Context (Q : Store.t -> Prop) `{!StoreInvariant Q}.

Let P (s : State) : Prop := Q (store s).

#[local] Instance P_store_only : StoreOnly P := store_only Q.

Lemma preserves_db_execute (statement : Store.t -> Store.QueryResult * Store.t) :
  (forall st, Q st -> Q (snd (statement st))) ->
  preserves P (db_execute statement).
Proof.
  intros Hst s H. unfold db_execute.
  rewrite bind_unfold. unfold gets at 1.
  destruct (db s); [|exact H].
  rewrite bind_unfold. unfold gets at 1.
  destruct (Store.fault (store s)); [exact H|].
  specialize (Hst (store s) H).
  destruct (statement (store s)) as [res st']. exact Hst.
Qed.

Lemma preserves_saveProfile (p : Profile.t) : preserves P (saveProfile p).
Proof.
  unfold saveProfile.
  pose proof (preserves_db_execute _ (invariant_profile p)). preserves.
Qed.

Lemma preserves_saveAccount (a : AccountFields.t) : preserves P (saveAccount a).
Proof.
  unfold saveAccount.
  pose proof (preserves_db_execute _ (invariant_account (account_row a))). preserves.
Qed.

Lemma preserves_saveTrade (t : TradeFields.t) : preserves P (saveTrade t).
Proof.
  unfold saveTrade.
  pose proof (preserves_db_execute _ (invariant_trade (trade_row t))). preserves.
Qed.

Lemma preserves_testDatabase : preserves P testDatabase.
Proof.
  unfold testDatabase.
  pose proof (preserves_db_execute _ invariant_test_row). preserves.
Qed.

Lemma preserves_initDB : preserves P initDB.
Proof. unfold initDB, Database_load. preserves. Qed.

Lemma preserves_init : preserves P (init toLocaleString).
Proof. unfold init. pose proof preserves_initDB. preserves. Qed.

Lemma preserves_onProfileSubmit : preserves P onProfileSubmit.
Proof. unfold onProfileSubmit. pose proof preserves_saveProfile. preserves. Qed.

Lemma preserves_onAccountSubmit : preserves P onAccountSubmit.
Proof. unfold onAccountSubmit. pose proof preserves_saveAccount. preserves. Qed.

Lemma preserves_onTradeSubmit (now : string) :
  preserves P (onTradeSubmit toLocaleString now).
Proof. unfold onTradeSubmit. pose proof preserves_saveTrade. preserves. Qed.

Lemma preserves_onDOMContentLoaded :
  preserves P (onDOMContentLoaded toLocaleString).
Proof.
  unfold onDOMContentLoaded. cbn [mapM].
  pose proof preserves_init. pose proof preserves_testDatabase. preserves.
Qed.

Lemma preserves_listener (now : string) (l : Listener) :
  preserves P (listener toLocaleString now l).
Proof.
  pose proof preserves_onProfileSubmit. pose proof preserves_onAccountSubmit.
  pose proof preserves_onTradeSubmit.
  destruct l; cbn [listener]; preserves.
Qed.

Lemma dispatch_invariant (id type now : string) (s : State) :
  P s -> P (dispatch toLocaleString id type now s).
Proof.
  unfold dispatch. generalize (listeners s). intros ls. revert s.
  induction ls as [|[[id' type'] l] ls IH]; intros s H; [exact H|].
  cbn [fold_left]. apply IH.
  destruct (String.eqb id' id && String.eqb type' type); [|exact H].
  apply preserves_listener, H.
Qed.

Lemma handle_invariant (ev : Event) (s : State) :
  P s -> P (handle toLocaleString ev s).
Proof.
  intros H. destruct ev as [plugin page|form now|id text|h|f]; cbn [handle].
  - apply preserves_onDOMContentLoaded. exact H.
  - apply dispatch_invariant, H.
  - destruct (document s !! id); [|exact H]. apply dispatch_invariant. exact H.
  - apply (preserves_inline P h), H.
  - apply invariant_fault, H.
Qed.

Lemma run_invariant (evs : list Event) (s : State) :
  P s -> P (run toLocaleString evs s).
Proof.
  unfold run. revert s. induction evs as [|ev evs IH]; intros s H; [exact H|].
  cbn [fold_left]. apply IH, handle_invariant, H.
Qed.

(** Every reachable state has a store that satisfies [Q]. *)
Lemma reachable_invariant (s : State) :
  reachable toLocaleString s -> Q (store s).
Proof.
  intros [evs ->]. apply run_invariant. exact invariant_empty.
Qed.

End StoreInvariant.

(** ** The profile table *)

Lemma profile_keys_replaced (row : ProfileRow.t) (st : Store.t) :
  profile_keys (snd (Store.insert_or_replace_profile row st))
  = (filter (fun k => k <> ProfileRow.id row) (profile_keys st)
     ++ [ProfileRow.id row])%list.
Proof.
  unfold profile_keys, Store.insert_or_replace_profile. cbn [snd Store.profile].
  rewrite fmap_app. f_equal.
  induction (Store.profile st) as [|r l IH]; [reflexivity|].
  cbn [fmap list_fmap]. rewrite !filter_cons.
  destruct (decide (ProfileRow.id r <> ProfileRow.id row)); cbn [fmap list_fmap];
    rewrite IH; reflexivity.
Qed.

Lemma profile_table_ok_replaced (row : ProfileRow.t) (st : Store.t) :
  ProfileRow.id row = 1 \/ ProfileRow.id row = 999 ->
  profile_table_ok st ->
  profile_table_ok (snd (Store.insert_or_replace_profile row st)).
Proof.
  intros Hid [Hnd Hk]. unfold profile_table_ok.
  rewrite profile_keys_replaced. split.
  - apply NoDup_app. split_and!.
    + apply NoDup_filter, Hnd.
    + intros k Hin Hin'. apply list_elem_of_filter in Hin as [Hne _].
      apply list_elem_of_singleton in Hin'. contradiction.
    + apply NoDup_singleton.
  - intros k Hin. apply elem_of_app in Hin as [Hin|Hin].
    + apply list_elem_of_filter in Hin as [_ Hin]. apply Hk, Hin.
    + apply list_elem_of_singleton in Hin as ->. exact Hid.
Qed.

#[export] Instance profile_table_invariant : StoreInvariant profile_table_ok.
Proof.
  split.
  - split; [apply NoDup_nil_2|]. intros k Hk. apply elem_of_nil in Hk as [].
  - intros p st. apply profile_table_ok_replaced. left. reflexivity.
  - intros st. apply profile_table_ok_replaced. right. reflexivity.
  - intros row st H. exact H.
  - intros row st H. exact H.
  - intros f st H. exact H.
Qed.

Lemma profile_table_ok_bounds (st : Store.t) :
  profile_table_ok st ->
  (length (Store.select_profile 1 st) <= 1)%nat /\
  (length (Store.profile st) <= 2)%nat.
Proof.
  intros [Hnd Hk]. split.
  - assert (Hsub : ProfileRow.id <$> Store.select_profile 1 st ⊆+ [1]).
    { apply NoDup_submseteq.
      - unfold Store.select_profile.
        revert Hnd. unfold profile_keys.
        induction (Store.profile st) as [|r l IH]; [intros _; apply NoDup_nil_2|].
        cbn [fmap list_fmap]. rewrite NoDup_cons. intros [Hr Hl].
        rewrite filter_cons. destruct (decide (ProfileRow.id r = 1)); [|apply IH, Hl].
        cbn [fmap list_fmap]. apply NoDup_cons. split; [|apply IH, Hl].
        intros Hin. apply Hr. apply list_elem_of_fmap in Hin as (r' & Heq & Hin).
        apply list_elem_of_filter in Hin as [_ Hin].
        rewrite Heq. apply list_elem_of_fmap_2, Hin.
      - intros k Hin. apply list_elem_of_fmap in Hin as (r & -> & Hin).
        apply list_elem_of_filter in Hin as [-> _]. apply list_elem_of_singleton.
        reflexivity. }
    apply submseteq_length in Hsub. rewrite length_fmap in Hsub. exact Hsub.
  - assert (Hsub : profile_keys st ⊆+ [1; 999]).
    { apply NoDup_submseteq; [exact Hnd|]. intros k Hin.
      destruct (Hk k Hin) as [-> | ->].
      - apply list_elem_of_here.
      - apply list_elem_of_further, list_elem_of_here. }
    apply submseteq_length in Hsub. unfold profile_keys in Hsub.
    rewrite length_fmap in Hsub. exact Hsub.
Qed.

(** Against C4 as stated: after the first launch and the first save of a
    profile, the table holds two rows, the self-test's and the profile's. *)
Lemma two_profile_rows :
  reachable toLocaleString_en Example.started /\
  Store.profile (store Example.started)
  = [test_row; profile_row (Profile.mk "ann" "USD")].
Proof.
  split; [exists Example.setup|]; reflexivity.
Qed.

(** C4, amended: in every reachable state the profile table holds at most
    one row with the key 1 and at most two rows in all, every key being 1
    or 999, the key of the row [testDatabase] writes at start-up; and every
    [saveProfile] leaves its row as the only one with the key 1. *)
Theorem profile_singleton (toLocaleString : Number -> string) (s : State) :
  reachable toLocaleString s ->
  (length (Store.select_profile 1 (store s)) <= 1)%nat /\
  (length (Store.profile (store s)) <= 2)%nat /\
  (forall row, row ∈ Store.profile (store s) ->
               ProfileRow.id row = 1 \/ ProfileRow.id row = 999) /\
  (forall p, in_service s ->
             Store.select_profile 1 (store (exec (saveProfile p) s)) = [profile_row p]).
Proof.
  intros Hreach.
  pose proof (reachable_invariant toLocaleString profile_table_ok s Hreach) as Hok.
  destruct (profile_table_ok_bounds _ Hok) as [H1 H2].
  split_and!; [exact H1|exact H2|..].
  - intros row Hin. apply (proj2 Hok). apply list_elem_of_fmap_2, Hin.
  - intros p Hs. apply (saveProfile_loadProfile p s Hs).
Qed.

Lemma profile_singleton_witness :
  (length (Store.select_profile 1 (store Example.started)) <= 1)%nat /\
  (length (Store.profile (store Example.started)) <= 2)%nat /\
  (forall row, row ∈ Store.profile (store Example.started) ->
               ProfileRow.id row = 1 \/ ProfileRow.id row = 999) /\
  (forall p, in_service Example.started ->
             Store.select_profile 1 (store (exec (saveProfile p) Example.started))
             = [profile_row p]).
Proof.
  apply (profile_singleton toLocaleString_en Example.started).
  exists Example.setup. reflexivity.
Defined.

(** ** The trade store *)

#[local] Instance date_desc_trans : Transitive Store.date_desc.
Proof. intros x y z Hxy Hyz. unfold Store.date_desc in *. by etrans. Qed.

#[local] Instance date_desc_total : Total Store.date_desc.
Proof. intros x y. unfold Store.date_desc. apply (total String.le). Qed.

Lemma exec_bind_ret {A B} (m : M A) (g : A -> B) (s : State) :
  snd ((a ← m; mret (g a)) s) = snd (m s).
Proof. rewrite bind_unfold. destruct (m s) as [[a|e] s1]; reflexivity. Qed.

(** A sequence of calls of [saveTrade] appends one row per call, in the
    order of the calls, each holding what the call was passed. *)
Lemma saveTrade_sequence (inserted : list TradeFields.t) (s : State) :
  in_service s ->
  exists new,
    Store.trades (store (exec (mapM saveTrade inserted) s))
      = (Store.trades (store s) ++ new)%list /\
    Forall2 Spec.inserted_as inserted new /\
    in_service (exec (mapM saveTrade inserted) s).
Proof.
  revert s. induction inserted as [|f fs IH]; intros s H.
  - exists []. rewrite app_nil_r. split_and!; [reflexivity|constructor|exact H].
  - unfold exec. cbn [mapM].
    rewrite (bind_normal _ _ _ _ _ (saveTrade_in_service f s H)).
    rewrite exec_bind_ret.
    set (s1 := set_store _ s).
    assert (H1 : in_service s1) by (apply in_service_set_store; [exact H|reflexivity]).
    destruct (IH s1 H1) as (new & Hst & Hnew & Hs).
    exists (trade_row f (Store.next_id (TradeRow.id <$> Store.trades (store s))) :: new).
    split_and!.
    + unfold exec in Hst. rewrite Hst. subst s1.
      cbn [store set_store Store.insert_trade snd Store.trades].
      rewrite <- app_assoc. reflexivity.
    + constructor; [|exact Hnew]. unfold Spec.inserted_as. cbn. split_and!; reflexivity.
    + exact Hs.
Qed.

Lemma trade_of_row_same (rows : list TradeRow.t) :
  Forall2 Spec.same_trade (trade_of_row <$> rows) rows.
Proof.
  induction rows as [|r rows IH]; [constructor|].
  cbn [fmap list_fmap]. constructor; [|exact IH].
  unfold Spec.same_trade. cbn. split_and!; reflexivity.
Qed.

(** C7: with the storage in service, after any sequence of calls of
    [saveTrade] (each appends one row holding, column for column, what it
    was passed), [loadTrades accountId] leaves in [trades] the stored
    trades of that account and no other: field for field the rows whose
    [account_id] is [accountId], each once, in descending order of the
    rows' [date]. *)
Theorem loadTrades_selects
    (s : State) (accountId : Z) (inserted : list TradeFields.t) :
  in_service s ->
  let s1 := exec (mapM saveTrade inserted) s in
  let ts := trades (exec (loadTrades accountId) s1) in
  exists new rows,
    Store.trades (store s1) = (Store.trades (store s) ++ new)%list /\
    Forall2 Spec.inserted_as inserted new /\
    Forall2 Spec.same_trade ts rows /\
    rows ≡ₚ filter (fun r => TradeRow.account_id r = accountId) (Store.trades (store s1)) /\
    StronglySorted Spec.date_descending rows /\
    (forall t, t ∈ ts -> Trade.accountId t = accountId) /\
    StronglySorted newest_first ts.
Proof.
  intros H s1 ts.
  destruct (saveTrade_sequence inserted s H) as (new & Hst & Hnew & H1).
  fold s1 in Hst, H1.
  exists new, (Store.select_trades accountId (store s1)).
  subst ts. rewrite (loadTrades_in_service _ _ H1).
  assert (Hperm : Store.select_trades accountId (store s1)
          ≡ₚ filter (fun r => TradeRow.account_id r = accountId) (Store.trades (store s1)))
    by apply merge_sort_Permutation.
  assert (Hsorted : StronglySorted Store.date_desc (Store.select_trades accountId (store s1)))
    by (apply StronglySorted_merge_sort; apply _).
  split_and!.
  - exact Hst.
  - exact Hnew.
  - apply trade_of_row_same.
  - exact Hperm.
  - exact Hsorted.
  - intros t Ht. apply list_elem_of_fmap in Ht as (r & -> & Hr).
    rewrite Hperm in Hr. apply list_elem_of_filter in Hr as [Hr _]. exact Hr.
  - apply (StronglySorted_fmap trade_of_row Store.date_desc); [|exact Hsorted].
    intros r1 r2 Hr. exact Hr.
Qed.

Lemma loadTrades_selects_witness :
  let s1 := exec (mapM saveTrade [Example.third_trade]) Example.traded in
  let ts := trades (exec (loadTrades 1) s1) in
  Trade.date <$> ts
    = ["2024-01-03T10:00:00.000Z"; "2024-01-02T10:00:00.000Z"; "2024-01-01T10:00:00.000Z"] /\
  exists new rows,
    Store.trades (store s1) = (Store.trades (store Example.traded) ++ new)%list /\
    Forall2 Spec.inserted_as [Example.third_trade] new /\
    Forall2 Spec.same_trade ts rows /\
    rows ≡ₚ filter (fun r => TradeRow.account_id r = 1) (Store.trades (store s1)) /\
    StronglySorted Spec.date_descending rows /\
    (forall t, t ∈ ts -> Trade.accountId t = 1) /\
    StronglySorted newest_first ts.
Proof.
  split; [vm_compute; reflexivity|].
  apply (loadTrades_selects Example.traded 1 [Example.third_trade]).
  split; [eexists|]; reflexivity.
Defined.

(** ** Reading the forms *)

Lemma fields_present (ids : list string) (s : State) :
  forallb (fun id => bool_decide (is_Some (document s !! id))) ids = true ->
  forall id, id ∈ ids -> is_Some (document s !! id).
Proof.
  intros H id Hid. rewrite forallb_forall in H.
  apply list_elem_of_In in Hid. apply H in Hid.
  apply bool_decide_eq_true in Hid. exact Hid.
Qed.

Lemma get_value_present (id : string) (s : State) :
  is_Some (document s !! id) -> get_value id s = (Normal (field_value s id), s).
Proof.
  intros [el H]. unfold field_value. rewrite H. apply get_value_Some, H.
Qed.

Ltac read_field Hdoc :=
  erewrite bind_normal by (apply get_value_present, Hdoc; set_solver).

Lemma readAccountForm_present (s : State) :
  (forall id, id ∈ account_form -> is_Some (document s !! id)) ->
  readAccountForm s
  = (Normal (AccountFields.mk
       (field_value s "accountName")
       (field_value s "accountType")
       (parseFloat (field_value s "initialBalance"))
       (parseFloat (field_value s "initialBalance"))
       (field_value s "broker")
       (field_value s "leverage")
       (field_value s "instruments")), s).
Proof.
  intros Hdoc. unfold readAccountForm, account_form in *.
  do 7 read_field Hdoc. reflexivity.
Qed.

Lemma readTradeForm_present (account : Account.t) (now : string) (s : State) :
  (forall id, id ∈ trade_form -> is_Some (document s !! id)) ->
  readTradeForm account now s
  = (Normal (TradeFields.mk (Account.id account)
       (field_value s "symbol")
       (field_value s "tradeType")
       (parseFloat (field_value s "entryPrice"))
       (or_else Some (parseFloat (field_value s "exitPrice")) None)
       (parseFloat (field_value s "takeProfit"))
       (parseFloat (field_value s "stopLoss"))
       (parseFloat (field_value s "lotSize"))
       (parseFloat (field_value s "volume"))
       (parseFloat (field_value s "profit"))
       (or_else id (parseFloat (field_value s "commission")) 0%float)
       (field_value s "rrRatio")
       (field_value s "strategy")
       (field_value s "session")
       (field_value s "duration")
       now), s).
Proof.
  intros Hdoc. unfold readTradeForm, trade_form in *.
  do 14 read_field Hdoc. reflexivity.
Qed.

(** ** The account form *)

Lemma onAccountSubmit_store (s : State) :
  in_service s ->
  (forall id, id ∈ account_form -> is_Some (document s !! id)) ->
  exists account,
    readAccountForm s = (Normal account, s) /\
    AccountFields.initialBalance account = parseFloat (field_value s "initialBalance") /\
    AccountFields.currentBalance account = parseFloat (field_value s "initialBalance") /\
    store (exec onAccountSubmit s)
    = snd (Store.insert_account (account_row account) (store s)).
Proof.
  intros H Hdoc. eexists. split; [apply readAccountForm_present, Hdoc|].
  split; [reflexivity|]. split; [reflexivity|].
  unfold exec, onAccountSubmit.
  rewrite (try_catch_bind_normal _ _ _ _ _ _ (readAccountForm_present _ Hdoc)).
  rewrite (try_catch_bind_normal _ _ _ _ _ _ (saveAccount_in_service _ _ H)).
  cbv beta.
  match goal with
  | |- store (snd (try_catch ?m ?h ?s1)) = ?st =>
      assert (Hp : preserves (fun s' => store s' = st) (try_catch m h))
        by preserves;
      apply (Hp s1); reflexivity
  end.
Qed.

(** C8: with the storage in service and the account form on the page, a
    submission is never rejected for its balance: the form is read,
    [saveAccount] completes normally, and the row appended to [accounts]
    has both balances equal to [parseFloat] of the one balance field; both
    are [NaN] when the field holds no number. *)
Theorem insertAccount_unvalidated (s : State) :
  in_service s ->
  (forall id, id ∈ account_form -> is_Some (document s !! id)) ->
  let balance := parseFloat (field_value s "initialBalance") in
  exists account row,
    readAccountForm s = (Normal account, s) /\
    fst (saveAccount account s) = Normal tt /\
    Store.accounts (store (exec onAccountSubmit s))
      = (Store.accounts (store s) ++ [row])%list /\
    AccountRow.initial_balance row = balance /\
    AccountRow.current_balance row = balance /\
    (PrimFloat.is_nan balance = true ->
     PrimFloat.is_nan (AccountRow.initial_balance row) = true /\
     PrimFloat.is_nan (AccountRow.current_balance row) = true).
Proof.
  intros H Hdoc balance.
  destruct (onAccountSubmit_store s H Hdoc) as (account & Hread & Hi & Hc & Hst).
  exists account,
    (account_row account (Store.next_id (AccountRow.id <$> Store.accounts (store s)))).
  split_and!.
  - exact Hread.
  - rewrite (saveAccount_in_service _ _ H). reflexivity.
  - rewrite Hst. reflexivity.
  - exact Hi.
  - exact Hc.
  - intros Hnan. cbn [account_row AccountRow.initial_balance AccountRow.current_balance].
    rewrite Hi, Hc. split; exact Hnan.
Qed.

Lemma insertAccount_unvalidated_witness :
  PrimFloat.is_nan (parseFloat (field_value Example.no_balance "initialBalance")) = true /\
  exists account row,
    readAccountForm Example.no_balance = (Normal account, Example.no_balance) /\
    fst (saveAccount account Example.no_balance) = Normal tt /\
    Store.accounts (store (exec onAccountSubmit Example.no_balance))
      = (Store.accounts (store Example.no_balance) ++ [row])%list /\
    AccountRow.initial_balance row
      = parseFloat (field_value Example.no_balance "initialBalance") /\
    AccountRow.current_balance row
      = parseFloat (field_value Example.no_balance "initialBalance") /\
    (PrimFloat.is_nan (parseFloat (field_value Example.no_balance "initialBalance")) = true ->
     PrimFloat.is_nan (AccountRow.initial_balance row) = true /\
     PrimFloat.is_nan (AccountRow.current_balance row) = true).
Proof.
  split; [reflexivity|].
  apply (insertAccount_unvalidated Example.no_balance).
  - split; [eexists|]; reflexivity.
  - apply fields_present. vm_compute. reflexivity.
Defined.

(** ** The trade form *)

Lemma truthy_nan (x : Number) : PrimFloat.is_nan x = true -> truthy x = false.
Proof. intros H. unfold truthy. rewrite H, orb_true_r. reflexivity. Qed.

Lemma truthy_zero (x : Number) : PrimFloat.is_zero x = true -> truthy x = false.
Proof. intros H. unfold truthy. rewrite H. reflexivity. Qed.

Lemma select_trades_inserted (row : Z -> TradeRow.t) (account_id : Z) (st : Store.t) :
  (forall id, TradeRow.account_id (row id) = account_id) ->
  row (Store.next_id (TradeRow.id <$> Store.trades st))
  ∈ Store.select_trades account_id (snd (Store.insert_trade row st)).
Proof.
  intros Hrow. unfold Store.select_trades.
  rewrite merge_sort_Permutation. apply list_elem_of_filter. split; [apply Hrow|].
  cbn [Store.insert_trade snd Store.trades]. apply elem_of_app. right.
  apply list_elem_of_singleton. reflexivity.
Qed.

Lemma onTradeSubmit_stores
    (toLocaleString : Number -> string) (now : string) (account : Account.t) (s : State) :
  in_service s ->
  currentAccount s = Some account ->
  (forall id, id ∈ trade_form -> is_Some (document s !! id)) ->
  let s' := exec (onTradeSubmit toLocaleString now) s in
  exists trade,
    readTradeForm account now s = (Normal trade, s) /\
    TradeFields.exitPrice trade
      = or_else Some (parseFloat (field_value s "exitPrice")) None /\
    TradeFields.commission trade
      = or_else id (parseFloat (field_value s "commission")) 0%float /\
    store s' = snd (Store.insert_trade (trade_row trade) (store s)) /\
    trades s' = trade_of_row <$> Store.select_trades (Account.id account) (store s').
Proof.
  intros H Hacc Hdoc s'. eexists.
  split; [apply readTradeForm_present, Hdoc|].
  split; [reflexivity|]. split; [reflexivity|].
  assert (Hexec : s' = exec (onTradeSubmit toLocaleString now) s) by reflexivity.
  clearbody s'. revert Hexec. unfold exec, onTradeSubmit.
  rewrite bind_unfold. unfold gets at 1. rewrite Hacc.
  rewrite (try_catch_bind_normal _ _ _ _ _ _ (readTradeForm_present _ _ _ Hdoc)).
  rewrite (try_catch_bind_normal _ _ _ _ _ _ (saveTrade_in_service _ _ H)).
  match goal with |- context [try_catch _ _ ?s1] => set (s1' := s1) end.
  assert (H1 : in_service s1') by (apply in_service_set_store; [exact H|reflexivity]).
  pose proof (loadTrades_in_service (Account.id account) s1' H1) as Hts.
  pose proof (preserves_loadTrades (fun x => store x = store s1')
                (Account.id account) s1' eq_refl) as Hst.
  pose proof (loadTrades_normal (Account.id account) s1') as Hn.
  unfold exec in Hts.
  destruct (loadTrades (Account.id account) s1') as [c s2] eqn:Hload.
  cbn [fst snd] in Hts, Hst, Hn. subst c.
  rewrite (try_catch_bind_normal _ _ _ _ _ _ Hload). cbv beta.
  match goal with
  | |- context [try_catch ?m ?h s2] =>
      assert (Hp : preserves (fun x => trades x = trades s2 /\ store x = store s2)
                     (try_catch m h))
        by preserves;
      destruct (Hp s2 (conj eq_refl eq_refl)) as [Ht' Hs']
  end.
  intros ->. rewrite Ht', Hs', Hst, Hts. split; reflexivity.
Qed.

(** The row a submission of the trade form appends. *)
Lemma onTradeSubmit_row
    (toLocaleString : Number -> string) (now : string) (account : Account.t) (s : State) :
  in_service s ->
  currentAccount s = Some account ->
  (forall id, id ∈ trade_form -> is_Some (document s !! id)) ->
  let s' := exec (onTradeSubmit toLocaleString now) s in
  exists row,
    Store.trades (store s') = (Store.trades (store s) ++ [row])%list /\
    trade_of_row row ∈ trades s' /\
    TradeRow.account_id row = Account.id account /\
    TradeRow.date row = now /\
    TradeRow.exit_price row
      = or_else Some (parseFloat (field_value s "exitPrice")) None /\
    TradeRow.commission row
      = or_else id (parseFloat (field_value s "commission")) 0%float.
Proof.
  intros H Hacc Hdoc s'.
  destruct (onTradeSubmit_stores toLocaleString now account s H Hacc Hdoc)
    as (trade & Hread & Hexit & Hcomm & Hst & Hts).
  fold s' in Hst, Hts.
  rewrite (readTradeForm_present _ _ _ Hdoc) in Hread.
  injection Hread as <-.
  eexists (trade_row _ (Store.next_id (TradeRow.id <$> Store.trades (store s)))).
  split_and!.
  - rewrite Hst. reflexivity.
  - rewrite Hts, Hst. apply list_elem_of_fmap_2, select_trades_inserted.
    reflexivity.
  - reflexivity.
  - reflexivity.
  - reflexivity.
  - reflexivity.
Qed.

(** C5: with the storage in service, an account selected and the trade
    form on the page, a submission appends one row and the trade fetched
    for it is in [trades]; when the exit price field holds no number the
    row's and the fetched trade's exit price are absent ([null], not a
    number, not a string), and when the commission field holds no number
    their commission is 0. *)
Theorem omitted_exit_price
    (toLocaleString : Number -> string) (now : string) (account : Account.t) (s : State) :
  in_service s ->
  currentAccount s = Some account ->
  (forall id, id ∈ trade_form -> is_Some (document s !! id)) ->
  let s' := exec (onTradeSubmit toLocaleString now) s in
  exists row,
    Store.trades (store s') = (Store.trades (store s) ++ [row])%list /\
    trade_of_row row ∈ trades s' /\
    (PrimFloat.is_nan (parseFloat (field_value s "exitPrice")) = true ->
     TradeRow.exit_price row = None /\
     Trade.exitPrice (trade_of_row row) = None) /\
    (PrimFloat.is_nan (parseFloat (field_value s "commission")) = true ->
     TradeRow.commission row = 0%float /\
     Trade.commission (trade_of_row row) = 0%float).
Proof.
  intros H Hacc Hdoc s'.
  destruct (onTradeSubmit_row toLocaleString now account s H Hacc Hdoc)
    as (row & Hst & Hin & _ & _ & Hexit & Hcomm).
  exists row. split_and!; [exact Hst|exact Hin|..].
  - intros Hnan. cbn [trade_of_row Trade.exitPrice]. rewrite Hexit.
    unfold or_else. rewrite (truthy_nan _ Hnan). split; reflexivity.
  - intros Hnan. cbn [trade_of_row Trade.commission]. rewrite Hcomm.
    unfold or_else. rewrite (truthy_nan _ Hnan). split; reflexivity.
Qed.

Lemma omitted_exit_price_witness :
  exists row,
    Store.trades (store (exec (onTradeSubmit toLocaleString_en "2024-01-03T09:30:00.000Z")
                           Example.no_exit))
      = (Store.trades (store Example.no_exit) ++ [row])%list /\
    trade_of_row row
      ∈ trades (exec (onTradeSubmit toLocaleString_en "2024-01-03T09:30:00.000Z")
                  Example.no_exit) /\
    (PrimFloat.is_nan (parseFloat (field_value Example.no_exit "exitPrice")) = true ->
     TradeRow.exit_price row = None /\
     Trade.exitPrice (trade_of_row row) = None) /\
    (PrimFloat.is_nan (parseFloat (field_value Example.no_exit "commission")) = true ->
     TradeRow.commission row = 0%float /\
     Trade.commission (trade_of_row row) = 0%float).
Proof.
  apply (omitted_exit_price toLocaleString_en "2024-01-03T09:30:00.000Z"
           Example.main_account Example.no_exit).
  - split; [eexists|]; reflexivity.
  - reflexivity.
  - apply fields_present. vm_compute. reflexivity.
Defined.

(** C9: under the same conditions, when the exit price field parses to
    zero the row's and the fetched trade's exit price are absent, as for a
    trade with no exit price. *)
Theorem zero_exit_price
    (toLocaleString : Number -> string) (now : string) (account : Account.t) (s : State) :
  in_service s ->
  currentAccount s = Some account ->
  (forall id, id ∈ trade_form -> is_Some (document s !! id)) ->
  PrimFloat.is_zero (parseFloat (field_value s "exitPrice")) = true ->
  let s' := exec (onTradeSubmit toLocaleString now) s in
  exists row,
    Store.trades (store s') = (Store.trades (store s) ++ [row])%list /\
    trade_of_row row ∈ trades s' /\
    TradeRow.exit_price row = None /\
    Trade.exitPrice (trade_of_row row) = None.
Proof.
  intros H Hacc Hdoc Hzero s'.
  destruct (onTradeSubmit_row toLocaleString now account s H Hacc Hdoc)
    as (row & Hst & Hin & _ & _ & Hexit & _).
  exists row. split_and!; [exact Hst|exact Hin|..].
  - rewrite Hexit. unfold or_else. rewrite (truthy_zero _ Hzero). reflexivity.
  - cbn [trade_of_row Trade.exitPrice]. rewrite Hexit.
    unfold or_else. rewrite (truthy_zero _ Hzero). reflexivity.
Qed.

Lemma zero_exit_price_witness :
  parseFloat (field_value Example.zero_exit "exitPrice") = 0%float /\
  exists row,
    Store.trades (store (exec (onTradeSubmit toLocaleString_en "2024-01-03T09:30:00.000Z")
                           Example.zero_exit))
      = (Store.trades (store Example.zero_exit) ++ [row])%list /\
    trade_of_row row
      ∈ trades (exec (onTradeSubmit toLocaleString_en "2024-01-03T09:30:00.000Z")
                  Example.zero_exit) /\
    TradeRow.exit_price row = None /\
    Trade.exitPrice (trade_of_row row) = None.
Proof.
  split; [reflexivity|].
  apply (zero_exit_price toLocaleString_en "2024-01-03T09:30:00.000Z"
           Example.main_account Example.zero_exit).
  - split; [eexists|]; reflexivity.
  - reflexivity.
  - apply fields_present. vm_compute. reflexivity.
  - reflexivity.
Defined.

(** ** Binary64 arithmetic *)

Lemma digits2_pos_size (m : positive) : digits2_pos m = Pos.size m.
Proof. induction m as [m IH|m IH|]; cbn; rewrite ?IH; reflexivity. Qed.

(** [2^(d-1) <= m < 2^d] for the number [d] of binary digits of [m]. *)
Lemma digits2_pos_bounds (m : positive) :
  2 ^ (Zpos (digits2_pos m) - 1) <= Zpos m < 2 ^ Zpos (digits2_pos m).
Proof.
  rewrite digits2_pos_size. split.
  - pose proof (Pos.size_le m) as H.
    assert (H' : 2 ^ Zpos (Pos.size m) <= 2 * Zpos m).
    { change (2 * Zpos m) with (Zpos m~0). rewrite <- Pos2Z.inj_pow. exact H. }
    replace (Zpos (Pos.size m)) with (Zpos (Pos.size m) - 1 + 1) in H' by lia.
    rewrite Z.pow_add_r in H' by lia. lia.
  - pose proof (Pos.size_gt m) as H. rewrite <- Pos2Z.inj_pow. exact H.
Qed.

(** The number of digits of [m] is determined by the power of two it is
    bracketed by. *)
Lemma digits2_pos_unique (m : positive) (d : Z) :
  0 < d -> 2 ^ (d - 1) <= Zpos m < 2 ^ d -> Zpos (digits2_pos m) = d.
Proof.
  intros Hd [Hlo Hhi]. pose proof (digits2_pos_bounds m) as [Hlo' Hhi'].
  destruct (Z.lt_trichotomy (Zpos (digits2_pos m)) d) as [Hlt|[Heq|Hgt]];
    [|exact Heq|].
  - assert (2 ^ Zpos (digits2_pos m) <= 2 ^ (d - 1))
      by (apply Z.pow_le_mono_r; lia). lia.
  - assert (2 ^ d <= 2 ^ (Zpos (digits2_pos m) - 1))
      by (apply Z.pow_le_mono_r; lia). lia.
Qed.

Lemma pos_iter_xO (m d : positive) :
  Zpos (Pos.iter xO m d) = Zpos m * 2 ^ Zpos d.
Proof.
  induction d as [|d IH] using Pos.peano_ind.
  - cbn. lia.
  - rewrite Pos.iter_succ, Pos2Z.inj_succ, Z.pow_succ_r by lia.
    change (Zpos (Pos.iter xO m d)~0) with (2 * Zpos (Pos.iter xO m d)).
    rewrite IH. lia.
Qed.

(** [shl_align] keeps the value: the mantissa is scaled by the power of two
    the exponent is lowered by. *)
Lemma shl_align_value (m : positive) (e e' : Z) :
  e' <= e ->
  Zpos (fst (shl_align m e e')) = Zpos m * 2 ^ (e - e') /\
  snd (shl_align m e e') = e'.
Proof.
  intros Hle. unfold shl_align.
  destruct (e' - e) as [|p|p] eqn:Hd; cbn [fst snd].
  - assert (e = e') as -> by lia. rewrite Z.sub_diag. cbn. lia.
  - lia.
  - rewrite pos_iter_xO. replace (e - e') with (Zpos p) by lia. split; reflexivity.
Qed.

Lemma shr_1_m (mrs : shr_record) :
  0 <= shr_m mrs -> shr_m (shr_1 mrs) = shr_m mrs / 2.
Proof.
  destruct mrs as [m r s']. cbn [shr_m]. intros Hm.
  destruct m as [|[p|p|]|p]; cbn [shr_1 shr_m]; try lia.
  - reflexivity.
  - rewrite Pos2Z.inj_xI. apply (Z.div_unique _ 2 _ 1); lia.
  - rewrite Pos2Z.inj_xO. apply (Z.div_unique _ 2 _ 0); lia.
  - reflexivity.
Qed.

Lemma pow2_xO (p : positive) : 2 ^ Zpos p~0 = 2 ^ Zpos p * 2 ^ Zpos p.
Proof.
  replace (Zpos p~0) with (Zpos p + Zpos p) by lia.
  apply Z.pow_add_r; lia.
Qed.

Lemma pow2_xI (p : positive) : 2 ^ Zpos p~1 = 2 * (2 ^ Zpos p * 2 ^ Zpos p).
Proof.
  replace (Zpos p~1) with (1 + (Zpos p + Zpos p)) by lia.
  rewrite Z.pow_add_r, Z.pow_add_r by lia. reflexivity.
Qed.

(** [iter_pos shr_1 p] divides a non-negative mantissa by [2^p]. *)
Lemma iter_shr_1_m (p : positive) (mrs : shr_record) :
  0 <= shr_m mrs ->
  shr_m (SpecFloat.iter_pos shr_1 p mrs) = shr_m mrs / 2 ^ Zpos p.
Proof.
  revert mrs. induction p as [p IH|p IH|]; intros mrs Hm; cbn [SpecFloat.iter_pos].
  - assert (H1 : 0 <= shr_m (shr_1 mrs))
      by (rewrite shr_1_m by assumption; apply Z.div_pos; lia).
    assert (H2 : 0 <= shr_m (SpecFloat.iter_pos shr_1 p (shr_1 mrs)))
      by (rewrite IH by assumption; apply Z.div_pos; lia).
    rewrite IH, IH, shr_1_m by assumption.
    rewrite !Z.div_div by lia. rewrite pow2_xI, Z.mul_assoc. reflexivity.
  - assert (H2 : 0 <= shr_m (SpecFloat.iter_pos shr_1 p mrs))
      by (rewrite IH by assumption; apply Z.div_pos; lia).
    rewrite IH, IH by assumption.
    rewrite !Z.div_div by lia. rewrite pow2_xO. reflexivity.
  - rewrite shr_1_m by assumption. reflexivity.
Qed.

Lemma shr_record_of_loc_m (m : Z) (l : location) :
  shr_m (shr_record_of_loc m l) = m.
Proof. destruct l as [|[]]; reflexivity. Qed.

(** Rounding to the format's exponent leaves a positive mantissa positive,
    for a value of at least the least positive one. *)
Lemma shr_fexp_positive (m : positive) (e : Z) (l : location) :
  SpecFloat.emin prec emax < Zpos (digits2_pos m) + e ->
  exists m' : positive,
    shr_m (fst (shr_fexp prec emax (Zpos m) e l)) = Zpos m' /\
    SpecFloat.emin prec emax <= snd (shr_fexp prec emax (Zpos m) e l).
Proof.
  intros Hmag. unfold shr_fexp, shr, Zdigits2, fexp.
  change (SpecFloat.emin prec emax) with (-1074) in *. change prec with 53.
  set (d := Zpos (digits2_pos m)) in *.
  destruct (Z.max (d + e - 53) (-1074) - e) as [|p|p] eqn:Hn; cbn [fst snd].
  - rewrite shr_record_of_loc_m. exists m. split; [reflexivity|lia].
  - rewrite iter_shr_1_m by (rewrite shr_record_of_loc_m; lia).
    rewrite shr_record_of_loc_m.
    pose proof (digits2_pos_bounds m) as [Hlo _]. fold d in Hlo.
    assert (Hp : Zpos p <= d - 1) by lia.
    assert (Hpow : 2 ^ Zpos p <= Zpos m).
    { etransitivity; [|exact Hlo]. apply Z.pow_le_mono_r; lia. }
    assert (Hq : 1 <= Zpos m / 2 ^ Zpos p).
    { apply Z.div_le_lower_bound; lia. }
    destruct (Zpos m / 2 ^ Zpos p) as [|q|q]; [lia| |lia].
    exists q. split; [reflexivity|lia].
  - rewrite shr_record_of_loc_m. exists m. split; [reflexivity|lia].
Qed.

Lemma round_nearest_even_positive (m : positive) (l : location) :
  exists m' : positive, round_nearest_even (Zpos m) l = Zpos m'.
Proof.
  destruct l as [|[]]; cbn [round_nearest_even];
    try destruct (Z.even (Zpos m)); eexists; reflexivity.
Qed.

Lemma binary_round_aux_nonzero (s : bool) (m : positive) (e : Z) (l : location) :
  SpecFloat.emin prec emax < Zpos (digits2_pos m) + e ->
  SF_nonzero (binary_round_aux prec emax s (Zpos m) e l).
Proof.
  intros Hmag. unfold binary_round_aux.
  destruct (shr_fexp_positive m e l Hmag) as (m1 & Hm1 & He1).
  destruct (shr_fexp prec emax (Zpos m) e l) as [mrs1 e1]. cbn [fst snd] in *.
  rewrite Hm1.
  destruct (round_nearest_even_positive m1 (loc_of_shr_record mrs1)) as (m2 & ->).
  assert (Hmag2 : SpecFloat.emin prec emax < Zpos (digits2_pos m2) + e1) by lia.
  destruct (shr_fexp_positive m2 e1 loc_Exact Hmag2) as (m3 & Hm3 & _).
  destruct (shr_fexp prec emax (Zpos m2) e1 loc_Exact) as [mrs2 e2].
  cbn [fst snd] in *. rewrite Hm3.
  destruct (e2 <=? emax - prec); exact I.
Qed.

Lemma binary_round_nonzero (s : bool) (m : positive) (e : Z) :
  SpecFloat.emin prec emax <= e ->
  SF_nonzero (binary_round prec emax s m e).
Proof.
  intros He. unfold binary_round.
  set (F := fexp prec emax (Zpos (digits2_pos m) + e)).
  destruct (shl_align m e F) as [mz ez] eqn:Hal.
  apply binary_round_aux_nonzero.
  destruct (Z.le_gt_cases F e) as [Hle|Hgt].
  - destruct (shl_align_value m e F Hle) as [Hv He']. rewrite Hal in Hv, He'.
    cbn [fst snd] in Hv, He'. subst ez.
    unfold F, fexp. change (SpecFloat.emin prec emax) with (-1074). lia.
  - unfold shl_align in Hal. destruct (F - e) eqn:Hd; try lia;
      injection Hal as <- <-; change (SpecFloat.emin prec emax) with (-1074) in *; lia.
Qed.

Lemma binary_normalize_nonzero (m e : Z) (szero : bool) :
  m <> 0 -> SpecFloat.emin prec emax <= e ->
  SF_nonzero (binary_normalize prec emax m e szero).
Proof.
  intros Hm He. destruct m as [|p|p]; [congruence|..];
    apply binary_round_nonzero, He.
Qed.

Lemma canonical_exponent (m : positive) (e : Z) :
  canonical_mantissa prec emax m e = true ->
  e = Z.max (Zpos (digits2_pos m) + e - 53) (-1074).
Proof.
  unfold canonical_mantissa, fexp. intros H. apply Z.eqb_eq in H.
  change (SpecFloat.emin prec emax) with (-1074) in H. change prec with 53 in H.
  lia.
Qed.

(** A canonical mantissa scaled up by a positive power of two is the
    mantissa of no canonical number with the lower exponent. *)
Lemma canonical_scaled (m1 m2 : positive) (e1 e2 : Z) :
  canonical_mantissa prec emax m1 e1 = true ->
  canonical_mantissa prec emax m2 e2 = true ->
  e1 < e2 ->
  Zpos m1 <> Zpos m2 * 2 ^ (e2 - e1).
Proof.
  intros H1 H2 Hlt Heq.
  apply canonical_exponent in H1, H2.
  pose proof (digits2_pos_bounds m2) as [Hlo Hhi].
  set (d2 := Zpos (digits2_pos m2)) in *.
  assert (Hd : Zpos (digits2_pos m1) = d2 + (e2 - e1)).
  { apply digits2_pos_unique; [lia|]. rewrite Heq.
    replace (d2 + (e2 - e1) - 1) with (d2 - 1 + (e2 - e1)) by lia.
    rewrite !Z.pow_add_r by lia.
    assert (0 < 2 ^ (e2 - e1)) by (apply Z.pow_pos_nonneg; lia).
    split; nia. }
  lia.
Qed.

Lemma SFsub_self (s : bool) (m : positive) (e : Z) :
  SFsub prec emax (S754_finite s m e) (S754_finite s m e) = S754_zero false.
Proof.
  unfold SFsub. rewrite Z.sub_diag. reflexivity.
Qed.

(** The difference of two distinct finite numbers is not a zero: gradual
    underflow keeps it representable. *)
Lemma SFsub_nonzero (s1 s2 : bool) (m1 m2 : positive) (e1 e2 : Z) :
  valid_binary (S754_finite s1 m1 e1) = true ->
  valid_binary (S754_finite s2 m2 e2) = true ->
  S754_finite s1 m1 e1 <> S754_finite s2 m2 e2 ->
  SF_nonzero (SFsub prec emax (S754_finite s1 m1 e1) (S754_finite s2 m2 e2)).
Proof.
  cbn [SpecFloat.valid_binary]. unfold bounded.
  intros [C1 _]%andb_true_iff [C2 _]%andb_true_iff Hne.
  pose proof (canonical_exponent _ _ C1) as E1.
  pose proof (canonical_exponent _ _ C2) as E2.
  unfold SFsub. set (ez := Z.min e1 e2).
  destruct (shl_align_value m1 e1 ez ltac:(lia)) as [V1 _].
  destruct (shl_align_value m2 e2 ez ltac:(lia)) as [V2 _].
  assert (P1 : 0 < 2 ^ (e1 - ez)) by (apply Z.pow_pos_nonneg; lia).
  assert (P2 : 0 < 2 ^ (e2 - ez)) by (apply Z.pow_pos_nonneg; lia).
  apply binary_normalize_nonzero;
    [|change (SpecFloat.emin prec emax) with (-1074); lia].
  rewrite V1, V2.
  assert (Hdiff : s1 = s2 -> Zpos m1 * 2 ^ (e1 - ez) <> Zpos m2 * 2 ^ (e2 - ez)).
  { intros -> Heq. destruct (Z.lt_trichotomy e1 e2) as [Hlt|[->|Hgt]].
    - apply (canonical_scaled m1 m2 e1 e2 C1 C2 Hlt).
      replace ez with e1 in Heq by lia. rewrite Z.sub_diag in Heq. lia.
    - replace ez with e2 in Heq by lia. rewrite Z.sub_diag in Heq.
      apply Hne. f_equal. lia.
    - apply (canonical_scaled m2 m1 e2 e1 C2 C1 Hgt).
      replace ez with e2 in Heq by lia. rewrite Z.sub_diag in Heq. lia. }
  destruct s1, s2; cbn [cond_Zopp]; try (specialize (Hdiff eq_refl)); nia.
Qed.

(** *** From the primitive operations to their specification *)

Lemma SFeqb_finite (s1 s2 : bool) (m1 m2 : positive) (e1 e2 : Z) :
  SFeqb (S754_finite s1 m1 e1) (S754_finite s2 m2 e2) = true <->
  S754_finite s1 m1 e1 = S754_finite s2 m2 e2.
Proof.
  unfold SFeqb, SFcompare. split.
  - destruct s1, s2; try discriminate;
      destruct (e1 ?= e2) eqn:He; try discriminate;
      destruct (Pos.compare_cont Eq m1 m2) eqn:Hm; try discriminate;
      intros _; apply Z.compare_eq in He; apply Pos.compare_eq in Hm;
      subst; reflexivity.
  - intros [= -> -> ->]. rewrite Z.compare_refl.
    change (Pos.compare_cont Eq m2 m2) with (m2 ?= m2)%positive.
    rewrite Pos.compare_refl. destruct s2; reflexivity.
Qed.

Lemma Prim2SF_truthy (x : Number) : truthy x = true -> SF_nonzero (Prim2SF x).
Proof.
  unfold truthy, PrimFloat.is_zero, PrimFloat.is_nan.
  rewrite !FloatAxioms.eqb_spec.
  change (Prim2SF PrimFloat.zero) with (S754_zero false).
  destruct (Prim2SF x) as [s|s| |s m e]; try discriminate; intros _; exact I.
Qed.

Lemma Prim2SF_finite (x : Number) :
  truthy x = true -> PrimFloat.is_infinity x = false ->
  exists s m e, Prim2SF x = S754_finite s m e.
Proof.
  intros Ht. apply Prim2SF_truthy in Ht. revert Ht.
  unfold PrimFloat.is_infinity.
  rewrite FloatAxioms.eqb_spec, FloatAxioms.abs_spec.
  change (Prim2SF PrimFloat.infinity) with (S754_infinity false).
  destruct (Prim2SF x) as [s|s| |s m e]; cbn; try discriminate; try tauto.
  intros _ _. eauto.
Qed.

(** Numerically equal numbers, one of them finite and not a zero, are the
    same number. *)
Lemma eqb_finite (x y : Number) :
  truthy x = true -> PrimFloat.is_infinity x = false ->
  PrimFloat.eqb y x = true -> y = x.
Proof.
  intros Ht Hf Heq. destruct (Prim2SF_finite x Ht Hf) as (s & m & e & Hx).
  apply Prim2SF_inj. rewrite FloatAxioms.eqb_spec, Hx in Heq. rewrite Hx.
  destruct (Prim2SF y) as [s'|s'| |s' m' e'] eqn:Hy;
    try (unfold SFeqb, SFcompare in Heq; destruct s; try destruct s'; discriminate).
  apply SFeqb_finite, Heq.
Qed.

Lemma sub_self_finite (x : Number) :
  truthy x = true -> PrimFloat.is_infinity x = false ->
  PrimFloat.abs (x - x) = PrimFloat.zero.
Proof.
  intros Ht Hf. destruct (Prim2SF_finite x Ht Hf) as (s & m & e & Hx).
  apply Prim2SF_inj.
  rewrite FloatAxioms.abs_spec, FloatAxioms.sub_spec, Hx.
  unfold SF64sub. rewrite SFsub_self. reflexivity.
Qed.

Lemma sub_distinct (t x : Number) :
  truthy x = true -> PrimFloat.is_infinity x = false ->
  truthy t = true -> PrimFloat.eqb t x = false ->
  (PrimFloat.abs (t - x) / PrimFloat.zero)%float = PrimFloat.infinity.
Proof.
  intros Hx Hf Ht Hne. destruct (Prim2SF_finite x Hx Hf) as (s & m & e & Ex).
  pose proof (Prim2SF_truthy t Ht) as Nt.
  pose proof (FloatAxioms.Prim2SF_valid x) as Vx.
  pose proof (FloatAxioms.Prim2SF_valid t) as Vt.
  rewrite FloatAxioms.eqb_spec in Hne. rewrite Ex in Hne, Vx.
  apply Prim2SF_inj.
  rewrite FloatAxioms.div_spec, FloatAxioms.abs_spec, FloatAxioms.sub_spec, Ex.
  change (Prim2SF PrimFloat.zero) with (S754_zero false).
  change (Prim2SF PrimFloat.infinity) with (S754_infinity false).
  assert (Hnz : SF_nonzero (SF64sub (Prim2SF t) (S754_finite s m e))).
  { destruct (Prim2SF t) as [s'|s'| |s' m' e'] eqn:Et; try contradiction.
    - exact I.
    - apply SFsub_nonzero; [exact Vt|exact Vx|].
      intros Heq. apply SFeqb_finite in Heq. congruence. }
  destruct (SF64sub (Prim2SF t) (S754_finite s m e)); try contradiction;
    reflexivity.
Qed.

Lemma eqb_finite_l (x y : Number) :
  truthy x = true -> PrimFloat.is_infinity x = false ->
  PrimFloat.eqb x y = true -> y = x.
Proof.
  intros Ht Hf Heq. destruct (Prim2SF_finite x Ht Hf) as (s & m & e & Hx).
  apply Prim2SF_inj. rewrite FloatAxioms.eqb_spec, Hx in Heq. rewrite Hx.
  destruct (Prim2SF y) as [s'|s'| |s' m' e'] eqn:Hy;
    try (unfold SFeqb, SFcompare in Heq; destruct s; try destruct s'; discriminate).
  symmetry. apply SFeqb_finite, Heq.
Qed.

(** ** The risk/reward ratio *)

Lemma calculateRR_guarded (s : State) :
  (forall id, id ∈ rr_form -> is_Some (document s !! id)) ->
  truthy (parseFloat (field_value s "entryPrice"))
    && truthy (parseFloat (field_value s "takeProfit"))
    && truthy (parseFloat (field_value s "stopLoss")) = false ->
  calculateRR s = (Normal tt, s).
Proof.
  intros Hdoc Hg. unfold calculateRR, rr_form in *.
  do 3 read_field Hdoc. cbv zeta. rewrite Hg. reflexivity.
Qed.

Lemma calculateRR_computed (s : State) :
  (forall id, id ∈ rr_form -> is_Some (document s !! id)) ->
  truthy (parseFloat (field_value s "entryPrice"))
    && truthy (parseFloat (field_value s "takeProfit"))
    && truthy (parseFloat (field_value s "stopLoss")) = true ->
  fst (calculateRR s) = Normal tt /\
  field_value (exec calculateRR s) "rrRatio"
  = "1:" ++ toFixed 2
      (PrimFloat.abs (parseFloat (field_value s "takeProfit")
                      - parseFloat (field_value s "entryPrice"))
       / PrimFloat.abs (parseFloat (field_value s "entryPrice")
                        - parseFloat (field_value s "stopLoss")))%float.
Proof.
  intros Hdoc Hg. unfold exec, calculateRR.
  assert (Hrr : is_Some (document s !! "rrRatio")) by (apply Hdoc; set_solver).
  unfold rr_form in Hdoc.
  do 3 read_field Hdoc. cbv zeta. rewrite Hg.
  destruct Hrr as [el Hel]. rewrite (update_Some _ _ _ _ Hel).
  split; [reflexivity|].
  unfold field_value. cbn [snd document set_document].
  rewrite lookup_insert_eq. reflexivity.
Qed.

(** C10, amended: with the three price fields and the ratio field on the
    page, [calculateRR] completes normally; it leaves the state as it was
    when one of entry, target and stop parses to zero or to no number, and
    otherwise sets the ratio field to ["1:"] followed by
    [|tp - entry| / |entry - sl|] as [toFixed(2)] prints it.  The division is
    unguarded: when the finite entry equals the stop, the field reads
    ["1:Infinity"] if the target differs from the entry and ["1:NaN"] if it
    equals it too. *)
Theorem calculateRR_ratio (s : State) :
  (forall id, id ∈ rr_form -> is_Some (document s !! id)) ->
  let entry := parseFloat (field_value s "entryPrice") in
  let tp := parseFloat (field_value s "takeProfit") in
  let sl := parseFloat (field_value s "stopLoss") in
  let ratio := field_value (exec calculateRR s) "rrRatio" in
  fst (calculateRR s) = Normal tt /\
  (truthy entry && truthy tp && truthy sl = false -> exec calculateRR s = s) /\
  (truthy entry && truthy tp && truthy sl = true ->
   ratio = "1:" ++ toFixed 2 (PrimFloat.abs (tp - entry) / PrimFloat.abs (entry - sl))%float /\
   (PrimFloat.eqb entry sl = true -> PrimFloat.is_infinity entry = false ->
    (PrimFloat.eqb tp entry = false -> ratio = "1:Infinity") /\
    (PrimFloat.eqb tp entry = true -> ratio = "1:NaN"))).
Proof.
  intros Hdoc entry tp sl ratio.
  destruct (truthy entry && truthy tp && truthy sl) eqn:Hg.
  - destruct (calculateRR_computed s Hdoc Hg) as [Hn Hr].
    fold entry tp sl ratio in Hr.
    split; [exact Hn|]. split; [discriminate|]. intros _. split; [exact Hr|].
    apply andb_true_iff in Hg as [[He Ht]%andb_true_iff Hs].
    intros Heq Hfin.
    assert (sl = entry) as Hsl by (apply eqb_finite_l; assumption).
    rewrite Hr, Hsl, (sub_self_finite entry He Hfin). split.
    + intros Hne. rewrite (sub_distinct tp entry He Hfin Ht Hne). reflexivity.
    + intros Hsame.
      assert (tp = entry) as -> by (apply eqb_finite; assumption).
      rewrite (sub_self_finite entry He Hfin). reflexivity.
  - pose proof (calculateRR_guarded s Hdoc Hg) as Hc.
    split; [rewrite Hc; reflexivity|].
    split; [intros _; unfold exec; rewrite Hc; reflexivity|discriminate].
Qed.

Lemma calculateRR_ratio_witness :
  field_value (exec calculateRR Example.no_risk) "rrRatio" = "1:Infinity".
Proof.
  refine (proj1 (proj2 (proj2 (proj2 (calculateRR_ratio Example.no_risk _)) _) _ _) _).
  - apply fields_present. vm_compute. reflexivity.
  - reflexivity.
  - reflexivity.
  - reflexivity.
  - reflexivity.
Defined.

(** Against C10 as stated: with entry, target and stop all at 1.5 the entry
    equals the stop, the guard passes, and the ratio field reads ["1:NaN"],
    not ["1:Infinity"]. *)
Lemma equal_prices_give_NaN :
  PrimFloat.eqb (parseFloat (field_value Example.flat "entryPrice"))
                (parseFloat (field_value Example.flat "stopLoss")) = true /\
  truthy (parseFloat (field_value Example.flat "entryPrice"))
    && truthy (parseFloat (field_value Example.flat "takeProfit"))
    && truthy (parseFloat (field_value Example.flat "stopLoss")) = true /\
  field_value (exec calculateRR Example.flat) "rrRatio" = "1:NaN".
Proof. split_and!; reflexivity. Qed.

(** * Further properties of the script *)

(** ** Following a property through the script *)

Lemma exec_bind {A B} (P : State -> Prop) (m : M A) (k : A -> M B) (s : State) :
  P (snd (m s)) -> (forall a, preserves P (k a)) -> P (snd ((m ≫= k) s)).
Proof.
  intros Hm Hk. rewrite bind_unfold.
  destruct (m s) as [[a|e] s']; [apply Hk|]; exact Hm.
Qed.

Lemma exec_try_catch {A} (P : State -> Prop) (m : M A) (h : JsError -> M A) (s : State) :
  P (snd (m s)) -> (forall e, preserves P (h e)) -> P (snd (try_catch m h s)).
Proof.
  intros Hm Hh. unfold try_catch.
  destruct (m s) as [[a|e] s']; [|apply Hh]; exact Hm.
Qed.

(** A storage call either answers from the store or throws; the state stays. *)
Lemma db_select_cases {R} (query : Store.t -> R) (s : State) :
  (in_service s /\ db_select query s = (Normal (query (store s)), s)) \/
  (exists e, db_select query s = (Throw e, s)).
Proof.
  unfold db_select, mbind, M_bind, gets.
  destruct (db s) as [conn|] eqn:Hdb; [|right; eexists; reflexivity].
  destruct (Store.fault (store s)) as [msg|] eqn:Hf; [right; eexists; reflexivity|].
  left. split; [split; [eauto|assumption]|reflexivity].
Qed.

Lemma db_execute_cases (statement : Store.t -> Store.QueryResult * Store.t) (s : State) :
  (in_service s /\
   db_execute statement s
   = (Normal (fst (statement (store s))), set_store (snd (statement (store s))) s)) \/
  (exists e, db_execute statement s = (Throw e, s)).
Proof.
  unfold db_execute, mbind, M_bind, gets.
  destruct (db s) as [conn|] eqn:Hdb; [|right; eexists; reflexivity].
  destruct (Store.fault (store s)) as [msg|] eqn:Hf; [right; eexists; reflexivity|].
  left. split; [split; [eauto|assumption]|].
  destruct (statement (store s)); reflexivity.
Qed.

(** A storage write keeps a property that the statement keeps on a store
    in service. *)
Lemma preserves_db_execute_when (P : State -> Prop)
    (statement : Store.t -> Store.QueryResult * Store.t) :
  (forall s, in_service s -> P s -> P (set_store (snd (statement (store s))) s)) ->
  preserves P (db_execute statement).
Proof.
  intros H s HP. destruct (db_execute_cases statement s) as [[Hs ->]|[e ->]];
    [apply H; assumption|exact HP].
Qed.

Ltac head_of t :=
  lazymatch t with
  | ?f _ => head_of f
  | _ => t
  end.

(** One step through the structure of a computation, into the functions it
    calls; what an assignment or a statement has to keep is left to the
    tactic [tac], or to the reader. *)
Ltac follow_step tac :=
  first
    [ assumption
    | match goal with H : _ |- preserves _ _ => solve [apply H] end
    | lazymatch goal with
      | |- preserves _ (mret _) => apply preserves_ret
      | |- preserves _ (throw _) => apply preserves_throw
      | |- preserves _ (gets _) => apply preserves_gets
      | |- preserves _ (modify _) =>
          apply preserves_modify; first [solve [tac] | idtac]
      | |- preserves _ (mbind _ _) => apply preserves_bind; [|intros ?]
      | |- preserves _ (try_catch _ _) => apply preserves_try_catch; [|intros ?]
      | |- preserves _ (db_execute _) =>
          apply preserves_db_execute_when; first [solve [tac] | idtac]
      | |- preserves _ (mapM _ _) => cbn [mapM]
      | |- preserves _ (match ?x with _ => _ end) => destruct x
      | |- preserves _ (let _ := _ in _) => cbv zeta
      | |- preserves _ ?m => let h := head_of m in unfold h
      end ].

Ltac follow tac := repeat follow_step tac.

(** ** Start-up *)

Lemma initDB_opened (s : State) :
  sqlPlugin s = true -> Store.fault (store s) = None ->
  initDB s = (Normal true, set_db (Some connection) s).
Proof.
  intros Hp Hf. unfold initDB, try_catch, Database_load, mbind, M_bind, gets.
  rewrite Hp. cbn [negb]. rewrite Hf. reflexivity.
Qed.

Lemma initDB_failed (s : State) :
  sqlPlugin s = false \/ Store.fault (store s) <> None ->
  exists reason,
    initDB s = (Normal false, alerted ("Failed to initialize database: " ++ reason) s).
Proof.
  intros H. unfold initDB, try_catch, Database_load, mbind, M_bind, gets.
  destruct (sqlPlugin s); cbn [negb].
  - destruct (Store.fault (store s)) as [msg|]; [|destruct H; congruence].
    exists msg. reflexivity.
  - eexists. reflexivity.
Qed.

(** X1: when the SQL plugin is missing or the storage cannot be opened,
    [init] completes normally having done one thing: the alert
    [Failed to initialize database: <reason>].  No connection is kept, no
    profile is read, nothing is shown. *)
Theorem init_without_database (toLocaleString : Number -> string) (s : State) :
  sqlPlugin s = false \/ Store.fault (store s) <> None ->
  exists reason,
    init toLocaleString s
    = (Normal tt, alerted ("Failed to initialize database: " ++ reason) s).
Proof.
  intros H. destruct (initDB_failed s H) as [reason Hr]. exists reason.
  unfold init. rewrite (bind_normal _ _ _ _ _ Hr). reflexivity.
Qed.

Lemma init_without_database_witness :
  exists reason,
    init toLocaleString_en (boot false Example.page Store.empty)
    = (Normal tt,
       alerted ("Failed to initialize database: " ++ reason)
         (boot false Example.page Store.empty)).
Proof.
  apply (init_without_database toLocaleString_en (boot false Example.page Store.empty)).
  left. reflexivity.
Defined.

(** X2: on a launch with the plugin loaded, the storage in service and no
    profile row under the key 1, [init] opens the connection and does
    nothing else: the page stays on the profile set-up screen. *)
Theorem init_first_run (toLocaleString : Number -> string) (s : State) :
  sqlPlugin s = true -> Store.fault (store s) = None ->
  Store.select_profile 1 (store s) = [] ->
  init toLocaleString s = (Normal tt, set_db (Some connection) s).
Proof.
  intros Hp Hf Hsel. unfold init.
  rewrite (bind_normal _ _ _ _ _ (initDB_opened s Hp Hf)). cbn [negb].
  assert (Hs : in_service (set_db (Some connection) s))
    by (split; [eexists; reflexivity|exact Hf]).
  rewrite (bind_normal _ _ _ _ _ (loadProfile_in_service _ Hs)).
  cbn [store set_db]. rewrite Hsel. reflexivity.
Qed.

Lemma init_first_run_witness :
  init toLocaleString_en (boot true Example.page Store.empty)
  = (Normal tt, set_db (Some connection) (boot true Example.page Store.empty)).
Proof.
  apply (init_first_run toLocaleString_en (boot true Example.page Store.empty));
    reflexivity.
Defined.



Lemma getElementById_eq (id : string) (s : State) :
  getElementById id s = (Normal (document s !! id), s).
Proof. reflexivity. Qed.

Lemma gets_eq {A} (f : State -> A) (s : State) : gets f s = (Normal (f s), s).
Proof. reflexivity. Qed.

Lemma modify_eq (f : State -> State) (s : State) : modify f s = (Normal tt, f s).
Proof. reflexivity. Qed.




(** X4: the listeners are registered after [init] has returned.  When
    [init] throws (a stored profile on a page that lacks an element
    [showMainApp] writes to, say), the launch ends in the state [init] left,
    no listener is registered, and a submission of any form changes
    nothing. *)
Theorem no_listeners_when_init_throws
    (toLocaleString : Number -> string) (plugin : bool) (page : gmap string Element)
    (s s1 : State) (e : JsError) :
  init toLocaleString (boot plugin page (store s)) = (Throw e, s1) ->
  let s' := handle toLocaleString (PageLoad plugin page) s in
  s' = s1 /\
  listeners s' = [] /\
  (forall form now, handle toLocaleString (Submit form now) s' = s').
Proof.
  intros Hinit s'.
  assert (Hs : s' = s1).
  { subst s'. cbn [handle]. unfold exec, onDOMContentLoaded.
    rewrite (bind_throw _ _ _ _ _ Hinit). reflexivity. }
  assert (Hl : listeners s' = []).
  { rewrite Hs.
    assert (Hp : preserves (fun x => listeners x = []) (init toLocaleString))
      by (follow ltac:(intros; assumption)).
    specialize (Hp (boot plugin page (store s)) eq_refl).
    rewrite Hinit in Hp. exact Hp. }
  split; [exact Hs|]. split; [exact Hl|].
  intros form now. cbn [handle]. unfold dispatch. rewrite Hl. reflexivity.
Qed.

Lemma no_listeners_when_init_throws_witness :
  let s' := handle toLocaleString_en (PageLoad true ∅) Example.started in
  s' = set_currentProfile (Some (Profile.mk "ann" "USD"))
         (set_db (Some connection) (boot true ∅ (store Example.started))) /\
  listeners s' = [] /\
  (forall form now, handle toLocaleString_en (Submit form now) s' = s').
Proof.
  eapply (no_listeners_when_init_throws toLocaleString_en true ∅ Example.started).
  vm_compute. reflexivity.
Defined.

Lemma alert_eq (text : string) (s : State) : alert text s = (Normal tt, alerted text s).
Proof. reflexivity. Qed.

(** ** Rejected submissions *)

(** X5: what the profile form's handler refuses.  A missing field
    element, an empty name or currency, an undefined [db], and a storage
    error each end in exactly one alert, [Failed to save profile: ...] with
    the respective message ([Unknown error occurred] for an empty one), and
    nothing else: no row is written, no element changed, [currentProfile]
    is as before. *)
Theorem onProfileSubmit_rejected (s : State) :
  (document s !! "userName" = None \/ document s !! "currency" = None ->
   onProfileSubmit s
   = (Normal tt, alerted "Failed to save profile: Form fields not found" s)) /\
  (forall u c,
     document s !! "userName" = Some u -> document s !! "currency" = Some c ->
     value u = "" \/ value c = "" ->
     onProfileSubmit s
     = (Normal tt, alerted "Failed to save profile: Please fill in all required fields" s)) /\
  (forall u c,
     document s !! "userName" = Some u -> document s !! "currency" = Some c ->
     value u <> "" -> value c <> "" -> db s = None ->
     onProfileSubmit s
     = (Normal tt,
        alerted "Failed to save profile: Database not initialized. Please refresh the page." s)) /\
  (forall u c msg,
     document s !! "userName" = Some u -> document s !! "currency" = Some c ->
     value u <> "" -> value c <> "" -> out_of_service msg s ->
     onProfileSubmit s
     = (Normal tt,
        alerted ("Failed to save profile: "
                 ++ if String.eqb msg "" then "Unknown error occurred" else msg) s)).
Proof.
  split_and!.
  - intros H. unfold onProfileSubmit, try_catch.
    rewrite (bind_normal _ _ _ _ _ (getElementById_eq "userName" s)).
    rewrite (bind_normal _ _ _ _ _ (getElementById_eq "currency" s)).
    destruct H as [-> | ->]; [|destruct (document s !! "userName")]; reflexivity.
  - intros u c Hu Hc H. unfold onProfileSubmit, try_catch.
    rewrite (bind_normal _ _ _ _ _ (getElementById_eq "userName" s)).
    rewrite (bind_normal _ _ _ _ _ (getElementById_eq "currency" s)).
    rewrite Hu, Hc.
    destruct H as [-> | ->]; [|rewrite orb_true_r]; reflexivity.
  - intros u c Hu Hc Hn Hcur Hdb. unfold onProfileSubmit, try_catch.
    rewrite (bind_normal _ _ _ _ _ (getElementById_eq "userName" s)).
    rewrite (bind_normal _ _ _ _ _ (getElementById_eq "currency" s)).
    rewrite Hu, Hc.
    rewrite (proj2 (String.eqb_neq _ _) Hn), (proj2 (String.eqb_neq _ _) Hcur).
    cbn [orb]. rewrite (bind_normal _ _ _ _ _ (gets_eq db s)). rewrite Hdb. reflexivity.
  - intros u c msg Hu Hc Hn Hcur Hout. unfold onProfileSubmit, try_catch.
    rewrite (bind_normal _ _ _ _ _ (getElementById_eq "userName" s)).
    rewrite (bind_normal _ _ _ _ _ (getElementById_eq "currency" s)).
    rewrite Hu, Hc.
    rewrite (proj2 (String.eqb_neq _ _) Hn), (proj2 (String.eqb_neq _ _) Hcur).
    cbn [orb]. rewrite (bind_normal _ _ _ _ _ (gets_eq db s)).
    destruct (proj1 Hout) as [conn Hdb]. rewrite Hdb. cbv zeta.
    rewrite (bind_throw _ _ _ _ _ (saveProfile_out_of_service _ _ _ Hout)).
    reflexivity.
Qed.

Lemma onProfileSubmit_rejected_witness :
  onProfileSubmit Example.first_launch
  = (Normal tt,
     alerted "Failed to save profile: Please fill in all required fields"
       Example.first_launch).
Proof.
  apply (proj1 (proj2 (onProfileSubmit_rejected Example.first_launch))
           (field "profileForm" "") (field "profileForm" ""));
    [reflexivity|reflexivity|left; reflexivity].
Defined.

(** Reading a form changes nothing. *)
Lemma readAccountForm_state (s : State) : snd (readAccountForm s) = s.
Proof.
  assert (H : preserves (fun x => x = s) readAccountForm) by (follow idtac).
  apply (H s eq_refl).
Qed.

Lemma readTradeForm_state (account : Account.t) (now : string) (s : State) :
  snd (readTradeForm account now s) = s.
Proof.
  assert (H : preserves (fun x => x = s) (readTradeForm account now)) by (follow idtac).
  apply (H s eq_refl).
Qed.

Lemma db_execute_not_in_service
    (statement : Store.t -> Store.QueryResult * Store.t) (s : State) :
  ~ in_service s -> exists e, db_execute statement s = (Throw e, s).
Proof.
  intros H. destruct (db_execute_cases statement s) as [[Hs _]|He]; [contradiction|exact He].
Qed.

(** X6: whenever the connection is missing or the storage out of service,
    a submission of the account form completes normally with exactly one
    alert, [Failed to save account: <reason>]; the store, the page (the
    form is not reset, the modal not closed) and the globals stay as they
    were, whether or not the form's fields are on the page. *)
Theorem onAccountSubmit_not_in_service (s : State) :
  ~ in_service s ->
  exists reason,
    onAccountSubmit s = (Normal tt, alerted ("Failed to save account: " ++ reason) s).
Proof.
  intros H. unfold onAccountSubmit, try_catch.
  pose proof (readAccountForm_state s) as Hs.
  destruct (readAccountForm s) as [[account|e] s1] eqn:Hread; cbn [snd] in Hs; subst s1.
  - rewrite (bind_normal _ _ _ _ _ Hread).
    destruct (db_execute_not_in_service (Store.insert_account (account_row account)) s H)
      as [e He].
    assert (Hsave : saveAccount account s = (Throw e, s))
      by (unfold saveAccount; apply (bind_throw _ _ _ _ _ He)).
    rewrite (bind_throw _ _ _ _ _ Hsave). exists (message e). reflexivity.
  - rewrite (bind_throw _ _ _ _ _ Hread). exists (message e). reflexivity.
Qed.

Lemma onAccountSubmit_not_in_service_witness :
  exists reason,
    onAccountSubmit Example.faulty
    = (Normal tt, alerted ("Failed to save account: " ++ reason) Example.faulty).
Proof.
  apply (onAccountSubmit_not_in_service Example.faulty).
  intros [_ H]. discriminate H.
Defined.

(** X7: with no account selected, a submission of the trade form and
    [openTradeModal] both answer with the alert
    [Please select an account first] and do nothing else (the form is not
    even read); with an account selected but the storage not in service, the
    submission ends in one alert [Failed to save trade: <reason>], the
    state otherwise unchanged. *)
Theorem onTradeSubmit_refused
    (toLocaleString : Number -> string) (now : string) (s : State) :
  (currentAccount s = None ->
   onTradeSubmit toLocaleString now s
   = (Normal tt, alerted "Please select an account first" s) /\
   openTradeModal s = (Normal tt, alerted "Please select an account first" s)) /\
  (is_Some (currentAccount s) -> ~ in_service s ->
   exists reason,
     onTradeSubmit toLocaleString now s
     = (Normal tt, alerted ("Failed to save trade: " ++ reason) s)).
Proof.
  split.
  - intros H. unfold onTradeSubmit, openTradeModal.
    rewrite !(bind_normal _ _ _ _ _ (gets_eq currentAccount s)). rewrite H.
    split; reflexivity.
  - intros [account Hacc] H. unfold onTradeSubmit.
    rewrite (bind_normal _ _ _ _ _ (gets_eq currentAccount s)). rewrite Hacc.
    unfold try_catch.
    pose proof (readTradeForm_state account now s) as Hs.
    destruct (readTradeForm account now s) as [[trade|e] s1] eqn:Hread;
      cbn [snd] in Hs; subst s1.
    + rewrite (bind_normal _ _ _ _ _ Hread).
      destruct (db_execute_not_in_service (Store.insert_trade (trade_row trade)) s H)
        as [e He].
      assert (Hsave : saveTrade trade s = (Throw e, s))
        by (unfold saveTrade; apply (bind_throw _ _ _ _ _ He)).
      rewrite (bind_throw _ _ _ _ _ Hsave). exists (message e). reflexivity.
    + rewrite (bind_throw _ _ _ _ _ Hread). exists (message e). reflexivity.
Qed.

Lemma onTradeSubmit_refused_witness :
  (onTradeSubmit toLocaleString_en "2024-01-03T09:30:00.000Z" Example.unselected
   = (Normal tt, alerted "Please select an account first" Example.unselected) /\
   openTradeModal Example.unselected
   = (Normal tt, alerted "Please select an account first" Example.unselected)) /\
  exists reason,
    onTradeSubmit toLocaleString_en "2024-01-03T09:30:00.000Z" Example.faulty
    = (Normal tt, alerted ("Failed to save trade: " ++ reason) Example.faulty).
Proof.
  split.
  - apply (proj1 (onTradeSubmit_refused toLocaleString_en "2024-01-03T09:30:00.000Z"
                    Example.unselected)).
    reflexivity.
  - apply (proj2 (onTradeSubmit_refused toLocaleString_en "2024-01-03T09:30:00.000Z"
                    Example.faulty)).
    + eexists. reflexivity.
    + intros [_ H]. discriminate H.
Defined.

(** ** The self-test *)

Lemma select_profile_other (row : ProfileRow.t) (id : Z) (st : Store.t) :
  ProfileRow.id row <> id ->
  Store.select_profile id (snd (Store.insert_or_replace_profile row st))
  = Store.select_profile id st.
Proof.
  intros Hne. unfold Store.select_profile, Store.insert_or_replace_profile.
  cbn [snd Store.profile]. rewrite filter_app.
  rewrite (filter_cons _ row), decide_False by exact Hne.
  rewrite filter_nil, app_nil_r.
  induction (Store.profile st) as [|r l IH]; [reflexivity|].
  rewrite !filter_cons.
  destruct (decide (ProfileRow.id r <> ProfileRow.id row)) as [H1|H1].
  - rewrite filter_cons. destruct (decide (ProfileRow.id r = id)); rewrite IH; reflexivity.
  - rewrite IH. rewrite decide_False; [reflexivity|].
    intros H2. apply H1. intros H3. apply Hne. congruence.
Qed.

(** X8: [testDatabase] never throws.  It answers [true] exactly when the
    connection is open and the storage in service, having written its row
    under the key 999, and [false] otherwise, having changed nothing.  In
    both cases the profile row under the key 1, the accounts and the trades
    are as before. *)
Theorem testDatabase_result (s : State) :
  (in_service s ->
   testDatabase s
   = (Normal true,
      set_store (snd (Store.insert_or_replace_profile test_row (store s))) s)) /\
  (~ in_service s -> testDatabase s = (Normal false, s)) /\
  Store.select_profile 1 (store (exec testDatabase s)) = Store.select_profile 1 (store s) /\
  Store.accounts (store (exec testDatabase s)) = Store.accounts (store s) /\
  Store.trades (store (exec testDatabase s)) = Store.trades (store s).
Proof.
  assert (Hin : in_service s ->
            testDatabase s
            = (Normal true,
               set_store (snd (Store.insert_or_replace_profile test_row (store s))) s)).
  { intros H. unfold testDatabase, try_catch.
    rewrite (bind_normal _ _ _ _ _ (db_select_in_service _ _ H)).
    rewrite (bind_normal _ _ _ _ _ (db_execute_in_service _ _ H)).
    rewrite (bind_normal _ _ _ _ _
               (db_select_in_service _ _
                  (in_service_set_store
                     (snd (Store.insert_or_replace_profile test_row (store s))) s
                     H eq_refl))).
    reflexivity. }
  assert (Hout : ~ in_service s -> testDatabase s = (Normal false, s)).
  { intros H. unfold testDatabase, try_catch.
    destruct (db_select_cases (fun _ => tt) s) as [[Hs _]|[e He]]; [contradiction|].
    rewrite (bind_throw _ _ _ _ _ He). reflexivity. }
  split; [exact Hin|]. split; [exact Hout|].
  unfold exec.
  destruct (db_select_cases (fun _ => tt) s) as [[Hs _]|[e He]].
  - rewrite (Hin Hs). cbn [snd store set_store].
    split; [|split; reflexivity].
    apply select_profile_other. discriminate.
  - unfold testDatabase, try_catch. rewrite (bind_throw _ _ _ _ _ He).
    split_and!; reflexivity.
Qed.

(** ** Saving the profile again *)

Lemma filter_replaced (row row' : ProfileRow.t) (rows : list ProfileRow.t) :
  ProfileRow.id row = ProfileRow.id row' ->
  filter (fun r => ProfileRow.id r <> ProfileRow.id row')
    (filter (fun r => ProfileRow.id r <> ProfileRow.id row) rows ++ [row])%list
  = filter (fun r => ProfileRow.id r <> ProfileRow.id row') rows.
Proof.
  intros Heq. rewrite filter_app.
  rewrite (filter_cons _ row), decide_False by (intros H; apply H; exact Heq).
  rewrite filter_nil, app_nil_r. rewrite Heq.
  induction rows as [|r l IH]; [reflexivity|].
  rewrite !filter_cons.
  destruct (decide (ProfileRow.id r <> ProfileRow.id row')) as [H|H].
  - rewrite filter_cons, decide_True by exact H. rewrite IH. reflexivity.
  - exact IH.
Qed.

(** X9: with the storage in service, saving a profile overwrites: the
    state after saving [p] and then [q] is the state after saving [q] alone,
    so nothing of an earlier profile is kept (and saving twice is saving
    once). *)
Theorem saveProfile_last_wins (p q : Profile.t) (s : State) :
  in_service s ->
  exec (saveProfile q) (exec (saveProfile p) s) = exec (saveProfile q) s.
Proof.
  intros H. unfold exec.
  rewrite (saveProfile_in_service p s H). cbn [snd].
  rewrite (saveProfile_in_service q _
             (in_service_set_store
                (snd (Store.insert_or_replace_profile (profile_row p) (store s))) s
                H eq_refl)).
  rewrite (saveProfile_in_service q s H). cbn [snd store set_store].
  unfold set_store. cbn. f_equal.
  unfold Store.insert_or_replace_profile. cbn [snd Store.profile Store.accounts
    Store.trades Store.fault].
  f_equal. f_equal. apply (filter_replaced (profile_row p) (profile_row q)). reflexivity.
Qed.

Lemma saveProfile_last_wins_witness :
  exec (saveProfile (Profile.mk "bea" "EUR"))
    (exec (saveProfile (Profile.mk "ann" "GBP")) Example.started)
  = exec (saveProfile (Profile.mk "bea" "EUR")) Example.started.
Proof.
  apply (saveProfile_last_wins (Profile.mk "ann" "GBP") (Profile.mk "bea" "EUR")
           Example.started).
  split; [eexists|]; reflexivity.
Defined.

(** ** Properties every event keeps *)

Section Steps.

Context (toLocaleString : Number -> string) (P : State -> Prop).
Hypothesis keeps_boot : forall plugin page s, P s -> P (boot plugin page (store s)).
Hypothesis keeps_load : preserves P (onDOMContentLoaded toLocaleString).
Hypothesis keeps_listener : forall now l, preserves P (listener toLocaleString now l).
Hypothesis keeps_inline : forall h, preserves P (inline h).
Hypothesis keeps_document : forall v s, P s -> P (set_document v s).
Hypothesis keeps_fault : forall f s, P s -> P (set_store (Store.with_fault f (store s)) s).

Lemma dispatch_keeps (id type now : string) (s : State) :
  P s -> P (dispatch toLocaleString id type now s).
Proof.
  unfold dispatch. generalize (listeners s). intros ls. revert s.
  induction ls as [|[[id' type'] l] ls IH]; intros s H; [exact H|].
  cbn [fold_left]. apply IH.
  destruct (String.eqb id' id && String.eqb type' type); [|exact H].
  apply keeps_listener, H.
Qed.

Lemma handle_keeps (ev : Event) (s : State) :
  P s -> P (handle toLocaleString ev s).
Proof.
  intros H. destruct ev as [plugin page|form now|id text|h|f]; cbn [handle].
  - apply keeps_load, keeps_boot, H.
  - apply dispatch_keeps, H.
  - destruct (document s !! id); [|exact H]. apply dispatch_keeps, keeps_document, H.
  - apply keeps_inline, H.
  - apply keeps_fault, H.
Qed.

Lemma run_keeps (evs : list Event) (s : State) :
  P s -> P (run toLocaleString evs s).
Proof.
  unfold run. revert s. induction evs as [|ev evs IH]; intros s H; [exact H|].
  cbn [fold_left]. apply IH, handle_keeps, H.
Qed.

End Steps.

(** ** Rows are only ever added *)

Lemma extends_account (st0 st : Store.t) (row : Z -> AccountRow.t) :
  extends st0 st -> extends st0 (snd (Store.insert_account row st)).
Proof. intros [Ha Ht]. split; [apply prefix_app_r, Ha|exact Ht]. Qed.

Lemma extends_trade (st0 st : Store.t) (row : Z -> TradeRow.t) :
  extends st0 st -> extends st0 (snd (Store.insert_trade row st)).
Proof. intros [Ha Ht]. split; [exact Ha|apply prefix_app_r, Ht]. Qed.

Ltac extends_tac :=
  intros;
  first [ assumption
        | apply extends_account; assumption
        | apply extends_trade; assumption ].

(** X10: no event deletes or changes a stored account or trade.  Over any
    sequence of events, from any state, the [accounts] and [trades] tables
    only grow at the end: the tables before are prefixes of the tables
    after. *)
Theorem tables_append_only
    (toLocaleString : Number -> string) (evs : list Event) (s : State) :
  extends (store s) (store (run toLocaleString evs s)).
Proof.
  apply (run_keeps toLocaleString (fun x => extends (store s) (store x))).
  - intros plugin page x H. exact H.
  - follow extends_tac.
  - intros now l. destruct l; follow extends_tac.
  - intros h. destruct h; follow extends_tac.
  - intros v x H. exact H.
  - intros f x H. exact H.
  - split; reflexivity.
Qed.

(** ** Trades and their accounts *)

Lemma returns_bind {A B} (R : B -> Prop) (m : M A) (k : A -> M B) :
  (forall a, returns R (k a)) -> returns R (m ≫= k).
Proof.
  intros Hk s b s' H. rewrite bind_unfold in H.
  destruct (m s) as [[a|e] s1]; [|discriminate]. apply (Hk a s1 b s' H).
Qed.

Lemma returns_ret {A} (R : A -> Prop) (a : A) : R a -> returns R (mret a).
Proof. intros H s a' s' Heq. injection Heq as <- _. exact H. Qed.

Lemma readTradeForm_accountId (account : Account.t) (now : string) :
  returns (fun trade => TradeFields.accountId trade = Account.id account
                        /\ TradeFields.date trade = now)
    (readTradeForm account now).
Proof.
  unfold readTradeForm. repeat (apply returns_bind; intros ?).
  apply returns_ret. split; reflexivity.
Qed.

Lemma account_keys_sorted (st : Store.t) :
  account_keys st ≡ₚ AccountRow.id <$> Store.select_accounts st.
Proof.
  unfold account_keys, Store.select_accounts. rewrite merge_sort_Permutation. reflexivity.
Qed.

Lemma linked_account (row : Z -> AccountRow.t) (s : State) :
  linked s -> linked (set_store (snd (Store.insert_account row (store s))) s).
Proof.
  intros (Ha & Hc & Ht). unfold linked, account_keys.
  cbn [store set_store accounts currentAccount Store.insert_account snd Store.accounts
       Store.trades].
  rewrite fmap_app. split_and!; intros x Hx; apply elem_of_app; left.
  - apply Ha, Hx.
  - apply Hc, Hx.
  - apply Ht, Hx.
Qed.

Lemma linked_trade (row : Z -> TradeRow.t) (s : State) :
  (forall id, TradeRow.account_id (row id) ∈ account_keys (store s)) ->
  linked s -> linked (set_store (snd (Store.insert_trade row (store s))) s).
Proof.
  intros Hrow (Ha & Hc & Ht). unfold linked, account_keys.
  cbn [store set_store accounts currentAccount Store.insert_trade snd Store.accounts
       Store.trades].
  split_and!; [exact Ha|exact Hc|].
  intros r Hr. apply elem_of_app in Hr as [Hr|Hr]; [apply Ht, Hr|].
  apply list_elem_of_singleton in Hr as ->. apply Hrow.
Qed.

Ltac linked_tac :=
  intros;
  first [ assumption
        | apply linked_account; assumption ].

Lemma linked_loadAccounts : preserves linked loadAccounts.
Proof.
  intros s H. unfold loadAccounts. apply exec_try_catch; [|intros e; follow linked_tac].
  destruct (db_select_cases Store.select_accounts s) as [[_ Hsel]|[e He]].
  - rewrite (bind_normal _ _ _ _ _ Hsel).
    apply exec_bind; [|intros _; follow linked_tac].
    destruct H as (Ha & Hc & Ht). split_and!; [|exact Hc|exact Ht].
    intros a Hin. cbn [accounts set_accounts store] in *.
    apply list_elem_of_fmap in Hin as (row & -> & Hrow).
    rewrite account_keys_sorted. cbn [account_of_row Account.id].
    apply list_elem_of_fmap_2, Hrow.
  - rewrite (bind_throw _ _ _ _ _ He). exact H.
Qed.

Lemma linked_selectAccount (id : Z) : preserves linked (selectAccount id).
Proof.
  intros s H. unfold selectAccount.
  rewrite (bind_normal _ _ _ _ _ (gets_eq accounts s)).
  apply exec_bind; [|intros _; follow linked_tac].
  destruct H as (Ha & Hc & Ht). split_and!; [exact Ha| |exact Ht].
  intros a Hfind. cbn [currentAccount set_currentAccount modify snd] in Hfind.
  apply find_some in Hfind as [Hin _]. apply Ha, list_elem_of_In, Hin.
Qed.

Lemma linked_onTradeSubmit (toLocaleString : Number -> string) (now : string) :
  preserves linked (onTradeSubmit toLocaleString now).
Proof.
  intros s H. unfold onTradeSubmit.
  rewrite (bind_normal _ _ _ _ _ (gets_eq currentAccount s)).
  destruct (currentAccount s) as [account|] eqn:Hacc; [|exact H].
  apply exec_try_catch; [|intros e; follow linked_tac].
  pose proof (readTradeForm_state account now s) as Hs.
  pose proof (readTradeForm_accountId account now s) as Hid.
  destruct (readTradeForm account now s) as [[trade|e] s1] eqn:Hread;
    cbn [snd] in Hs; subst s1.
  - destruct (Hid trade s eq_refl) as [Hid' _].
    rewrite (bind_normal _ _ _ _ _ Hread).
    apply exec_bind; [|intros _; follow linked_tac].
    unfold saveTrade. apply exec_bind; [|intros _; follow linked_tac].
    destruct (db_execute_cases (Store.insert_trade (trade_row trade)) s)
      as [[_ ->]|[e ->]]; [|exact H].
    apply linked_trade; [|exact H].
    intros id. cbn [trade_row TradeRow.account_id]. rewrite Hid'.
    apply (proj1 (proj2 H)), Hacc.
  - rewrite (bind_throw _ _ _ _ _ Hread). exact H.
Qed.

Lemma linked_reachable (toLocaleString : Number -> string) (s : State) :
  reachable toLocaleString s -> linked s.
Proof.
  intros [evs ->].
  pose proof linked_loadAccounts as H1. pose proof linked_selectAccount as H2.
  pose proof (linked_onTradeSubmit toLocaleString) as H3.
  apply (run_keeps toLocaleString linked).
  - intros plugin page x (_ & _ & Ht). split_and!; [| |exact Ht].
    + intros a Ha. apply elem_of_nil in Ha as [].
    + intros a Ha. discriminate Ha.
  - follow linked_tac.
  - intros now l. destruct l; follow linked_tac.
  - intros h. destruct h; follow linked_tac.
  - intros v x H. exact H.
  - intros f x H. exact H.
  - split_and!.
    + intros a Ha. apply elem_of_nil in Ha as [].
    + intros a Ha. discriminate Ha.
    + intros r Hr. apply elem_of_nil in Hr as [].
Qed.

(** X11: in every reachable state each stored trade belongs to a stored
    account: its [account_id] is the key of a row of [accounts].  The
    script offers no other account to trade under than one it has loaded
    from the store. *)
Theorem trades_have_accounts (toLocaleString : Number -> string) (s : State) :
  reachable toLocaleString s ->
  forall r, r ∈ Store.trades (store s) ->
    exists a, a ∈ Store.accounts (store s) /\ AccountRow.id a = TradeRow.account_id r.
Proof.
  intros Hr r Hin. destruct (linked_reachable toLocaleString s Hr) as (_ & _ & Ht).
  apply Ht in Hin. apply list_elem_of_fmap in Hin as (a & Heq & Ha).
  exists a. split; [exact Ha|symmetry; exact Heq].
Qed.

Lemma trades_have_accounts_witness :
  Store.trades (store Example.traded) <> [] /\
  forall r, r ∈ Store.trades (store Example.traded) ->
    exists a, a ∈ Store.accounts (store Example.traded)
              /\ AccountRow.id a = TradeRow.account_id r.
Proof.
  split; [discriminate|].
  apply (trades_have_accounts toLocaleString_en Example.traded).
  exists (Example.setup ++ Example.open_account ++ Example.two_trades)%list.
  vm_compute. reflexivity.
Defined.

(** ** The order of the account list *)

Lemma next_id_above (ids : list Z) (x : Z) : x ∈ ids -> x < Store.next_id ids.
Proof.
  unfold Store.next_id. induction ids as [|y ids IH]; intros H.
  - apply elem_of_nil in H as [].
  - cbn [fold_right]. apply elem_of_cons in H as [->|H]; [lia|].
    specialize (IH H). lia.
Qed.

Lemma keys_ascending_account (account : AccountFields.t) (st : Store.t) :
  keys_ascending st ->
  keys_ascending (snd (Store.insert_account (account_row account) st)).
Proof.
  intros H. unfold keys_ascending. cbn [Store.insert_account snd Store.accounts].
  apply StronglySorted_app_2; [|exact H|repeat constructor].
  intros r1 r2 H1 H2. apply list_elem_of_singleton in H2 as ->.
  cbn [account_row AccountRow.id]. apply next_id_above.
  apply (list_elem_of_fmap_2 AccountRow.id), H1.
Qed.

Ltac keys_tac :=
  intros;
  first [ assumption
        | apply keys_ascending_account; assumption ].

Lemma keys_ascending_reachable (toLocaleString : Number -> string) (s : State) :
  reachable toLocaleString s -> keys_ascending (store s).
Proof.
  intros [evs ->].
  apply (run_keeps toLocaleString (fun x => keys_ascending (store x))).
  - intros plugin page x H. exact H.
  - follow keys_tac.
  - intros now l. destruct l; follow keys_tac.
  - intros h. destruct h; follow keys_tac.
  - intros v x H. exact H.
  - intros f x H. exact H.
  - constructor.
Qed.

Lemma keys_unique (rows : list AccountRow.t) (r1 r2 : AccountRow.t) :
  StronglySorted (fun r1 r2 => AccountRow.id r1 < AccountRow.id r2) rows ->
  r1 ∈ rows -> r2 ∈ rows -> AccountRow.id r1 = AccountRow.id r2 -> r1 = r2.
Proof.
  induction 1 as [|r rows Hs IH Hr]; intros H1 H2 Heq.
  - apply elem_of_nil in H1 as [].
  - rewrite Forall_forall in Hr.
    apply elem_of_cons in H1 as [->|H1]; apply elem_of_cons in H2 as [->|H2].
    + reflexivity.
    + specialize (Hr _ H2). lia.
    + specialize (Hr _ H1). lia.
    + apply IH; assumption.
Qed.

Lemma keys_descending (rows : list AccountRow.t) :
  StronglySorted (fun r1 r2 => AccountRow.id r1 < AccountRow.id r2) rows ->
  StronglySorted Store.id_desc (reverse rows).
Proof.
  induction 1 as [|r rows Hs IH Hr]; [constructor|].
  rewrite reverse_cons. apply StronglySorted_app_2; [|exact IH|repeat constructor].
  intros r1 r2 H1 H2. apply list_elem_of_singleton in H2 as ->.
  rewrite elem_of_reverse in H1. rewrite Forall_forall in Hr. specialize (Hr _ H1).
  unfold Store.id_desc. lia.
Qed.

#[local] Instance id_desc_trans : Transitive Store.id_desc.
Proof. intros x y z. unfold Store.id_desc. lia. Qed.

#[local] Instance id_desc_total : Total Store.id_desc.
Proof. intros x y. unfold Store.id_desc. lia. Qed.

Lemma select_accounts_reverse (st : Store.t) :
  keys_ascending st -> Store.select_accounts st = reverse (Store.accounts st).
Proof.
  intros H. unfold Store.select_accounts.
  apply (StronglySorted_unique_strong Store.id_desc).
  - intros r1 r2 H1 H2 H12 H21.
    rewrite merge_sort_Permutation in H1. rewrite elem_of_reverse in H2.
    apply (keys_unique _ _ _ H H1 H2). unfold Store.id_desc in *. lia.
  - apply StronglySorted_merge_sort; apply _.
  - apply keys_descending, H.
  - rewrite merge_sort_Permutation, reverse_Permutation. reflexivity.
Qed.

Lemma loadAccounts_in_service (s : State) :
  in_service s ->
  accounts (exec loadAccounts s) = account_of_row <$> Store.select_accounts (store s).
Proof.
  intros H. unfold exec, loadAccounts.
  apply (exec_try_catch (fun x => accounts x = _)); [|intros e; follow ltac:(intros; assumption)].
  rewrite (bind_normal _ _ _ _ _ (db_select_in_service _ _ H)).
  apply (exec_bind (fun x => accounts x = _)); [reflexivity|].
  intros _. follow ltac:(intros; assumption).
Qed.

(** X12: in every reachable state with the storage in service,
    [loadAccounts] leaves in [accounts] the stored accounts in the reverse
    of the order they were created in: the newest account comes first. *)
Theorem accounts_newest_first (toLocaleString : Number -> string) (s : State) :
  reachable toLocaleString s -> in_service s ->
  accounts (exec loadAccounts s) = account_of_row <$> reverse (Store.accounts (store s)).
Proof.
  intros Hr Hs. rewrite (loadAccounts_in_service s Hs).
  rewrite (select_accounts_reverse _ (keys_ascending_reachable toLocaleString s Hr)).
  reflexivity.
Qed.

Lemma accounts_newest_first_witness :
  Account.name <$> accounts (exec loadAccounts Example.two_accounts) = ["Swing"; "Main"] /\
  accounts (exec loadAccounts Example.two_accounts)
  = account_of_row <$> reverse (Store.accounts (store Example.two_accounts)).
Proof.
  split; [reflexivity|].
  apply (accounts_newest_first toLocaleString_en Example.two_accounts).
  - exists (Example.setup ++ Example.open_account ++ Example.second_account)%list.
    vm_compute. reflexivity.
  - split; [eexists|]; reflexivity.
Defined.

(** ** Selecting an account *)

(** X13: [selectAccount id] makes the first loaded account with that id
    the current one, or none when there is no such account, and loads the
    trades stored under [id] either way when the storage is in service
    (leaving [trades] as it was when it is not); the loaded accounts and the
    store are unchanged. *)
Theorem selectAccount_selects (s : State) (id : Z) :
  let s' := exec (selectAccount id) s in
  currentAccount s' = List.find (fun a => Account.id a =? id) (accounts s) /\
  (forall a, currentAccount s' = Some a -> Account.id a = id /\ a ∈ accounts s) /\
  (in_service s -> trades s' = trade_of_row <$> Store.select_trades id (store s)) /\
  (~ in_service s -> trades s' = trades s) /\
  accounts s' = accounts s /\
  store s' = store s.
Proof.
  intros s'. subst s'. unfold exec, selectAccount.
  rewrite (bind_normal _ _ _ _ _ (gets_eq accounts s)).
  rewrite (bind_normal _ _ _ _ _ (modify_eq _ s)).
  set (s1 := set_currentAccount _ s).
  assert (Hcur : currentAccount
            (snd ((loadTrades id;; renderAccounts;;
                   update "tradesSection" (with_display "block")) s1))
          = List.find (fun a => Account.id a =? id) (accounts s)).
  { assert (Hp : preserves (fun x => currentAccount x = currentAccount s1)
                   (loadTrades id;; renderAccounts;;
                    update "tradesSection" (with_display "block")))
      by (follow ltac:(intros; assumption)).
    apply (Hp s1 eq_refl). }
  split_and!.
  - exact Hcur.
  - intros a Ha. rewrite Hcur in Ha. apply find_some in Ha as [Hin Hid].
    split; [lia|apply list_elem_of_In, Hin].
  - intros Hs. apply (exec_bind (fun x => trades x = _)).
    + apply (loadTrades_in_service id s1). exact Hs.
    + intros _. follow ltac:(intros; assumption).
  - intros Hs. apply (exec_bind (fun x => trades x = _)).
    + unfold loadTrades, try_catch.
      destruct (db_select_cases (Store.select_trades id) s1) as [[Hs1 _]|[e He]].
      * destruct Hs. exact Hs1.
      * rewrite (bind_throw _ _ _ _ _ He). reflexivity.
    + intros _. follow ltac:(intros; assumption).
  - assert (Hp : preserves (fun x => accounts x = accounts s1)
                   (loadTrades id;; renderAccounts;;
                    update "tradesSection" (with_display "block")))
      by (follow ltac:(intros; assumption)).
    apply (Hp s1 eq_refl).
  - assert (Hp : preserves (fun x => store x = store s1)
                   (loadTrades id;; renderAccounts;;
                    update "tradesSection" (with_display "block")))
      by (follow ltac:(intros; assumption)).
    apply (Hp s1 eq_refl).
Qed.

Lemma selectAccount_selects_witness :
  let s' := exec (selectAccount 7) Example.traded in
  currentAccount s' = None /\
  currentAccount s' = List.find (fun a => Account.id a =? 7) (accounts Example.traded) /\
  (forall a, currentAccount s' = Some a -> Account.id a = 7 /\ a ∈ accounts Example.traded) /\
  (in_service Example.traded ->
   trades s' = trade_of_row <$> Store.select_trades 7 (store Example.traded)) /\
  (~ in_service Example.traded -> trades s' = trades Example.traded) /\
  accounts s' = accounts Example.traded /\
  store s' = store Example.traded.
Proof.
  split; [reflexivity|].
  apply (selectAccount_selects Example.traded 7).
Defined.

(** ** Who writes the statistics *)

Lemma content_reset_field (form_id : string) (el : Element) :
  content (reset_field form_id el) = content el.
Proof. unfold reset_field. destruct (decide (form el = Some form_id)); reflexivity. Qed.

Lemma shown_reset (form_id id : string) (s : State) :
  shown (set_document (reset_field form_id <$> document s) s) id = shown s id.
Proof.
  unfold shown. cbn [document set_document]. rewrite lookup_fmap.
  destruct (document s !! id) as [el|]; [|reflexivity].
  cbn. rewrite content_reset_field. reflexivity.
Qed.

Lemma shown_insert (id' id : string) (el : Element) (s : State) :
  id' <> id ->
  shown (set_document (<[id' := el]> (document s)) s) id = shown s id.
Proof.
  intros H. unfold shown. cbn [document set_document].
  rewrite lookup_insert_ne by exact H. reflexivity.
Qed.

Ltac shown_tac :=
  intros;
  first [ assumption
        | rewrite shown_reset; assumption
        | rewrite shown_insert by discriminate; assumption ].

(** X14: the four statistics elements are written by no inline handler
    ([selectAccount] and the four modal functions), nor by the profile
    form, the account form or [calculateRR]: what each of them shows stays
    as it was.  So after another account is selected the panel still shows
    the figures of the trades listed before. *)
Theorem statistics_untouched (s : State) (id : string) :
  id ∈ statistics ->
  (forall h, shown (exec (inline h) s) id = shown s id) /\
  shown (exec onProfileSubmit s) id = shown s id /\
  shown (exec onAccountSubmit s) id = shown s id /\
  shown (exec calculateRR s) id = shown s id.
Proof.
  intros Hid.
  assert (H : forall m : M unit,
            preserves (fun x => shown x id = shown s id) m ->
            shown (exec m s) id = shown s id)
    by (intros m Hm; apply (Hm s eq_refl)).
  unfold statistics in Hid.
  repeat (apply elem_of_cons in Hid as [->|Hid]);
    [| | | |apply elem_of_nil in Hid as []].
  all: split_and!; [intros h; destruct h|..]; apply H; follow shown_tac.
Qed.

Lemma statistics_untouched_witness :
  shown Example.traded "totalPnL" = Some (Text "USD 30.00") /\
  (forall h, shown (exec (inline h) Example.traded) "totalPnL"
             = shown Example.traded "totalPnL") /\
  shown (exec onProfileSubmit Example.traded) "totalPnL" = shown Example.traded "totalPnL" /\
  shown (exec onAccountSubmit Example.traded) "totalPnL" = shown Example.traded "totalPnL" /\
  shown (exec calculateRR Example.traded) "totalPnL" = shown Example.traded "totalPnL".
Proof.
  split; [reflexivity|].
  apply (statistics_untouched Example.traded "totalPnL").
  apply list_elem_of_here.
Defined.

Lemma updateStats_no_trades (toLocaleString : Number -> string) (P : State -> Prop) :
  (forall s, P s -> trades s = []) -> preserves P (updateStats toLocaleString).
Proof.
  intros Hts s H. unfold updateStats.
  rewrite (bind_normal _ _ _ _ _ (gets_eq trades s)). rewrite (Hts s H). exact H.
Qed.

(** X15: a launch never fills in the statistics.  [init] calls
    [updateStats] before any trades are loaded, so after [DOMContentLoaded]
    each of the four statistics elements shows what the page itself came
    with, whatever trades the store holds. *)
Theorem launch_shows_no_statistics
    (toLocaleString : Number -> string) (plugin : bool) (page : gmap string Element)
    (s : State) (id : string) :
  id ∈ statistics ->
  shown (handle toLocaleString (PageLoad plugin page) s) id = content <$> page !! id.
Proof.
  intros Hid. cbn [handle].
  assert (H : preserves (fun x => trades x = [] /\ shown x id = content <$> page !! id)
                (onDOMContentLoaded toLocaleString)).
  { pose proof (updateStats_no_trades toLocaleString
                  (fun x => trades x = [] /\ shown x id = content <$> page !! id)
                  (fun x Hx => proj1 Hx)) as Hstats.
    unfold statistics in Hid.
    repeat (apply elem_of_cons in Hid as [->|Hid]);
      [| | | |apply elem_of_nil in Hid as []].
    all: follow ltac:(intros;
                      match goal with H : _ /\ _ |- _ => destruct H end;
                      split; [assumption|shown_tac]).
  }
  apply (H (boot plugin page (store s))). split; reflexivity.
Qed.

Lemma launch_shows_no_statistics_witness :
  Store.trades (store Example.traded) <> [] /\
  shown (handle toLocaleString_en (PageLoad true Example.page) Example.traded) "totalPnL"
  = content <$> Example.page !! "totalPnL".
Proof.
  split; [discriminate|].
  apply (launch_shows_no_statistics toLocaleString_en true Example.page Example.traded).
  apply list_elem_of_here.
Defined.

(** ** Elements stay on the page *)

Lemma present_insert (ids : list string) (id : string) (el : Element) (s : State) :
  present ids s -> present ids (set_document (<[id := el]> (document s)) s).
Proof.
  intros H id' Hid. cbn [document set_document].
  destruct (decide (id = id')) as [->|Hne].
  - rewrite lookup_insert_eq. eauto.
  - rewrite lookup_insert_ne by exact Hne. apply H, Hid.
Qed.

Lemma present_reset (ids : list string) (form_id : string) (s : State) :
  present ids s -> present ids (set_document (reset_field form_id <$> document s) s).
Proof.
  intros H id Hid. cbn [document set_document]. rewrite lookup_fmap.
  destruct (H id Hid) as [el ->]. eauto.
Qed.

Ltac present_tac :=
  intros;
  first [ assumption
        | apply present_insert; assumption
        | apply present_reset; assumption ].

Ltac both tac1 tac2 :=
  intros;
  repeat match goal with H : _ /\ _ |- _ => destruct H end;
  split; [tac1|tac2].

(** ** What a launch registers *)

Lemma testDatabase_normal (s : State) : exists b, fst (testDatabase s) = Normal b.
Proof.
  unfold testDatabase, try_catch.
  match goal with
  | |- exists b, fst (match ?m with _ => _ end) = _ => destruct m as [[b|e] s']
  end; eauto.
Qed.

Lemma register_present (id type : string) (l : Listener) (s : State) :
  is_Some (document s !! id) ->
  (el ← getElementById id;
   match el with
   | Some _ => addEventListener id type l
   | None => mret tt
   end) s
  = (Normal tt, set_listeners (listeners s ++ [(id, type, l)]) s).
Proof.
  intros [el H]. rewrite (bind_normal _ _ _ _ _ (getElementById_eq id s)).
  rewrite H. reflexivity.
Qed.

Lemma registers (s : State) :
  present (fst ∘ fst <$> registrations) s ->
  listeners s = [] ->
  (setupProfileForm;; setupAccountForm;; setupTradeForm;;
   mapM (fun id =>
           el ← getElementById id;
           match el with
           | Some _ => addEventListener id "input" CalculateRR
           | None => mret tt
           end)
        ["entryPrice"; "takeProfit"; "stopLoss"];;
   mret tt) s
  = (Normal tt, set_listeners registrations s).
Proof.
  intros Hdoc Hl.
  assert (H1 : is_Some (document s !! "profileForm")) by (apply Hdoc; set_solver).
  assert (H2 : is_Some (document s !! "accountForm")) by (apply Hdoc; set_solver).
  assert (H3 : is_Some (document s !! "tradeForm")) by (apply Hdoc; set_solver).
  assert (H4 : is_Some (document s !! "entryPrice")) by (apply Hdoc; set_solver).
  assert (H5 : is_Some (document s !! "takeProfit")) by (apply Hdoc; set_solver).
  assert (H6 : is_Some (document s !! "stopLoss")) by (apply Hdoc; set_solver).
  destruct H1 as [e1 H1], H2 as [e2 H2], H3 as [e3 H3], H4 as [e4 H4],
    H5 as [e5 H5], H6 as [e6 H6].
  unfold setupProfileForm, setupAccountForm, setupTradeForm. cbn [mapM].
  unfold mbind, M_bind, mret, M_ret, getElementById, gets, addEventListener, modify.
  rewrite H1. cbn [document set_listeners]. rewrite H2. cbn [document set_listeners].
  rewrite H3. cbn [document set_listeners]. rewrite H4. cbn [document set_listeners].
  rewrite H5. cbn [document set_listeners]. rewrite H6. cbn [document set_listeners listeners].
  rewrite Hl. reflexivity.
Qed.

(** X16: on a page with the three forms and the three price fields, a
    launch whose [init] returns registers exactly six listeners, one per
    element, in the order of the source; from then on a submission of a form
    runs that form's handler, once. *)
Theorem launch_registers
    (toLocaleString : Number -> string) (plugin : bool) (page : gmap string Element)
    (s : State) :
  (forall id, id ∈ fst ∘ fst <$> registrations -> is_Some (page !! id)) ->
  fst (init toLocaleString (boot plugin page (store s))) = Normal tt ->
  let s' := handle toLocaleString (PageLoad plugin page) s in
  listeners s' = registrations /\
  (forall now, handle toLocaleString (Submit "profileForm" now) s' = exec onProfileSubmit s') /\
  (forall now, handle toLocaleString (Submit "accountForm" now) s' = exec onAccountSubmit s') /\
  (forall now, handle toLocaleString (Submit "tradeForm" now) s'
               = exec (onTradeSubmit toLocaleString now) s').
Proof.
  intros Hpage Hinit s'.
  assert (Hl : listeners s' = registrations).
  { subst s'. cbn [handle]. unfold exec, onDOMContentLoaded.
    set (P := fun x => present (fst ∘ fst <$> registrations) x /\ listeners x = []).
    assert (H0 : P (boot plugin page (store s))) by (split; [exact Hpage|reflexivity]).
    assert (Hi : preserves P (init toLocaleString))
      by (subst P; follow ltac:(both present_tac assumption)).
    assert (Ht : preserves P testDatabase)
      by (subst P; follow ltac:(both present_tac assumption)).
    specialize (Hi _ H0).
    destruct (init toLocaleString (boot plugin page (store s))) as [c s1] eqn:E1.
    cbn [fst snd] in Hinit, Hi. subst c.
    rewrite (bind_normal _ _ _ _ _ E1).
    specialize (Ht _ Hi). destruct (testDatabase_normal s1) as [b Hb].
    destruct (testDatabase s1) as [c s2] eqn:E2. cbn [fst snd] in Hb, Ht. subst c.
    rewrite (bind_normal _ _ _ _ _ E2).
    rewrite (registers s2 (proj1 Ht) (proj2 Ht)). reflexivity. }
  split; [exact Hl|].
  split_and!; intros now; cbn [handle]; unfold dispatch; rewrite Hl; reflexivity.
Qed.

Lemma launch_registers_witness :
  let s' := handle toLocaleString_en (PageLoad true Example.page) Example.traded in
  listeners s' = registrations /\
  (forall now, handle toLocaleString_en (Submit "profileForm" now) s'
               = exec onProfileSubmit s') /\
  (forall now, handle toLocaleString_en (Submit "accountForm" now) s'
               = exec onAccountSubmit s') /\
  (forall now, handle toLocaleString_en (Submit "tradeForm" now) s'
               = exec (onTradeSubmit toLocaleString_en now) s').
Proof.
  apply (launch_registers toLocaleString_en true Example.page Example.traded).
  - apply (fields_present _ (boot true Example.page Store.empty)). vm_compute. reflexivity.
  - vm_compute. reflexivity.
Defined.

(** ** The statistics panel *)

Lemma updateStats_shows
    (toLocaleString : Number -> string) (s : State) (p : Profile.t) :
  trades s <> [] ->
  currentProfile s = Some p ->
  present statistics s ->
  exists s',
    updateStats toLocaleString s = (Normal tt, s') /\
    trades s' = trades s /\
    shown s' "totalPnL"
      = Some (Text (Profile.currency p ++ " " ++ toFixed 2 (totalPnL (trades s)))) /\
    shown s' "totalTrades" = Some (Text (decimal (Z.of_nat (length (trades s))))) /\
    shown s' "winRate" = Some (Text (winRate (trades s) ++ "%")) /\
    shown s' "totalVolume" = Some (Text (toLocaleString (totalVolume (trades s)))) /\
    className <$> document s' !! "totalPnL"
      = Some (if PrimFloat.leb 0 (totalPnL (trades s))
              then "value positive" else "value negative").
Proof.
  intros Hne Hp Hdoc.
  destruct (Hdoc "totalPnL") as [e1 H1]; [set_solver|].
  destruct (Hdoc "totalTrades") as [e2 H2]; [set_solver|].
  destruct (Hdoc "winRate") as [e3 H3]; [set_solver|].
  destruct (Hdoc "totalVolume") as [e4 H4]; [set_solver|].
  unfold updateStats. rewrite (bind_normal _ _ _ _ _ (gets_eq trades s)).
  destruct (trades s) as [|t ts] eqn:Hts; [congruence|].
  cbn [length Nat.eqb]. rewrite (bind_normal _ _ _ _ _ (gets_eq currentProfile s)).
  rewrite Hp. unfold set_textContent.
  erewrite bind_normal by (apply update_Some; exact H1).
  erewrite bind_normal
    by (apply update_Some; cbn [document set_document]; apply lookup_insert_eq).
  erewrite bind_normal by (apply update_Some; cbn [document set_document];
    rewrite !lookup_insert_ne by done; exact H2).
  erewrite bind_normal by (apply update_Some; cbn [document set_document];
    rewrite !lookup_insert_ne by done; exact H3).
  erewrite update_Some by (cbn [document set_document];
    rewrite !lookup_insert_ne by done; exact H4).
  eexists. split; [reflexivity|].
  unfold shown. cbn [document set_document trades].
  split_and!.
  - exact Hts.
  - rewrite !lookup_insert_ne by done. rewrite lookup_insert_eq. reflexivity.
  - rewrite !lookup_insert_ne by done. rewrite lookup_insert_eq. reflexivity.
  - rewrite !lookup_insert_ne by done. rewrite lookup_insert_eq. reflexivity.
  - rewrite lookup_insert_eq. reflexivity.
  - rewrite !lookup_insert_ne by done. rewrite lookup_insert_eq. reflexivity.
Qed.

Lemma leb_nan (x : Number) : PrimFloat.is_nan x = true -> PrimFloat.leb 0 x = false.
Proof.
  unfold PrimFloat.is_nan. rewrite FloatAxioms.eqb_spec, FloatAxioms.leb_spec.
  change (Prim2SF 0) with (S754_zero false).
  destruct (Prim2SF x) as [sg|sg| |sg m e]; try reflexivity.
  - destruct sg; discriminate.
  - destruct sg; discriminate.
  - unfold SFeqb, SFcompare. rewrite Z.compare_refl, Pos.compare_cont_refl.
    destruct sg; discriminate.
Qed.

(** X17: under the conditions of C2, [updateStats] sets the class of the
    total to [value positive] when the sum of the profits is at least
    zero and to [value negative] when it is below zero, and also when it is
    [NaN] (a trade whose profit is not a number). *)
Theorem updateStats_className
    (toLocaleString : Number -> string) (s : State) (p : Profile.t) :
  trades s <> [] ->
  currentProfile s = Some p ->
  present statistics s ->
  let total := totalPnL (trades s) in
  let shade := className <$> document (exec (updateStats toLocaleString) s) !! "totalPnL" in
  (PrimFloat.leb 0 total = true -> shade = Some "value positive") /\
  (PrimFloat.ltb total 0 = true -> shade = Some "value negative") /\
  (PrimFloat.is_nan total = true -> shade = Some "value negative").
Proof.
  intros Hne Hp Hdoc total shade.
  destruct (updateStats_shows toLocaleString s p Hne Hp Hdoc)
    as (s' & Hup & _ & _ & _ & _ & _ & Hc).
  subst shade. unfold exec. rewrite Hup. cbn [snd]. rewrite Hc. fold total.
  split_and!.
  - intros ->. reflexivity.
  - intros Hlt. replace (PrimFloat.leb 0 total) with false; [reflexivity|].
    symmetry. revert Hlt.
    rewrite FloatAxioms.ltb_spec, FloatAxioms.leb_spec.
    change (Prim2SF 0) with (S754_zero false).
    unfold SFltb, SFleb, SFcompare.
    destruct (Prim2SF total) as [sg|sg| |sg m e]; try discriminate;
      destruct sg; try discriminate; reflexivity.
  - intros Hnan. rewrite (leb_nan _ Hnan). reflexivity.
Qed.

Lemma updateStats_className_witness :
  let total := totalPnL (trades Example.traded) in
  let shade :=
    className <$> document (exec (updateStats toLocaleString_en) Example.traded) !! "totalPnL" in
  total = 30%float /\
  (PrimFloat.leb 0 total = true -> shade = Some "value positive") /\
  (PrimFloat.ltb total 0 = true -> shade = Some "value negative") /\
  (PrimFloat.is_nan total = true -> shade = Some "value negative").
Proof.
  split; [reflexivity|].
  apply (updateStats_className toLocaleString_en Example.traded (Profile.mk "ann" "USD")).
  - discriminate.
  - reflexivity.
  - unfold present. apply fields_present. vm_compute. reflexivity.
Defined.

(** ** A trade submission and the statistics *)

(** X18: with the storage in service, an account selected, a profile
    loaded and the trade form and the statistics elements on the page, a
    submission leaves the list of trades non-empty and equal to the stored
    trades of the selected account, and the four statistics elements show
    the figures of exactly that list, whatever becomes of closing the modal
    and resetting the form. *)
Theorem trade_submit_refreshes_statistics
    (toLocaleString : Number -> string) (now : string)
    (account : Account.t) (p : Profile.t) (s : State) :
  in_service s ->
  currentAccount s = Some account ->
  currentProfile s = Some p ->
  present trade_form s ->
  present statistics s ->
  let s' := exec (onTradeSubmit toLocaleString now) s in
  trades s' <> [] /\
  trades s' = trade_of_row <$> Store.select_trades (Account.id account) (store s') /\
  shown s' "totalPnL"
    = Some (Text (Profile.currency p ++ " " ++ toFixed 2 (totalPnL (trades s')))) /\
  shown s' "totalTrades" = Some (Text (decimal (Z.of_nat (length (trades s'))))) /\
  shown s' "winRate" = Some (Text (winRate (trades s') ++ "%")) /\
  shown s' "totalVolume" = Some (Text (toLocaleString (totalVolume (trades s')))).
Proof.
  intros H Hacc Hp Hform Hstats s'.
  assert (Hexec : s' = exec (onTradeSubmit toLocaleString now) s) by reflexivity.
  clearbody s'. revert Hexec. unfold exec, onTradeSubmit.
  rewrite (bind_normal _ _ _ _ _ (gets_eq currentAccount s)). rewrite Hacc.
  rewrite (try_catch_bind_normal _ _ _ _ _ _ (readTradeForm_present _ _ _ Hform)).
  rewrite (try_catch_bind_normal _ _ _ _ _ _ (saveTrade_in_service _ _ H)).
  match goal with |- context [try_catch _ _ ?s1] => set (s1' := s1) end.
  assert (H1 : in_service s1') by (apply in_service_set_store; [exact H|reflexivity]).
  pose proof (loadTrades_in_service (Account.id account) s1' H1) as Hts.
  pose proof (loadTrades_normal (Account.id account) s1') as Hn.
  assert (Hkeep : preserves
            (fun x => store x = store s1' /\
                      (currentProfile x = Some p /\ present statistics x))
            (loadTrades (Account.id account)))
    by (follow ltac:(both assumption ltac:(both assumption present_tac))).
  specialize (Hkeep s1' (conj eq_refl (conj Hp Hstats))).
  unfold exec in Hts.
  destruct (loadTrades (Account.id account) s1') as [c s2] eqn:Hload.
  cbn [fst snd] in Hts, Hkeep, Hn. subst c.
  destruct Hkeep as (Hst2 & Hp2 & Hstats2).
  rewrite (try_catch_bind_normal _ _ _ _ _ _ Hload). cbv beta.
  assert (Hne : trades s2 <> []).
  { rewrite Hts. intros Hnil. apply fmap_nil_inv in Hnil.
    pose proof (select_trades_inserted
                  (trade_row (TradeFields.mk (Account.id account)
                     (field_value s "symbol") (field_value s "tradeType")
                     (parseFloat (field_value s "entryPrice"))
                     (or_else Some (parseFloat (field_value s "exitPrice")) None)
                     (parseFloat (field_value s "takeProfit"))
                     (parseFloat (field_value s "stopLoss"))
                     (parseFloat (field_value s "lotSize"))
                     (parseFloat (field_value s "volume"))
                     (parseFloat (field_value s "profit"))
                     (or_else id (parseFloat (field_value s "commission")) 0%float)
                     (field_value s "rrRatio") (field_value s "strategy")
                     (field_value s "session") (field_value s "duration") now))
                  (Account.id account) (store s) (fun _ => eq_refl)) as Hin.
    change (snd (Store.insert_trade _ (store s))) with (store s1') in Hin.
    rewrite Hnil in Hin. apply elem_of_nil in Hin as []. }
  destruct (updateStats_shows toLocaleString s2 p Hne Hp2 Hstats2)
    as (s3 & Hup & Hts3 & Hs1 & Hs2 & Hs3 & Hs4 & _).
  rewrite (try_catch_bind_normal _ _ _ _ _ _ Hup). cbv beta.
  assert (Hst3 : store s3 = store s2).
  { assert (Hq : preserves (fun x => store x = store s2) (updateStats toLocaleString))
      by (follow ltac:(intros; assumption)).
    specialize (Hq s2 eq_refl). rewrite Hup in Hq. exact Hq. }
  match goal with
  | |- context [try_catch ?m ?h s3] =>
      assert (Hrest : preserves
                (fun x => (trades x = trades s3 /\ store x = store s3) /\
                          (shown x "totalPnL" = shown s3 "totalPnL" /\
                           (shown x "totalTrades" = shown s3 "totalTrades" /\
                            (shown x "winRate" = shown s3 "winRate" /\
                             shown x "totalVolume" = shown s3 "totalVolume"))))
                (try_catch m h))
        by (follow ltac:(both ltac:(both assumption assumption)
                           ltac:(both shown_tac
                             ltac:(both shown_tac ltac:(both shown_tac shown_tac)))));
      destruct (Hrest s3 (conj (conj eq_refl eq_refl)
                            (conj eq_refl (conj eq_refl (conj eq_refl eq_refl)))))
        as ((Ht' & Hst') & Hr1 & Hr2 & Hr3 & Hr4)
  end.
  intros ->. rewrite Ht', Hst', Hr1, Hr2, Hr3, Hr4, Hts3, Hst3, Hst2.
  split_and!; [exact Hne|exact Hts|exact Hs1|exact Hs2|exact Hs3|exact Hs4].
Qed.

Lemma trade_submit_refreshes_statistics_witness :
  let s' := exec (onTradeSubmit toLocaleString_en "2024-01-03T09:30:00.000Z")
              Example.no_exit in
  shown s' "totalPnL" = Some (Text "USD 5.00") /\
  trades s' <> [] /\
  trades s' = trade_of_row <$> Store.select_trades 1 (store s') /\
  shown s' "totalPnL" = Some (Text ("USD" ++ " " ++ toFixed 2 (totalPnL (trades s')))) /\
  shown s' "totalTrades" = Some (Text (decimal (Z.of_nat (length (trades s'))))) /\
  shown s' "winRate" = Some (Text (winRate (trades s') ++ "%")) /\
  shown s' "totalVolume" = Some (Text (toLocaleString_en (totalVolume (trades s')))).
Proof.
  split; [vm_compute; reflexivity|].
  apply (trade_submit_refreshes_statistics toLocaleString_en "2024-01-03T09:30:00.000Z"
           Example.main_account (Profile.mk "ann" "USD") Example.no_exit).
  - split; [eexists|]; reflexivity.
  - reflexivity.
  - reflexivity.
  - unfold present. apply fields_present. vm_compute. reflexivity.
  - unfold present. apply fields_present. vm_compute. reflexivity.
Defined.

(** ** What the lists show *)

(** X19: with the storage in service and the table body on the page,
    [loadTrades] leaves the table in step with [trades]: it shows the
    [No trades yet] row when the account has no stored trade and otherwise
    one row per loaded trade, in the order of [trades]. *)
Theorem loadTrades_renders (s : State) (accountId : Z) :
  in_service s ->
  is_Some (document s !! "tradesBody") ->
  let s' := exec (loadTrades accountId) s in
  trades s' = trade_of_row <$> Store.select_trades accountId (store s) /\
  shown s' "tradesBody"
  = Some match trades s' with
         | [] => NoTrades
         | _ :: _ => TradeRows (trades s')
         end.
Proof.
  intros H [el Hel] s'. subst s'. unfold exec, loadTrades, try_catch.
  rewrite (bind_normal _ _ _ _ _ (db_select_in_service _ _ H)).
  change (List.map trade_of_row (Store.select_trades accountId (store s)))
    with (trade_of_row <$> Store.select_trades accountId (store s)).
  generalize (trade_of_row <$> Store.select_trades accountId (store s)). intros ts.
  rewrite (bind_normal _ _ _ _ _ (modify_eq _ s)). cbv beta.
  assert (Hel1 : document (set_trades ts s) !! "tradesBody" = Some el) by exact Hel.
  unfold renderTrades.
  rewrite (bind_normal _ _ _ _ _ (element_Some "tradesBody" _ el Hel1)).
  rewrite (bind_normal _ _ _ _ _ (gets_eq trades (set_trades ts s))).
  cbn [trades set_trades].
  destruct ts as [|t ts]; cbn [length Nat.eqb];
    rewrite (update_Some "tradesBody" _ _ el Hel1);
    unfold shown; cbn [snd document set_document trades set_trades];
    rewrite lookup_insert_eq; split; reflexivity.
Qed.

Lemma loadTrades_renders_witness :
  let s' := exec (loadTrades 2) Example.traded in
  trades s' = trade_of_row <$> Store.select_trades 2 (store Example.traded) /\
  shown s' "tradesBody"
  = Some match trades s' with
         | [] => NoTrades
         | _ :: _ => TradeRows (trades s')
         end.
Proof.
  apply (loadTrades_renders Example.traded 2).
  - split; [eexists|]; reflexivity.
  - eexists. reflexivity.
Defined.

(** X20: with a profile loaded and the grid on the page, selecting a
    loaded account redraws the grid with one card per loaded account, in
    the order of [accounts], marked active exactly when its id is the
    selected one, and labelled with the profile's currency; this holds
    whether or not loading the trades succeeds. *)
Theorem selectAccount_marks_card (s : State) (id : Z) (p : Profile.t) (a : Account.t) :
  currentProfile s = Some p ->
  a ∈ accounts s -> Account.id a = id ->
  is_Some (document s !! "accountsGrid") ->
  shown (exec (selectAccount id) s) "accountsGrid"
  = Some (AccountCards (Profile.currency p)
            ((fun acc => (acc, id =? Account.id acc)) <$> accounts s)).
Proof.
  intros Hp Ha Hid Hgrid. unfold exec, selectAccount.
  rewrite (bind_normal _ _ _ _ _ (gets_eq accounts s)).
  rewrite (bind_normal _ _ _ _ _ (modify_eq _ s)). cbv beta.
  destruct (List.find (fun a => Account.id a =? id) (accounts s)) as [c|] eqn:Hfind.
  2:{ exfalso. apply list_elem_of_In in Ha.
      pose proof (find_none _ _ Hfind a Ha) as Hn. cbv beta in Hn. lia. }
  apply find_some in Hfind as [_ Hc].
  set (s1 := set_currentAccount (Some c) s).
  assert (Hkeep : preserves
            (fun x => (currentAccount x = Some c /\ accounts x = accounts s) /\
                      (currentProfile x = Some p /\ present ["accountsGrid"] x))
            (loadTrades id))
    by (follow ltac:(both ltac:(both assumption assumption)
                       ltac:(both assumption present_tac))).
  assert (H1 : present ["accountsGrid"] s1).
  { intros id' Hin. apply list_elem_of_singleton in Hin as ->. exact Hgrid. }
  specialize (Hkeep s1 (conj (conj eq_refl eq_refl) (conj Hp H1))).
  pose proof (loadTrades_normal id s1) as Hn.
  destruct (loadTrades id s1) as [r s2] eqn:Hload. cbn [fst snd] in Hkeep, Hn. subst r.
  destruct Hkeep as ((Hc2 & Ha2) & Hp2 & Hg2).
  rewrite (bind_normal _ _ _ _ _ Hload).
  destruct (Hg2 "accountsGrid") as [el Hel]; [apply list_elem_of_here|].
  assert (Hrender : exists s3,
            renderAccounts s2 = (Normal tt, s3) /\
            shown s3 "accountsGrid"
            = Some (AccountCards (Profile.currency p)
                      ((fun acc => (acc, id =? Account.id acc)) <$> accounts s))).
  { unfold renderAccounts.
    rewrite (bind_normal _ _ _ _ _ (element_Some "accountsGrid" _ el Hel)).
    rewrite (bind_normal _ _ _ _ _ (gets_eq accounts s2)). rewrite Ha2.
    destruct (accounts s) as [|a0 accs] eqn:Haccs; [apply elem_of_nil in Ha as []|].
    cbn [length Nat.eqb].
    rewrite (bind_normal _ _ _ _ _ (gets_eq currentAccount s2)).
    rewrite (bind_normal _ _ _ _ _ (gets_eq currentProfile s2)).
    rewrite Hc2, Hp2. cbv zeta.
    rewrite (update_Some "accountsGrid" _ _ el Hel).
    eexists. split; [reflexivity|].
    unfold shown. cbn [document set_document]. rewrite lookup_insert_eq.
    cbn [fmap option_fmap option_map content with_content]. do 2 f_equal.
    apply map_ext. intros acc. f_equal.
    apply Z.eqb_eq in Hc. rewrite Hc. reflexivity. }
  destruct Hrender as (s3 & Hr & Hshown).
  rewrite (bind_normal _ _ _ _ _ Hr).
  assert (Hlast : preserves (fun x => shown x "accountsGrid" = shown s3 "accountsGrid")
                    (update "tradesSection" (with_display "block")))
    by (follow shown_tac).
  rewrite (Hlast s3 eq_refl). exact Hshown.
Qed.

Lemma selectAccount_marks_card_witness :
  (fun '(acc, active) => (Account.name acc, active))
    <$> match shown (exec (selectAccount 1) Example.two_accounts) "accountsGrid" with
        | Some (AccountCards _ cards) => cards
        | _ => []
        end
  = [("Swing", false); ("Main", true)] /\
  shown (exec (selectAccount 1) Example.two_accounts) "accountsGrid"
  = Some (AccountCards "USD"
            ((fun acc => (acc, 1 =? Account.id acc)) <$> accounts Example.two_accounts)).
Proof.
  split; [vm_compute; reflexivity|].
  apply (selectAccount_marks_card Example.two_accounts 1 (Profile.mk "ann" "USD")
           Example.main_account).
  - reflexivity.
  - apply list_elem_of_further, list_elem_of_here.
  - reflexivity.
  - eexists. reflexivity.
Defined.
